(** * SafeJni: a shallow embedding of safejni.h and its implementation file

    The development follows the layout of the C++ sources:
    compile-time strings and the signature deriver, the managed runtime as
    seen through [JNIEnv], [Tools], the conversion templates, [JNICaller],
    the parameter destructor, the public call API and [JNIObject].

    C++ exceptions, destructors and the runtime's state are made explicit:
    a computation is a function from a state to an outcome and a new state. *)

From Stdlib Require Import ZArith Lia Ascii String Strings.Byte.
From stdpp Require Import base list strings.


(* ================================================================== *)
(** ** Compile-time strings (safejni.h, "Compile Time Strings")        *)
(* ================================================================== *)

(** [template<char... Cs> struct CompileTimeString]: the pack of chars. *)
Definition CompileTimeString := list ascii.

(** [CompileTimeString<Cs...>::value()] returns the static array
    [a[sizeof...(Cs)] = {Cs...}]. *)
Definition value (c : CompileTimeString) : list ascii := c.

(** [Concatenate2<CompileTimeString<LC...>, CompileTimeString<RC...>>]. *)
Definition Concatenate2 (L R : CompileTimeString) : CompileTimeString :=
  L ++ R.

(** [Concatenate<C...>]: the one-argument and two-argument specialisations
    and the recursive one. The primary template is only declared, so the
    empty pack has no instantiation; the model gives it the empty pack. *)
Fixpoint Concatenate (cs : list CompileTimeString) : CompileTimeString :=
  match cs with
  | [] => []
  | C1 :: rest =>
      match rest with
      | [] => C1
      | [C2] => Concatenate2 C1 C2
      | _ => Concatenate2 C1 (Concatenate rest)
      end
  end.

(** Reading a [const char *]: the characters up to the first NUL. *)
Fixpoint read_cstr (a : list ascii) : string :=
  match a with
  | [] => ""
  | c :: rest => if Ascii.eqb c Ascii.zero then "" else String c (read_cstr rest)
  end.

(** [std::string::c_str()] seen as a C string: a consumer of the pointer
    stops at the first NUL character of the contents. *)
Definition c_str (s : string) : string := read_cstr (list_ascii_of_string s).

(** The native types that have a [CPPToJNIConversor] specialisation with a
    [JNIType] member. *)
Inductive ctype :=
| TVoid | TBool | TInt8 | TUInt8 | TInt16 | TInt32 | TInt64 | TFloat | TDouble
| TString | TCharPtr | TVecString | TVecByte | TVecJObject | TMap
| TObjectPtr | TPointer.

(** [CPPToJNIConversor<T>::JNIType]. *)
Definition JNIType (t : ctype) : CompileTimeString :=
  list_ascii_of_string
    match t with
    | TVoid => "V"
    | TBool => "Z"
    | TInt8 => "B"
    | TUInt8 => "C"
    | TInt16 => "S"
    | TInt32 => "I"
    | TInt64 => "J"
    | TFloat => "F"
    | TDouble => "D"
    | TString => "Ljava/lang/String;"
    | TCharPtr => "Ljava/lang/String;"
    | TVecString => "[Ljava/lang/String;"
    | TVecByte => "[B"
    | TVecJObject => "[Ljava/lang/Object;"
    | TMap => "Ljava/util/HashMap;"
    | TObjectPtr => "Ljava/lang/Object;"
    | TPointer => "J"
    end.

(** [getJNISignature<T, Args...>]: the array behind the returned pointer. *)
Definition getJNISignature_array (T : ctype) (Args : list ctype) : list ascii :=
  value (Concatenate
           ([list_ascii_of_string "("] ++ map JNIType Args ++
            [list_ascii_of_string ")"; JNIType T; [Ascii.zero]])).

(** [getJNISignature<T, Args...>] as the caller reads it. *)
Definition getJNISignature (T : ctype) (Args : list ctype) : string :=
  read_cstr (getJNISignature_array T Args).

(** The type descriptor of a native type, as a string. *)
Definition descriptor (t : ctype) : string := string_of_list_ascii (JNIType t).

(* ================================================================== *)
(** ** Outcomes and the state monad                                    *)
(* ================================================================== *)

(** [class JNIException]: a native error carrying a message. *)
Record JNIException := { message : string }.

(** Ways in which a C++ execution stops without returning or throwing. *)
Inductive abort :=
| UndefinedBehaviour   (* use of an indeterminate pointer, write past an array *)
| Terminate            (* an exception leaves a destructor *)
| Uninstantiable       (* the template instantiation does not compile *)
| OutOfFuel.           (* the model's recursion bound was reached *)

Inductive outcome (A : Type) :=
| Ok (a : A)
| Throw (e : JNIException)
| Abort (r : abort).
Arguments Ok {A} a.
Arguments Throw {A} e.
Arguments Abort {A} r.

(** A computation over a state [S] that returns, throws or aborts. *)
Definition M (S A : Type) : Type := S -> outcome A * S.

Definition ret {S A} (a : A) : M S A := fun s => (Ok a, s).

Definition bind {S A B} (m : M S A) (k : A -> M S B) : M S B :=
  fun s =>
    match m s with
    | (Ok a, s') => k a s'
    | (Throw e, s') => (Throw e, s')
    | (Abort r, s') => (Abort r, s')
    end.

Notation "'let!' x ':=' m 'in' k" := (bind m (fun x => k))
  (at level 10, x name, m at level 99, k at level 200).
Notation "m ;;; k" := (bind m (fun _ => k))
  (at level 100, k at level 200, right associativity).

Definition abort_with {S A} (r : abort) : M S A := fun s => (Abort r, s).

(** Running a computation over the second component of a pair state: the
    first component is a C++ object local to the caller. *)
Definition lift {L S A} (m : M S A) : M (L * S) A :=
  fun ls => match m ls.2 with (r, s') => (r, (ls.1, s')) end.

(** Scope exit: [dtor] is the destructor of a local object. It runs when the
    body returns and when it throws; an exception leaving the destructor
    ends the program. *)
Definition unwind {S A} (body : M S A) (dtor : M S unit) : M S A :=
  fun s =>
    match body s with
    | (Abort r, s') => (Abort r, s')
    | (res, s') =>
        match dtor s' with
        | (Ok _, s'') => (res, s'')
        | (Throw _, s'') => (Abort Terminate, s'')
        | (Abort r, s'') => (Abort r, s'')
        end
    end.

(** A destructor called on its own ([delete], the last [shared_ptr] going
    away): it is implicitly [noexcept], so an exception that leaves it ends
    the program. *)
Definition noexcept {S A} (m : M S A) : M S A :=
  fun s =>
    match m s with
    | (Throw _, s') => (Abort Terminate, s')
    | r => r
    end.

(** Whether the call came back to its caller, by return or by exception. *)
Definition came_back {A} (r : outcome A) : bool :=
  match r with Abort _ => false | _ => true end.

(* ================================================================== *)
(** ** The managed runtime behind [JNIEnv]                             *)
(* ================================================================== *)

(** A reference handed to native code ([jobject], [jstring], [jclass],
    ...). [NULL] is 0. *)
Definition jobject := nat.
Definition NULL : jobject := 0.

(** A failure object of the managed side, by what its message getter does:
    return the message (which may be null) or raise in turn. *)
Inductive throwable :=
| Throwable (msg : option string)
| ThrowingThrowable (raised : throwable).

(** Objects of the managed heap. Array elements and map entries are object
    identifiers (position in the heap plus one, 0 for null). *)
Inductive jobj :=
| JString (chars : string)
| JObjectArray (elems : list nat)
| JByteArray (bytes : list byte)
| JFloatArray (floats : list Z)
| JClass (name : string)
| JHashMap (entries : list (nat * nat))
| JThrowable (t : throwable)
| JInstance (cls : string).

(** One reference: the object it denotes, its strength, and whether it was
    deleted. A reference is named by its position in the table plus one. *)
Record ref := { r_obj : nat; r_global : bool; r_live : bool }.

(** Values passed to and stored by the runtime: a reference or a primitive
    (floating point numbers by their bits). *)
Inductive jvalue :=
| JRef (h : jobject)
| JPrim (z : Z).

(** What a managed method does when invoked: it returns nothing, a
    primitive, null, a new object, or an object that is on the heap already
    (by its identifier, 0 for null). *)
Inductive retval :=
| RetVoid
| RetPrim (z : Z)
| RetNull
| RetObj (o : jobj)
| RetRef (oid : nat).

Inductive behaviour :=
| Returns (v : retval)
| Raises (t : throwable).

Record method := {
  m_class : string; m_name : string; m_sig : string; m_static : bool;
  m_body : list jvalue -> behaviour }.

Record field := {
  f_class : string; f_name : string; f_sig : string; f_static : bool;
  f_init : retval }.

(** Method tokens: null, the members of the runtime's own library that the
    sources look up by name, and the methods of the loaded program. *)
Inductive jmethodID :=
| MNull
| MGetMessage      (* java/lang/Throwable.getMessage()Ljava/lang/String; *)
| MHashMapInit     (* java/util/HashMap.<init>()V *)
| MHashMapPut      (* java/util/HashMap.put *)
| MUser (n : nat).

(** Field tokens: 0 is null, otherwise the position in [fields] plus one. *)
Definition jfieldID := nat.

(** What a field holds: an object identifier (0 for null) or a primitive. *)
Inductive slot :=
| SlotObj (oid : nat)
| SlotPrim (z : Z).

(** What the handle-accounting fake of the runtime records. [EvRegister]
    is emitted by [JNIParamDestructor::add], [EvLog] by [LOGE]. *)
Inductive event :=
| EvNewLocalRef (h : jobject)
| EvDeleteLocalRef (h : jobject)
| EvNewGlobalRef (h : jobject)
| EvDeleteGlobalRef (h : jobject)
| EvGetStaticMethodID (cls name sig : string)
| EvGetMethodID (cls name sig : string)
| EvRegister (h : jobject)
| EvLog (text : string).

Record World := {
  javaVM : bool;                 (* [Tools::javaVM] is set *)
  attach_status : Z;             (* what [AttachCurrentThread] reports *)
  detach_status : Z;             (* what [DetachCurrentThread] reports *)
  classes : list string;         (* classes of the loaded program *)
  methods : list method;
  fields : list field;
  objs : list jobj;              (* managed heap *)
  refs : list ref;               (* reference table *)
  fieldvals : list (nat * jfieldID * slot);  (* fields written so far *)
  pending : option throwable;    (* the runtime's exception state *)
  alloc_faults : list bool;      (* whether the next allocations fail *)
  trace : list event }.

Definition set_javaVM (w : World) (b : bool) : World :=
  {| javaVM := b; attach_status := attach_status w;
     detach_status := detach_status w; classes := classes w;
     methods := methods w; fields := fields w; objs := objs w;
     refs := refs w; fieldvals := fieldvals w; pending := pending w;
     alloc_faults := alloc_faults w; trace := trace w |}.
Definition set_objs (w : World) (o : list jobj) : World :=
  {| javaVM := javaVM w; attach_status := attach_status w;
     detach_status := detach_status w; classes := classes w;
     methods := methods w; fields := fields w; objs := o;
     refs := refs w; fieldvals := fieldvals w; pending := pending w;
     alloc_faults := alloc_faults w; trace := trace w |}.
Definition set_refs (w : World) (r : list ref) : World :=
  {| javaVM := javaVM w; attach_status := attach_status w;
     detach_status := detach_status w; classes := classes w;
     methods := methods w; fields := fields w; objs := objs w;
     refs := r; fieldvals := fieldvals w; pending := pending w;
     alloc_faults := alloc_faults w; trace := trace w |}.
Definition set_fieldvals (w : World) (v : list (nat * jfieldID * slot)) : World :=
  {| javaVM := javaVM w; attach_status := attach_status w;
     detach_status := detach_status w; classes := classes w;
     methods := methods w; fields := fields w; objs := objs w;
     refs := refs w; fieldvals := v; pending := pending w;
     alloc_faults := alloc_faults w; trace := trace w |}.
Definition set_pending (w : World) (p : option throwable) : World :=
  {| javaVM := javaVM w; attach_status := attach_status w;
     detach_status := detach_status w; classes := classes w;
     methods := methods w; fields := fields w; objs := objs w;
     refs := refs w; fieldvals := fieldvals w; pending := p;
     alloc_faults := alloc_faults w; trace := trace w |}.
Definition set_alloc_faults (w : World) (f : list bool) : World :=
  {| javaVM := javaVM w; attach_status := attach_status w;
     detach_status := detach_status w; classes := classes w;
     methods := methods w; fields := fields w; objs := objs w;
     refs := refs w; fieldvals := fieldvals w; pending := pending w;
     alloc_faults := f; trace := trace w |}.
Definition set_trace (w : World) (t : list event) : World :=
  {| javaVM := javaVM w; attach_status := attach_status w;
     detach_status := detach_status w; classes := classes w;
     methods := methods w; fields := fields w; objs := objs w;
     refs := refs w; fieldvals := fieldvals w; pending := pending w;
     alloc_faults := alloc_faults w; trace := t |}.

(** *** Reading the heap through a reference *)

Definition resolve (w : World) (h : jobject) : option nat :=
  match h with
  | 0 => None
  | S i =>
      match refs w !! i with
      | Some r => if r_live r then Some (r_obj r) else None
      | None => None
      end
  end.

Definition heap_at (w : World) (oid : nat) : option jobj :=
  match oid with
  | 0 => None
  | S j => objs w !! j
  end.

Definition deref (w : World) (h : jobject) : option jobj :=
  match resolve w h with
  | Some oid => heap_at w oid
  | None => None
  end.

(** The object identifier behind a reference, 0 for null. *)
Definition target (w : World) (h : jobject) : nat := default 0 (resolve w h).

(** *** Building blocks of the runtime *)

Definition emit (e : event) : M World unit :=
  fun w => (Ok tt, set_trace w (trace w ++ [e])).

Definition new_ref (global : bool) (oid : nat) : M World jobject :=
  fun w =>
    let h := S (length (refs w)) in
    (Ok h,
     set_trace
       (set_refs w (refs w ++ [{| r_obj := oid; r_global := global; r_live := true |}]))
       (trace w ++ [if global then EvNewGlobalRef h else EvNewLocalRef h])).

Definition alloc (o : jobj) : M World nat :=
  fun w => (Ok (S (length (objs w))), set_objs w (objs w ++ [o])).

Definition raise (t : throwable) : M World unit :=
  fun w => (Ok tt, set_pending w (Some t)).

Definition local_ref_to (o : jobj) : M World jobject :=
  let! oid := alloc o in new_ref false oid.

Definition OutOfMemoryError : throwable :=
  Throwable (Some "java.lang.OutOfMemoryError").
Definition ArrayIndexOutOfBounds : throwable :=
  Throwable (Some "java.lang.ArrayIndexOutOfBoundsException").

(** Allocation on behalf of native code ([NewStringUTF], [New...Array],
    [NewObject]): it fails, returning null with a pending failure, when the
    next entry of [alloc_faults] says so. *)
Definition New (o : jobj) : M World jobject :=
  fun w =>
    match alloc_faults w with
    | true :: rest =>
        (Ok NULL, set_pending (set_alloc_faults w rest) (Some OutOfMemoryError))
    | false :: rest => local_ref_to o (set_alloc_faults w rest)
    | [] => local_ref_to o w
    end.

Definition kill_ref (global : bool) (h : jobject) (w : World) : World :=
  match h with
  | 0 => w
  | S i =>
      match refs w !! i with
      | Some r =>
          if Bool.eqb (r_global r) global
          then set_refs w (<[i := {| r_obj := r_obj r; r_global := r_global r;
                                     r_live := false |}]> (refs w))
          else w
      | None => w
      end
  end.

(** *** The functions of [JNIEnv] that the sources call *)

Module JNI.

Definition runtime_classes : list string :=
  ["java/lang/Object"; "java/lang/String"; "java/lang/Throwable";
   "java/util/HashMap"].

Definition class_exists (w : World) (name : string) : bool :=
  existsb (String.eqb name) (runtime_classes ++ classes w).

Definition FindClass (name : string) : M World jobject :=
  fun w =>
    if class_exists w name then local_ref_to (JClass name) w
    else (Ok NULL, set_pending w (Some (Throwable (Some name)))).

Definition class_of (o : jobj) : string :=
  match o with
  | JString _ => "java/lang/String"
  | JObjectArray _ => "[Ljava/lang/Object;"
  | JByteArray _ => "[B"
  | JFloatArray _ => "[F"
  | JClass _ => "java/lang/Class"
  | JHashMap _ => "java/util/HashMap"
  | JThrowable _ => "java/lang/Throwable"
  | JInstance c => c
  end.

Definition GetObjectClass (h : jobject) : M World jobject :=
  fun w =>
    match deref w h with
    | Some o => local_ref_to (JClass (class_of o)) w
    | None => (Ok NULL, w)
    end.

Definition class_name (w : World) (cls : jobject) : option string :=
  match deref w cls with
  | Some (JClass n) => Some n
  | _ => None
  end.

Fixpoint find_index {A} (p : A -> bool) (l : list A) (i : nat) : option nat :=
  match l with
  | [] => None
  | x :: rest => if p x then Some i else find_index p rest (S i)
  end.

Definition is_method (static : bool) (c name sig : string) (m : method) : bool :=
  String.eqb (m_class m) c && String.eqb (m_name m) name &&
  String.eqb (m_sig m) sig && Bool.eqb (m_static m) static.

Definition lookup_method (w : World) (static : bool) (c name sig : string)
  : jmethodID :=
  if negb static && String.eqb c "java/lang/Throwable" &&
     String.eqb name "getMessage" && String.eqb sig "()Ljava/lang/String;"
  then MGetMessage
  else if negb static && String.eqb c "java/util/HashMap" &&
          String.eqb name "<init>" && String.eqb sig "()V"
  then MHashMapInit
  else if negb static && String.eqb c "java/util/HashMap" &&
          String.eqb name "put" &&
          String.eqb sig "(Ljava/lang/Object;Ljava/lang/Object;)Ljava/lang/Object;"
  then MHashMapPut
  else match find_index (is_method static c name sig) (methods w) 0 with
       | Some i => MUser i
       | None => MNull
       end.

Definition get_method (static : bool) (cls : jobject) (name sig : string)
  : M World jmethodID :=
  fun w =>
    match class_name w cls with
    | None => (Ok MNull, w)
    | Some c =>
        match lookup_method w static c name sig with
        | MNull => (Ok MNull, set_pending w (Some (Throwable (Some name))))
        | mid => (Ok mid, w)
        end
    end.

Definition GetMethodID (cls : jobject) (name sig : string) : M World jmethodID :=
  fun w =>
    (emit (EvGetMethodID (default "" (class_name w cls)) name sig) ;;;
     get_method false cls name sig) w.

Definition GetStaticMethodID (cls : jobject) (name sig : string)
  : M World jmethodID :=
  fun w =>
    (emit (EvGetStaticMethodID (default "" (class_name w cls)) name sig) ;;;
     get_method true cls name sig) w.

(** [equals] as [java.util.HashMap] applies it to its keys: two strings are
    equal when their characters are, any other two objects when they are
    the same object. *)
Definition same_key (w : World) (a b : nat) : bool :=
  match heap_at w a, heap_at w b with
  | Some (JString s), Some (JString t) => String.eqb s t
  | _, _ => Nat.eqb a b
  end.

(** [java.util.HashMap.put]: the entries after the call, in the order in
    which their keys were first put, and the previous value of the key (0
    for none). An entry with an equal key keeps its key object and gets the
    new value; otherwise an entry is added. *)
Fixpoint put_entry (w : World) (k v : nat) (es : list (nat * nat))
  : list (nat * nat) * nat :=
  match es with
  | [] => ([(k, v)], 0)
  | (k0, v0) :: rest =>
      if same_key w k0 k then ((k0, v) :: rest, v0)
      else ((k0, v0) :: (put_entry w k v rest).1, (put_entry w k v rest).2)
  end.

(** Running the body of a managed method on a receiver (an object or, for
    a static method, a class). *)
Definition run_method (recv : jobject) (mid : jmethodID) (args : list jvalue)
  : M World retval :=
  fun w =>
    match mid with
    | MNull => (Ok RetVoid, w)
    | MGetMessage =>
        match deref w recv with
        | Some (JThrowable (Throwable (Some s))) => (Ok (RetObj (JString s)), w)
        | Some (JThrowable (ThrowingThrowable c)) =>
            (Ok RetNull, set_pending w (Some c))
        | _ => (Ok RetNull, w)
        end
    | MHashMapInit => (Ok RetVoid, w)
    | MHashMapPut =>
        match resolve w recv, args with
        | Some (S j), [JRef k; JRef v] =>
            match objs w !! j with
            | Some (JHashMap es) =>
                (Ok (RetRef (put_entry w (target w k) (target w v) es).2),
                 set_objs w
                   (<[j := JHashMap (put_entry w (target w k) (target w v) es).1]>
                      (objs w)))
            | _ => (Ok RetNull, w)
            end
        | _, _ => (Ok RetNull, w)
        end
    | MUser i =>
        match methods w !! i with
        | Some m =>
            match m_body m args with
            | Returns v => (Ok v, w)
            | Raises t => (Ok RetVoid, set_pending w (Some t))
            end
        | None => (Ok RetVoid, w)
        end
    end.

(** [CallObjectMethod] and [CallStaticObjectMethod]. *)
Definition CallObjectMethod (recv : jobject) (mid : jmethodID)
    (args : list jvalue) : M World jobject :=
  let! v := run_method recv mid args in
  match v with
  | RetObj o => local_ref_to o
  | RetRef (S j) => new_ref false (S j)
  | _ => ret NULL
  end.

(** [CallVoidMethod], [CallStaticVoidMethod], [CallNonvirtualVoidMethod]. *)
Definition CallVoidMethod (recv : jobject) (mid : jmethodID)
    (args : list jvalue) : M World unit :=
  run_method recv mid args ;;; ret tt.

(** [Call<Type>Method] and [CallStatic<Type>Method] for a primitive type. *)
Definition CallPrimitiveMethod (recv : jobject) (mid : jmethodID)
    (args : list jvalue) : M World Z :=
  let! v := run_method recv mid args in
  match v with
  | RetPrim z => ret z
  | _ => ret 0%Z
  end.

Definition NewObject (cls : jobject) (mid : jmethodID) (args : list jvalue)
  : M World jobject :=
  fun w =>
    match mid with
    | MHashMapInit => New (JHashMap []) w
    | MUser i =>
        match methods w !! i with
        | Some m =>
            match m_body m args with
            | Returns _ => New (JInstance (m_class m)) w
            | Raises t => (Ok NULL, set_pending w (Some t))
            end
        | None => (Ok NULL, w)
        end
    | _ => (Ok NULL, w)
    end.

Definition NewStringUTF (utf : string) : M World jobject :=
  New (JString (c_str utf)).

(** [GetStringUTFChars]: the characters, or a null pointer. *)
Definition GetStringUTFChars (str : jobject) : M World (option string) :=
  fun w =>
    match deref w str with
    | Some (JString s) => (Ok (Some s), w)
    | _ => (Ok None, w)
    end.

Definition ReleaseStringUTFChars (str : jobject) (chars : string)
  : M World unit := ret tt.

Definition NewObjectArray (size : nat) (cls init : jobject) : M World jobject :=
  fun w => New (JObjectArray (replicate size (target w init))) w.

Definition SetObjectArrayElement (arr : jobject) (i : nat) (v : jobject)
  : M World unit :=
  fun w =>
    match resolve w arr with
    | Some (S j) =>
        match objs w !! j with
        | Some (JObjectArray es) =>
            if i <? length es
            then (Ok tt, set_objs w (<[j := JObjectArray (<[i := target w v]> es)]>
                                       (objs w)))
            else raise ArrayIndexOutOfBounds w
        | _ => (Ok tt, w)
        end
    | _ => (Ok tt, w)
    end.

Definition GetObjectArrayElement (arr : jobject) (i : nat) : M World jobject :=
  fun w =>
    match deref w arr with
    | Some (JObjectArray es) =>
        match es !! i with
        | Some 0 => (Ok NULL, w)
        | Some oid => new_ref false oid w
        | None => (Ok NULL, set_pending w (Some ArrayIndexOutOfBounds))
        end
    | _ => (Ok NULL, w)
    end.

Definition GetArrayLength (arr : jobject) : M World nat :=
  fun w =>
    match deref w arr with
    | Some (JObjectArray es) => (Ok (length es), w)
    | Some (JByteArray bs) => (Ok (length bs), w)
    | Some (JFloatArray fs) => (Ok (length fs), w)
    | _ => (Ok 0, w)
    end.

Definition NewByteArray (size : nat) : M World jobject :=
  New (JByteArray (replicate size x00)).

(** Copying [len] elements of [src] over [dst] from position [start]. *)
Definition blit {A} (dst : list A) (start len : nat) (src : list A) : list A :=
  take start dst ++ take len src ++ drop (start + len) dst.

Definition SetByteArrayRegion (arr : jobject) (start len : nat)
    (buf : list byte) : M World unit :=
  fun w =>
    match resolve w arr with
    | Some (S j) =>
        match objs w !! j with
        | Some (JByteArray bs) =>
            if start + len <=? length bs
            then (Ok tt, set_objs w (<[j := JByteArray (blit bs start len buf)]>
                                       (objs w)))
            else raise ArrayIndexOutOfBounds w
        | _ => (Ok tt, w)
        end
    | _ => (Ok tt, w)
    end.

(** [GetByteArrayRegion] writes into the caller's buffer; the model returns
    the buffer after the call. *)
Definition GetByteArrayRegion (arr : jobject) (start len : nat)
    (buf : list byte) : M World (list byte) :=
  fun w =>
    match deref w arr with
    | Some (JByteArray bs) =>
        if start + len <=? length bs
        then (Ok (blit buf 0 len (drop start bs)), w)
        else (Ok buf, set_pending w (Some ArrayIndexOutOfBounds))
    | _ => (Ok buf, w)
    end.

Definition GetFloatArrayRegion (arr : jobject) (start len : nat)
    (buf : list Z) : M World (list Z) :=
  fun w =>
    match deref w arr with
    | Some (JFloatArray fs) =>
        if start + len <=? length fs
        then (Ok (blit buf 0 len (drop start fs)), w)
        else (Ok buf, set_pending w (Some ArrayIndexOutOfBounds))
    | _ => (Ok buf, w)
    end.

Definition DeleteLocalRef (h : jobject) : M World unit :=
  fun w => (Ok tt, kill_ref false h (set_trace w (trace w ++ [EvDeleteLocalRef h]))).

Definition DeleteGlobalRef (h : jobject) : M World unit :=
  fun w => (Ok tt, kill_ref true h (set_trace w (trace w ++ [EvDeleteGlobalRef h]))).

Definition NewGlobalRef (h : jobject) : M World jobject :=
  fun w =>
    match resolve w h with
    | Some oid => new_ref true oid w
    | None => (Ok NULL, w)
    end.

Definition NewLocalRef (h : jobject) : M World jobject :=
  fun w =>
    match resolve w h with
    | Some oid => new_ref false oid w
    | None => (Ok NULL, w)
    end.

Definition ExceptionCheck : M World bool :=
  fun w => (Ok (match pending w with Some _ => true | None => false end), w).

Definition ExceptionOccurred : M World jobject :=
  fun w =>
    match pending w with
    | Some t => local_ref_to (JThrowable t) w
    | None => (Ok NULL, w)
    end.

Definition ExceptionDescribe : M World unit := ret tt.

Definition ExceptionClear : M World unit :=
  fun w => (Ok tt, set_pending w None).

Definition is_field (static : bool) (c name sig : string) (f : field) : bool :=
  String.eqb (f_class f) c && String.eqb (f_name f) name &&
  String.eqb (f_sig f) sig && Bool.eqb (f_static f) static.

Definition get_field_id (static : bool) (cls : jobject) (name sig : string)
  : M World jfieldID :=
  fun w =>
    match class_name w cls with
    | None => (Ok 0, w)
    | Some c =>
        match find_index (is_field static c name sig) (fields w) 0 with
        | Some i => (Ok (S i), w)
        | None => (Ok 0, set_pending w (Some (Throwable (Some name))))
        end
    end.

Definition GetFieldID := get_field_id false.
Definition GetStaticFieldID := get_field_id true.

Fixpoint written (vals : list (nat * jfieldID * slot)) (oid : nat)
    (fid : jfieldID) : option slot :=
  match vals with
  | [] => None
  | (o, f, v) :: rest =>
      if Nat.eqb o oid && Nat.eqb f fid then Some v else written rest oid fid
  end.

Definition write_field (owner : nat) (fid : jfieldID) (v : slot) : M World unit :=
  fun w => (Ok tt, set_fieldvals w ((owner, fid, v) :: fieldvals w)).

(** The current content of a field: the last value written, or else the
    initial value the program declares (an initial object is created on
    first access). The owner is an object identifier, 0 for a static
    field. *)
Definition read_field (owner : nat) (fid : jfieldID) : M World slot :=
  fun w =>
    match written (fieldvals w) owner fid with
    | Some v => (Ok v, w)
    | None =>
        match fid with
        | 0 => (Ok (SlotObj 0), w)
        | S i =>
            match f_init <$> fields w !! i with
            | Some (RetPrim z) => (Ok (SlotPrim z), w)
            | Some (RetObj o) =>
                (let! oid := alloc o in
                 write_field owner fid (SlotObj oid) ;;; ret (SlotObj oid)) w
            | Some (RetRef oid) => (Ok (SlotObj oid), w)
            | _ => (Ok (SlotObj 0), w)
            end
        end
    end.

Definition ref_of_slot (v : slot) : M World jobject :=
  match v with
  | SlotObj 0 => ret NULL
  | SlotObj oid => new_ref false oid
  | SlotPrim _ => ret NULL
  end.

Definition prim_of_slot (v : slot) : Z :=
  match v with
  | SlotPrim z => z
  | SlotObj _ => 0%Z
  end.

(** [GetObjectField]; [GetStaticObjectField] is the same with owner 0. *)
Definition GetObjectField (inst : jobject) (fid : jfieldID) : M World jobject :=
  fun w => (let! v := read_field (target w inst) fid in ref_of_slot v) w.

Definition GetStaticObjectField (cls : jobject) (fid : jfieldID)
  : M World jobject :=
  let! v := read_field 0 fid in ref_of_slot v.

(** [Get<Type>Field] and [GetStatic<Type>Field] for a primitive type. *)
Definition GetPrimitiveField (inst : jobject) (fid : jfieldID) : M World Z :=
  fun w => (let! v := read_field (target w inst) fid in ret (prim_of_slot v)) w.

Definition GetStaticPrimitiveField (cls : jobject) (fid : jfieldID) : M World Z :=
  let! v := read_field 0 fid in ret (prim_of_slot v).

Definition SetObjectField (inst : jobject) (fid : jfieldID) (v : jobject)
  : M World unit :=
  fun w => write_field (target w inst) fid (SlotObj (target w v)) w.

Definition SetBooleanField (inst : jobject) (fid : jfieldID) (b : bool)
  : M World unit :=
  fun w => write_field (target w inst) fid (SlotPrim (if b then 1 else 0)) w.

End JNI.

(* ================================================================== *)
(** ** [JNIException], [JNIMethodInfo], [Tools]                        *)
(* ================================================================== *)

(** [throw JNIException(msg)]: the constructor logs the message. *)
Definition throw_JNIException {A} (msg : string) : M World A :=
  fun w => (Throw {| message := msg |},
            set_trace w (trace w ++ [EvLog ("JNI Exception: " +:+ c_str msg)])).

(** [JNIException::what]. *)
Definition what (e : JNIException) : string := c_str (message e).

(** A [JNIEnv *] as [attachJniEnv] returns it: set by the runtime, or the
    indeterminate value of the uninitialised local variable. *)
Inductive JNIEnvPtr :=
| EnvAttached
| EnvIndeterminate.

(** Dereferencing a [JNIEnv *]. *)
Definition through (env : JNIEnvPtr) : M World unit :=
  match env with
  | EnvAttached => ret tt
  | EnvIndeterminate => abort_with UndefinedBehaviour
  end.

Record JNIMethodInfo := { classId : jobject; methodId : jmethodID; weak_ : bool }.

Module Tools.
Import JNI.

Definition init (vm : bool) : M World unit :=
  fun w => (Ok tt, set_javaVM w vm).

Definition attachJniEnv : M World JNIEnvPtr :=
  fun w =>
    if javaVM w then
      if (attach_status w <? 0)%Z
      then throw_JNIException
             "Could not attach the JNI environment to the current thread." w
      else (Ok EnvAttached, w)
    else (Ok EnvIndeterminate, w).

(** The runtime of the model keeps no record of which threads are
    attached: a detach that the runtime accepts leaves the state as it
    is. *)
Definition detachJniEnv : M World unit :=
  fun w =>
    if javaVM w then
      if (detach_status w <? 0)%Z
      then throw_JNIException
             "Could not detach the JNI environment to the current thread." w
      else (Ok tt, w)
    else (Ok tt, w).

(** [~JNIMethodInfo]. *)
Definition JNIMethodInfo_destructor (mi : JNIMethodInfo) : M World unit :=
  if weak_ mi then ret tt
  else match classId mi with
       | 0 => ret tt
       | _ => let! env := attachJniEnv in
              through env ;;; DeleteLocalRef (classId mi)
       end.

Definition toJString_chars (str : string) : M World jobject :=
  NewStringUTF str.

Definition toJString (str : string) : M World jobject :=
  toJString_chars (c_str str).

(** [checkException], [toString] and the two [getMethodInfo] overloads call
    each other; they are first written over the recursive occurrence. *)
Section Recursive.
Variable checkException : M World unit.

Definition toString_rec (str : jobject) : M World string :=
  match str with
  | 0 => ret ""
  | _ =>
      let! chars := GetStringUTFChars str in
      let! s := match chars with
                | Some c => ReleaseStringUTFChars str c ;;; ret (c_str c)
                | None => ret ""
                end in
      checkException ;;;
      ret s
  end.

Definition getStaticMethodInfo_rec (className methodName signature : string)
  : M World JNIMethodInfo :=
  let! classId := FindClass (c_str className) in
  checkException ;;;
  match classId with
  | 0 => throw_JNIException ("Could not find the given class: " +:+ className)
  | _ =>
      let! methodId := GetStaticMethodID classId (c_str methodName) signature in
      checkException ;;;
      match methodId with
      | MNull =>
          throw_JNIException
            ("Could not find the given '" +:+ methodName +:+
             "' static method in the given '" +:+ className +:+
             "' class using the '" +:+ signature +:+ "' signature.")
      | _ => ret {| classId := classId; methodId := methodId; weak_ := false |}
      end
  end.

Definition getMethodInfo_rec (className methodName signature : string)
  : M World JNIMethodInfo :=
  let! classId := FindClass (c_str className) in
  checkException ;;;
  match classId with
  | 0 => throw_JNIException ("Could not find the given class: " +:+ className)
  | _ =>
      checkException ;;;
      let! methodId := GetMethodID classId (c_str methodName) signature in
      checkException ;;;
      match methodId with
      | MNull =>
          throw_JNIException
            ("Could not find the given '" +:+ methodName +:+
             "' static method in the given classId'" +:+
             "' class using the '" +:+ signature +:+ "' signature.")
      | _ => ret {| classId := classId; methodId := methodId; weak_ := false |}
      end
  end.

Definition getMethodInfo_class_rec (classId : jobject)
    (methodName signature : string) : M World JNIMethodInfo :=
  checkException ;;;
  let! methodId := GetMethodID classId (c_str methodName) signature in
  checkException ;;;
  match methodId with
  | MNull =>
      throw_JNIException
        ("Could not find the given '" +:+ methodName +:+
         "' static method in the given classId'" +:+
         "' class using the '" +:+ signature +:+ "' signature.")
  | _ => ret {| classId := classId; methodId := methodId; weak_ := true |}
  end.

Definition checkException_step : M World unit :=
  let! raised := ExceptionCheck in
  if raised : bool then
    let! jthrowable := ExceptionOccurred in
    ExceptionDescribe ;;;
    ExceptionClear ;;;
    let! methodInfo := getMethodInfo_rec "java/lang/Throwable" "getMessage"
                                         "()Ljava/lang/String;" in
    unwind
      (let! msg := CallObjectMethod jthrowable (methodId methodInfo) [] in
       let! exceptionMessage := toString_rec msg in
       throw_JNIException exceptionMessage)
      (JNIMethodInfo_destructor methodInfo)
  else ret tt.
End Recursive.

Fixpoint checkException_fuel (n : nat) : M World unit :=
  match n with
  | 0 => abort_with OutOfFuel
  | S k => checkException_step (checkException_fuel k)
  end.

(** Two levels are enough in this runtime: once the failure state is
    cleared, the nested checks find nothing pending (see
    [checkException_fuel_enough]). *)
Definition checkException : M World unit := checkException_fuel 2.

Definition toString := toString_rec checkException.
Definition getStaticMethodInfo := getStaticMethodInfo_rec checkException.
Definition getMethodInfo := getMethodInfo_rec checkException.
Definition getMethodInfo_class := getMethodInfo_class_rec checkException.

Definition clearException : M World unit :=
  let! raised := ExceptionCheck in
  if raised : bool then
    let! jthrowable := ExceptionOccurred in
    ExceptionDescribe ;;;
    ExceptionClear ;;;
    let! methodInfo := getMethodInfo "java/lang/Throwable" "getMessage"
                                     "()Ljava/lang/String;" in
    unwind
      (let! msg := CallObjectMethod jthrowable (methodId methodInfo) [] in
       let! exceptionMessage := toString msg in
       emit (EvLog (c_str exceptionMessage)))
      (JNIMethodInfo_destructor methodInfo)
  else ret tt.

Fixpoint toJObjectArray_loop (joa : jobject) (i : nat) (data : list string)
  : M World unit :=
  match data with
  | [] => ret tt
  | s :: rest =>
      let! jstr := toJString s in
      SetObjectArrayElement joa i jstr ;;;
      toJObjectArray_loop joa (S i) rest
  end.

Definition toJObjectArray (data : list string) : M World jobject :=
  let! classId := FindClass "java/lang/String" in
  let size := length data in
  let! joa := NewObjectArray size classId NULL in
  toJObjectArray_loop joa 0 data ;;;
  DeleteLocalRef classId ;;;
  checkException ;;;
  ret joa.

Definition toJObjectArray_bytes (data : list byte) : M World jobject :=
  let! jba := NewByteArray (length data) in
  SetByteArrayRegion jba 0 (length data) data ;;;
  checkException ;;;
  ret jba.

Fixpoint toHashMap_loop (hashmap : jobject) (methodId : jmethodID)
    (data : list (string * string)) : M World unit :=
  match data with
  | [] => ret tt
  | item :: rest =>
      let! key := NewStringUTF (c_str item.1) in
      let! value := NewStringUTF (c_str item.2) in
      CallObjectMethod hashmap methodId [JRef key; JRef value] ;;;
      DeleteLocalRef key ;;;
      DeleteLocalRef value ;;;
      toHashMap_loop hashmap methodId rest
  end.

Definition toHashMap (data : list (string * string)) : M World jobject :=
  let! classId := FindClass "java/util/HashMap" in
  let! methodId := GetMethodID classId "<init>" "()V" in
  let! hashmap := NewObject classId methodId [] in
  let! methodId := GetMethodID classId "put"
      "(Ljava/lang/Object;Ljava/lang/Object;)Ljava/lang/Object;" in
  toHashMap_loop hashmap methodId data ;;;
  DeleteLocalRef classId ;;;
  checkException ;;;
  ret hashmap.

(** The loop of [toVectorString]: [n] iterations remain from index [i]. *)
Fixpoint toVectorString_loop (array : jobject) (i n : nat)
    (result : list string) : M World (list string) :=
  match n with
  | 0 => ret result
  | S n' =>
      let! valueJObject := GetObjectArrayElement array i in
      let! s := toString valueJObject in
      DeleteLocalRef valueJObject ;;;
      toVectorString_loop array (S i) n' (result ++ [s])
  end.

Definition toVectorString (array : jobject) : M World (list string) :=
  let! result :=
    match array with
    | 0 => ret []
    | _ => let! len := GetArrayLength array in
           toVectorString_loop array 0 len []
    end in
  checkException ;;;
  ret result.

Definition toVectorByte (array : jobject) : M World (list byte) :=
  match array with
  | 0 => ret []
  | _ =>
      let! size := GetArrayLength array in
      let! result := GetByteArrayRegion array 0 size (replicate size x00) in
      checkException ;;;
      ret result
  end.

Definition toVectorFloat (array : jobject) : M World (list Z) :=
  match array with
  | 0 => ret []
  | _ =>
      let! size := GetArrayLength array in
      let! result := GetFloatArrayRegion array 0 size (replicate size 0%Z) in
      checkException ;;;
      ret result
  end.

Fixpoint toVectorJObject_loop (array : jobject) (i n : nat)
    (result : list jobject) : M World (list jobject) :=
  match n with
  | 0 => ret result
  | S n' =>
      let! valueJObject := GetObjectArrayElement array i in
      toVectorJObject_loop array (S i) n' (result ++ [valueJObject])
  end.

Definition toVectorJObject (array : jobject) : M World (list jobject) :=
  match array with
  | 0 => ret []
  | _ => let! len := GetArrayLength array in
         toVectorJObject_loop array 0 len []
  end.

End Tools.

(* ================================================================== *)
(** ** [JNIObject] data and native values                              *)
(* ================================================================== *)

Record JNIObject := {
  instance : jobject;
  className_ : string;
  memberSignature_ : string;
  globalRef : bool;
  weak : bool }.

(** [new JNIObject()]: the default member initialisers. *)
Definition JNIObject_new : JNIObject :=
  {| instance := NULL; className_ := ""; memberSignature_ := "";
     globalRef := false; weak := false |}.

Definition with_instance (o : JNIObject) (h : jobject) : JNIObject :=
  {| instance := h; className_ := className_ o;
     memberSignature_ := memberSignature_ o;
     globalRef := globalRef o; weak := weak o |}.

(** Native values, one constructor per native type. Integers are [Z],
    floating point numbers are their bits, a [std::map] is the sequence of
    its entries in iteration order. *)
Inductive cvalue :=
| CVoid
| CBool (b : bool)
| CInt8 (z : Z) | CUInt8 (z : Z) | CInt16 (z : Z) | CInt32 (z : Z) | CInt64 (z : Z)
| CFloat (bits : Z) | CDouble (bits : Z)
| CString (s : string)
| CCharPtr (s : string)
| CVecString (l : list string)
| CVecByte (l : list byte)
| CVecJObject (l : list jobject)
| CMap (m : list (string * string))
| CObjectPtr (o : JNIObject).

Definition type_of (v : cvalue) : ctype :=
  match v with
  | CVoid => TVoid
  | CBool _ => TBool
  | CInt8 _ => TInt8
  | CUInt8 _ => TUInt8
  | CInt16 _ => TInt16
  | CInt32 _ => TInt32
  | CInt64 _ => TInt64
  | CFloat _ => TFloat
  | CDouble _ => TDouble
  | CString _ => TString
  | CCharPtr _ => TCharPtr
  | CVecString _ => TVecString
  | CVecByte _ => TVecByte
  | CVecJObject _ => TVecJObject
  | CMap _ => TMap
  | CObjectPtr _ => TObjectPtr
  end.

(* ================================================================== *)
(** ** Conversion templates                                            *)
(* ================================================================== *)

(** [JNIParamsCheck<T>::needDeleteLocal]. *)
Definition needDeleteLocal (v : cvalue) : bool :=
  match v with
  | CObjectPtr _ => false
  | _ => true
  end.

(** [CPPToJNIConversor<T>::convert]. There is no value of type [void], and
    the specialisation for [std::vector<jobject>] takes a byte vector, so a
    call with such an argument is not instantiable. *)
Definition CPPToJNIConversor_convert (v : cvalue) : M World jvalue :=
  match v with
  | CString s => let! h := Tools.toJString s in ret (JRef h)
  | CCharPtr s => let! h := Tools.toJString_chars s in ret (JRef h)
  | CVecString l => let! h := Tools.toJObjectArray l in ret (JRef h)
  | CVecByte l => let! h := Tools.toJObjectArray_bytes l in ret (JRef h)
  | CObjectPtr o => ret (JRef (instance o))
  | CMap m => let! h := Tools.toHashMap m in ret (JRef h)
  | CInt32 z | CInt64 z | CFloat z | CDouble z | CInt8 z | CUInt8 z | CInt16 z =>
      ret (JPrim z)
  | CBool b => ret (JPrim (if b then 1 else 0))
  | CVoid | CVecJObject _ => abort_with Uninstantiable
  end.

(** [JNIToCPPConversor<T>::convert]: the primary template declares
    [convert] without defining it; four specialisations exist. *)
Definition JNIToCPPConversor_convert (T : ctype) (obj : jobject) : M World cvalue :=
  match T with
  | TString => let! s := Tools.toString obj in ret (CString s)
  | TVecString => let! l := Tools.toVectorString obj in ret (CVecString l)
  | TVecByte => let! l := Tools.toVectorByte obj in ret (CVecByte l)
  | TVecJObject => let! l := Tools.toVectorJObject obj in ret (CVecJObject l)
  | _ => abort_with Uninstantiable
  end.

(* ================================================================== *)
(** ** [JNICaller]                                                     *)
(* ================================================================== *)

(** [JNIObject::CreateShared]. *)
Definition CreateShared (obj : jobject) : JNIObject :=
  with_instance JNIObject_new obj.

(** Which [JNICaller] specialisation a return type selects. *)
Inductive caller_kind :=
| CallerDefault | CallerObjectPtr | CallerPointer | CallerVoid | CallerPrimitive.

Definition caller_of (T : ctype) : caller_kind :=
  match T with
  | TObjectPtr => CallerObjectPtr
  | TPointer | TCharPtr => CallerPointer
  | TVoid => CallerVoid
  | TBool | TInt8 | TUInt8 | TInt16 | TInt32 | TInt64 | TFloat | TDouble =>
      CallerPrimitive
  | TString | TVecString | TVecByte | TVecJObject | TMap => CallerDefault
  end.

(** The value a primitive specialisation returns for what the runtime
    call gave: [jboolean] to [bool], [jchar] to [uint8_t], the rest as is. *)
Definition primitive_result (T : ctype) (z : Z) : cvalue :=
  match T with
  | TBool => CBool (negb (z =? 0)%Z)
  | TInt8 => CInt8 z
  | TUInt8 => CUInt8 (z mod 256)
  | TInt16 => CInt16 z
  | TInt32 => CInt32 z
  | TInt64 => CInt64 z
  | TFloat => CFloat z
  | _ => CDouble z
  end.

Module JNICaller.
Import JNI.

(** The body shared by the members of the default specialisation: convert
    the returned reference, then delete it when it is not null. *)
Definition convert_and_delete (T : ctype) (obj : jobject) : M World cvalue :=
  let! result := JNIToCPPConversor_convert T obj in
  match obj with
  | 0 => ret result
  | _ => DeleteLocalRef obj ;;; ret result
  end.

(** [callStatic] and [callInstance]: the receiver is the class or the
    instance. *)
Definition call (T : ctype) (recv : jobject) (method : jmethodID)
    (v : list jvalue) : M World cvalue :=
  match caller_of T with
  | CallerDefault =>
      let! obj := CallObjectMethod recv method v in
      convert_and_delete T obj
  | CallerObjectPtr =>
      let! obj := CallObjectMethod recv method v in
      ret (CObjectPtr (CreateShared obj))
  | CallerPointer => abort_with Uninstantiable
  | CallerVoid => CallVoidMethod recv method v ;;; ret CVoid
  | CallerPrimitive =>
      let! z := CallPrimitiveMethod recv method v in
      ret (primitive_result T z)
  end.

Definition callStatic := call.
Definition callInstance := call.

(** [callNonVirtual] exists in the [void] specialisation only. *)
Definition callNonVirtual (T : ctype) (inst cls : jobject) (method : jmethodID)
    (v : list jvalue) : M World cvalue :=
  match caller_of T with
  | CallerVoid => CallVoidMethod inst method v ;;; ret CVoid
  | _ => abort_with Uninstantiable
  end.

Definition getField (T : ctype) (inst : jobject) (fid : jfieldID)
  : M World cvalue :=
  match caller_of T with
  | CallerDefault =>
      let! obj := GetObjectField inst fid in
      convert_and_delete T obj
  | CallerObjectPtr =>
      let! obj := GetObjectField inst fid in
      ret (CObjectPtr (CreateShared obj))
  | CallerPrimitive =>
      let! z := GetPrimitiveField inst fid in
      ret (primitive_result T z)
  | CallerPointer | CallerVoid => abort_with Uninstantiable
  end.

Definition getStaticField (T : ctype) (cls : jobject) (fid : jfieldID)
  : M World cvalue :=
  match caller_of T with
  | CallerDefault =>
      let! obj := GetStaticObjectField cls fid in
      convert_and_delete T obj
  | CallerObjectPtr =>
      let! obj := GetStaticObjectField cls fid in
      ret (CObjectPtr (CreateShared obj))
  | CallerPrimitive =>
      let! z := GetStaticPrimitiveField cls fid in
      ret (primitive_result T z)
  | CallerPointer | CallerVoid => abort_with Uninstantiable
  end.

(** [setField]: the default specialisation, the one for [JNIObjectPtr] and
    the one for [bool] define it. *)
Definition setField (object : jobject) (fid : jfieldID) (value : cvalue)
  : M World unit :=
  match value with
  | CObjectPtr o => SetObjectField object fid (instance o)
  | CBool b => SetBooleanField object fid b
  | CString _ | CVecString _ | CVecByte _ | CMap _ =>
      let! java_value := CPPToJNIConversor_convert value in
      match java_value with
      | JRef h => SetObjectField object fid h
      | JPrim _ => ret tt
      end
  | _ => abort_with Uninstantiable
  end.

End JNICaller.

(* ================================================================== *)
(** ** [JNIParamDestructor] and [JNIParamConversor]                    *)
(* ================================================================== *)

Record JNIParamDestructor := { jniParams : list jobject; currentIndex : nat }.

(** The constructor: [jniParams[NUM_PARAMS] = {0}], [currentIndex(0)]. The
    specialisation for 0 has no array. *)
Definition JNIParamDestructor_new (NUM_PARAMS : nat) : JNIParamDestructor :=
  {| jniParams := replicate NUM_PARAMS NULL; currentIndex := 0 |}.

(** [add]: [jniParams[currentIndex++] = jniObject]. The specialisation for 0
    has no [add], so a call that registers with it does not compile; a
    write past the array is undefined. *)
Definition add (jniObject : jobject) : M (JNIParamDestructor * World) unit :=
  fun dw =>
    let d := dw.1 in
    if length (jniParams d) =? 0 then (Abort Uninstantiable, dw)
    else if currentIndex d <? length (jniParams d) then
      (Ok tt,
       ({| jniParams := <[currentIndex d := jniObject]> (jniParams d);
           currentIndex := S (currentIndex d) |},
        set_trace dw.2 (trace dw.2 ++ [EvRegister jniObject])))
    else (Abort UndefinedBehaviour, dw).

Fixpoint delete_params (params : list jobject) : M World unit :=
  match params with
  | [] => ret tt
  | p :: rest =>
      match p with
      | 0 => delete_params rest
      | _ => JNI.DeleteLocalRef p ;;; delete_params rest
      end
  end.

(** [~JNIParamDestructor]. *)
Definition JNIParamDestructor_destructor (d : JNIParamDestructor) : M World unit :=
  delete_params (jniParams d) ;;;
  Tools.clearException.

(** [JNIDestructorDecider<J, D>::decide]: the reference types register the
    reference, the default does nothing. *)
Definition JNIDestructorDecider_decide (jniParam : jvalue)
  : M (JNIParamDestructor * World) unit :=
  match jniParam with
  | JRef obj => add obj
  | JPrim _ => ret tt
  end.

Definition JNIParamConversor (arg : cvalue)
  : M (JNIParamDestructor * World) jvalue :=
  let! result := lift (CPPToJNIConversor_convert arg) in
  (if needDeleteLocal arg then JNIDestructorDecider_decide result else ret tt) ;;;
  ret result.

(** The pack expansion [JNIParamConversor<Args>(jniEnv, v, paramDestructor)...]
    in the argument list of the call. The language leaves the order in
    which the arguments of a call are evaluated to the compiler; here they
    are converted from the first to the last. *)
Fixpoint convert_params (v : list cvalue)
  : M (JNIParamDestructor * World) (list jvalue) :=
  match v with
  | [] => ret []
  | arg :: rest =>
      let! j := JNIParamConversor arg in
      let! js := convert_params rest in
      ret (j :: js)
  end.

(** [static constexpr uint8_t nargs = sizeof...(Args)]. *)
Definition nargs (v : list cvalue) : nat := length v mod 256.

(** The scope of a local [JNIParamDestructor<nargs> paramDestructor]: the
    body runs with the object, then the destructor runs on what the body
    left in it. *)
Definition with_paramDestructor {A} (n : nat)
    (body : M (JNIParamDestructor * World) A) : M World A :=
  fun w =>
    match body (JNIParamDestructor_new n, w) with
    | (res, (d, w')) => unwind (fun s => (res, s)) (JNIParamDestructor_destructor d) w'
    end.

(* ================================================================== *)
(** ** Public API                                                      *)
(* ================================================================== *)

Definition empty (s : string) : bool :=
  match s with
  | EmptyString => true
  | String _ _ => false
  end.

(** The scope of a local [SPJNIMethodInfo methodInfo]. *)
Definition with_methodInfo {A} (methodInfo : JNIMethodInfo) (body : M World A)
  : M World A :=
  unwind body (Tools.JNIMethodInfo_destructor methodInfo).

(** [template<typename T, typename... Args> T CallStatic(className,
    methodName, signature, v...)]. The local [sig] is computed and the
    resolver is given [signature.c_str()]. *)
Definition CallStatic (T : ctype) (className methodName signature : string)
    (v : list cvalue) : M World cvalue :=
  let! jniEnv := Tools.attachJniEnv in
  let sig := if empty signature then getJNISignature T (map type_of v)
             else c_str signature in
  through jniEnv ;;;
  let! methodInfo :=
    Tools.getStaticMethodInfo className methodName (c_str signature) in
  with_methodInfo methodInfo
    (with_paramDestructor (nargs v)
       (let! js := convert_params v in
        lift (JNICaller.callStatic T (classId methodInfo) (methodId methodInfo) js))).

(** [template<typename T, typename... Args> T Call(instance, classId,
    methodName, signature, v...)]. *)
Definition Call (T : ctype) (instance classId : jobject)
    (methodName signature : string) (v : list cvalue) : M World cvalue :=
  let! jniEnv := Tools.attachJniEnv in
  let sig := if empty signature then getJNISignature T (map type_of v)
             else c_str signature in
  through jniEnv ;;;
  let! methodInfo := Tools.getMethodInfo_class classId methodName sig in
  with_methodInfo methodInfo
    (with_paramDestructor (nargs v)
       (let! js := convert_params v in
        lift (JNICaller.callInstance T instance (methodId methodInfo) js))).

Definition callRawNonVirtual (T : ctype) (instance : jobject)
    (className methodName signature : string) (v : list cvalue)
  : M World cvalue :=
  let! jniEnv := Tools.attachJniEnv in
  through jniEnv ;;;
  let! methodInfo := Tools.getMethodInfo className methodName (c_str signature) in
  with_methodInfo methodInfo
    (with_paramDestructor (nargs v)
       (let! js := convert_params v in
        lift (JNICaller.callNonVirtual T instance (classId methodInfo)
                (methodId methodInfo) js))).

(** The signature of a field of type [T]:
    [Concatenate<JNIType, CompileTimeString<'\0'>>::Result::value()]. *)
Definition field_signature (T : ctype) (signature : string) : string :=
  if empty signature
  then read_cstr (value (Concatenate [JNIType T; [Ascii.zero]]))
  else c_str signature.

Definition Get (T : ctype) (instance : jobject) (propertyName signature : string)
  : M World cvalue :=
  let sig := field_signature T signature in
  let! jniEnv := Tools.attachJniEnv in
  through jniEnv ;;;
  let! clazz := JNI.GetObjectClass instance in
  let! fid := JNI.GetFieldID clazz (c_str propertyName) sig in
  match clazz with
  | 0 => ret tt
  | _ => JNI.DeleteLocalRef clazz
  end ;;;
  JNICaller.getField T instance fid.

Definition Set_ (instance : jobject) (propertyName signature : string)
    (value : cvalue) : M World unit :=
  let sig := field_signature (type_of value) signature in
  let! jniEnv := Tools.attachJniEnv in
  through jniEnv ;;;
  let! clazz := JNI.GetObjectClass instance in
  let! fid := JNI.GetFieldID clazz (c_str propertyName) sig in
  match clazz with
  | 0 => ret tt
  | _ => JNI.DeleteLocalRef clazz
  end ;;;
  JNICaller.setField instance fid value.

Definition GetStatic (T : ctype) (className propertyName signature : string)
  : M World cvalue :=
  let sig := field_signature T signature in
  let! jniEnv := Tools.attachJniEnv in
  through jniEnv ;;;
  let! clazz := JNI.FindClass (c_str className) in
  let! fid := JNI.GetStaticFieldID clazz (c_str propertyName) sig in
  let! r := JNICaller.getStaticField T clazz fid in
  match clazz with
  | 0 => ret tt
  | _ => JNI.DeleteLocalRef clazz
  end ;;;
  ret r.

(* ================================================================== *)
(** ** [JNIObject]                                                     *)
(* ================================================================== *)

(** [JNIObject::~JNIObject]. The [JNIException] that [attachJniEnv] throws
    on a thread the runtime refuses leaves the destructor. *)
Definition JNIObject_destructor (this : JNIObject) : M World unit :=
  noexcept
    (if weak this then ret tt
     else match instance this with
          | 0 => ret tt
          | _ =>
              let! jniEnv := Tools.attachJniEnv in
              through jniEnv ;;;
              if globalRef this then JNI.DeleteGlobalRef (instance this)
              else JNI.DeleteLocalRef (instance this)
          end).

(** [JNIObject::makeGlobalRef]; the object after the call is returned. *)
Definition makeGlobalRef (this : JNIObject) : M World JNIObject :=
  if globalRef this then ret this
  else
    let! jniEnv := Tools.attachJniEnv in
    through jniEnv ;;;
    let! g := JNI.NewGlobalRef (instance this) in
    ret {| instance := g; className_ := className_ this;
           memberSignature_ := memberSignature_ this;
           globalRef := true; weak := weak this |}.

Definition CreateGlobal (obj : jobject) : M World JNIObject :=
  let result := JNIObject_new in
  let! jniEnv := Tools.attachJniEnv in
  through jniEnv ;;;
  let! g := JNI.NewGlobalRef obj in
  let result := with_instance result g in
  makeGlobalRef result.

Definition CreateWeak (obj : jobject) : JNIObject :=
  {| instance := obj; className_ := ""; memberSignature_ := "";
     globalRef := false; weak := true |}.

Definition CreateLocal (obj : jobject) : M World JNIObject :=
  let! jniEnv := Tools.attachJniEnv in
  through jniEnv ;;;
  let result := JNIObject_new in
  let! l := JNI.NewLocalRef obj in
  ret (with_instance result l).

Definition SetClassName (this : JNIObject) (className : string) : JNIObject :=
  {| instance := instance this; className_ := className;
     memberSignature_ := memberSignature_ this;
     globalRef := globalRef this; weak := weak this |}.

Definition SetMemberSignature (this : JNIObject) (callSignature : string)
  : JNIObject :=
  {| instance := instance this; className_ := className_ this;
     memberSignature_ := callSignature;
     globalRef := globalRef this; weak := weak this |}.

(** [~NameAndSignatureClear]: both override fields are cleared. *)
Definition NameAndSignatureClear_destructor : M (JNIObject * World) unit :=
  fun s =>
    (Ok tt,
     ({| instance := instance s.1; className_ := ""; memberSignature_ := "";
         globalRef := globalRef s.1; weak := weak s.1 |}, s.2)).

(** The scope of a local [NameAndSignatureClear clear(this)]. *)
Definition with_clear {A} (body : M (JNIObject * World) A)
  : M (JNIObject * World) A :=
  unwind body NameAndSignatureClear_destructor.

(** Reading a member of [this]. *)
Definition this_ {A} (f : JNIObject -> A) : M (JNIObject * World) A :=
  fun s => (Ok (f s.1), s).

(** [JNIObject::Call]: the environment is acquired, then the clearing
    guard is constructed. *)
Definition JNIObject_Call (T : ctype) (methodName : string) (v : list cvalue)
  : M (JNIObject * World) cvalue :=
  let! jniEnv := lift Tools.attachJniEnv in
  with_clear
    (let! inst := this_ instance in
     let! cn := this_ className_ in
     let! ms := this_ memberSignature_ in
     lift (through jniEnv) ;;;
     let! classId :=
       lift (if empty cn then JNI.GetObjectClass inst
             else JNI.FindClass (c_str cn)) in
     lift (Call T inst classId methodName ms v)).

(** [JNIObject::Get]. *)
Definition JNIObject_Get (T : ctype) (propertyName : string)
  : M (JNIObject * World) cvalue :=
  with_clear
    (let! inst := this_ instance in
     let! ms := this_ memberSignature_ in
     lift (Get T inst propertyName ms)).

(** [JNIObject::Set]. *)
Definition JNIObject_Set (propertyName : string) (value : cvalue)
  : M (JNIObject * World) unit :=
  with_clear
    (let! inst := this_ instance in
     let! ms := this_ memberSignature_ in
     lift (Set_ inst propertyName ms value)).

(* ================================================================== *)
(** * Vocabulary of the properties                                     *)
(* ================================================================== *)

(** The descriptors of a parameter list, one after the other. *)
Definition descriptors (Args : list ctype) : string :=
  foldr (fun t acc => descriptor t +:+ acc) "" Args.

(** The runtime reference is set and the runtime accepts the thread. *)
Definition healthy (w : World) : Prop :=
  javaVM w = true /\ (0 <= attach_status w)%Z.

Fixpoint count_events (p : event -> bool) (evs : list event) : nat :=
  match evs with
  | [] => 0
  | e :: rest => (if p e then 1 else 0) + count_events p rest
  end.

Definition is_NewGlobalRef (e : event) : bool :=
  match e with EvNewGlobalRef _ => true | _ => false end.

Definition is_DeleteGlobalRef (e : event) : bool :=
  match e with EvDeleteGlobalRef _ => true | _ => false end.

(** ** A small loaded program and a thread attached to it *)

Module Sample.

Definition Foo : string := "com/example/Foo".

Definition program : list method :=
  [ {| m_class := Foo; m_name := "reset"; m_sig := "()V"; m_static := true;
       m_body := fun _ => Returns RetVoid |};
    {| m_class := Foo; m_name := "store"; m_sig := "(Ljava/lang/String;[B)V";
       m_static := false; m_body := fun _ => Returns RetVoid |};
    {| m_class := Foo; m_name := "names"; m_sig := "()[Ljava/lang/String;";
       m_static := false; m_body := fun _ => Raises (Throwable (Some "boom")) |};
    {| m_class := Foo; m_name := "ping"; m_sig := "()V"; m_static := false;
       m_body := fun _ => Returns RetVoid |};
    {| m_class := Foo; m_name := "log"; m_sig := "(Ljava/lang/String;[B)V";
       m_static := true; m_body := fun _ => Returns RetVoid |} ].

(** One instance of [Foo] on the heap, held by the local reference 1. *)
Definition world : World :=
  {| javaVM := true; attach_status := 0; detach_status := 0;
     classes := [Foo]; methods := program; fields := [];
     objs := [JInstance Foo];
     refs := [ {| r_obj := 1; r_global := false; r_live := true |} ];
     fieldvals := []; pending := None; alloc_faults := []; trace := [] |}.

(** The same with [Tools::init] never called. *)
Definition world_uninitialised : World := set_javaVM world false.

(** The same on a runtime that refuses to attach the thread. *)
Definition world_refusing : World :=
  {| javaVM := true; attach_status := -1; detach_status := 0;
     classes := [Foo]; methods := program; fields := [];
     objs := [JInstance Foo];
     refs := [ {| r_obj := 1; r_global := false; r_live := true |} ];
     fieldvals := []; pending := None; alloc_faults := []; trace := [] |}.

(** The same with a failure pending. *)
Definition world_raised : World :=
  set_pending world (Some (Throwable (Some "boom"))).

(** The same with a pending failure whose message getter raises. *)
Definition world_raised_twice : World :=
  set_pending world (Some (ThrowingThrowable (Throwable (Some "inner")))).

(** A proxy for the instance, with both overrides set. *)
Definition proxy : JNIObject :=
  SetMemberSignature (SetClassName (CreateShared 1) Foo) "(I)V".

End Sample.

(** What a steady step of the runtime keeps: the thread's attachment, the
    objects behind the references and on the heap, the failure state and
    the allocation faults still to come. *)
Record stable (w w' : World) : Prop := {
  st_vm : javaVM w' = javaVM w;
  st_status : attach_status w' = attach_status w;
  st_pending : pending w' = pending w;
  st_faults : alloc_faults w' = alloc_faults w;
  st_refs : forall h oid, resolve w h = Some oid -> resolve w' h = Some oid;
  st_heap : forall oid o, heap_at w oid = Some o -> heap_at w' oid = Some o }.

(** The text a failure object gives as its message, and the failure that
    asking for it leaves pending. *)
Definition message_text (t : throwable) : string :=
  match t with
  | Throwable (Some s) => s
  | _ => ""
  end.

Definition raised_by_getMessage (t : throwable) : option throwable :=
  match t with
  | ThrowingThrowable c => Some c
  | Throwable _ => None
  end.

(** A nested check that finds nothing pending does nothing. *)
Definition quiet_when_clear (check : M World unit) : Prop :=
  forall w, pending w = None -> check w = (Ok tt, w).


(** *** Handle accounting *)

(** The references deleted, and the references registered with a
    [JNIParamDestructor], in a run of events. *)
Fixpoint dels (evs : list event) : list jobject :=
  match evs with
  | [] => []
  | EvDeleteLocalRef h :: rest => h :: dels rest
  | _ :: rest => dels rest
  end.

Fixpoint regs (evs : list event) : list jobject :=
  match evs with
  | [] => []
  | EvRegister h :: rest => h :: regs rest
  | _ :: rest => regs rest
  end.

(** How often a reference was deleted in a run of events. *)
Definition times_deleted (h : jobject) (evs : list event) : nat :=
  count_occ Nat.eq_dec (dels evs) h.

Definition kill (r : ref) : ref :=
  {| r_obj := r_obj r; r_global := r_global r; r_live := false |}.

(** [h] names a local reference that was not deleted. *)
Definition local_live (w : World) (h : jobject) : bool :=
  match h with
  | 0 => false
  | S i =>
      match refs w !! i with
      | Some r => r_live r && negb (r_global r)
      | None => false
      end
  end.

(** From [w] to [w'] the code only touched references made after the first
    [n]: the table grew, an entry changed only by being deleted and only
    beyond [n], and every deleted reference is null or was made after the
    first [n] and is no longer a live local reference. [rs] are the
    references registered on the way. *)
Record frame (n : nat) (rs : list jobject) (w w' : World) : Prop := {
  fr_vm : javaVM w' = javaVM w;
  fr_status : attach_status w' = attach_status w;
  fr_len : length (refs w) <= length (refs w');
  fr_refs : forall i r, refs w !! i = Some r ->
            refs w' !! i = Some r \/ (n <= i /\ refs w' !! i = Some (kill r));
  fr_trace : exists evs, trace w' = trace w ++ evs /\ regs evs = rs /\
             forall h, In h (dels evs) ->
               h = NULL \/ (n < h <= length (refs w') /\ local_live w' h = false) }.

(** A reference returned by a step that started with [n] references: null,
    or a new local reference that is live. *)
Definition fresh_handle (n : nat) (w' : World) (h : jobject) : Prop :=
  h = NULL \/ (n < h <= length (refs w') /\ local_live w' h = true).

(** A step that deletes and registers nothing. *)
Record quiet_step (w w' : World) : Prop := {
  qs_vm : javaVM w' = javaVM w;
  qs_status : attach_status w' = attach_status w;
  qs_refs : exists l, refs w' = refs w ++ l;
  qs_trace : exists evs, trace w' = trace w ++ evs /\ dels evs = [] /\ regs evs = [] }.

(** Running [m] from [w], where the enclosing function started with [n]
    references: the step is framed, it comes back when the thread is
    attached (and [ok], for the instantiations that compile), and a
    returned value satisfies [Q]. *)
Definition runs {A} (n : nat) (ok : Prop) (w : World) (m : M World A)
    (Q : A -> World -> Prop) : Prop :=
  frame n [] w (m w).2 /\
  (ok -> healthy w -> came_back (m w).1 = true) /\
  (forall a, (m w).1 = Ok a -> Q a (m w).2).

(** [m] is framed from every state, relative to that state. *)
Definition framed {A} (ok : Prop) (m : M World A)
    (P : World -> A -> World -> Prop) : Prop :=
  forall w, runs (length (refs w)) ok w m (P w).

(** The returned reference is fresh. *)
Definition fresh_ret (w : World) (h : jobject) (w' : World) : Prop :=
  fresh_handle (length (refs w)) w' h.

Definition any_ret {A} (w : World) (a : A) (w' : World) : Prop := True.

(** The resolved target owns a class reference made since the function
    started with [n] references. *)
Definition owns_fresh_class (n : nat) (mi : JNIMethodInfo) (w' : World) : Prop :=
  weak_ mi = false /\ fresh_handle n w' (classId mi).

(** The argument types whose conversion compiles. *)
Definition convertible (v : cvalue) : Prop :=
  match v with
  | CVoid | CVecJObject _ => False
  | _ => True
  end.

(** What [JNIParamConversor] may register: a converted reference that needs
    deletion is fresh. *)
Definition registrable (arg : cvalue) (w : World) (j : jvalue) (w' : World)
  : Prop :=
  forall h, j = JRef h -> needDeleteLocal arg = true ->
            fresh_handle (length (refs w)) w' h.

(** The return types for which [JNICaller<T>::callStatic] and
    [callInstance] compile. *)
Definition callable (T : ctype) : Prop :=
  match T with
  | TPointer | TCharPtr | TMap => False
  | _ => True
  end.

(** The entries of a [JNIParamDestructor] that its destructor deletes. *)
Fixpoint nonnull (hs : list jobject) : list jobject :=
  match hs with
  | [] => []
  | 0 :: rest => nonnull rest
  | h :: rest => h :: nonnull rest
  end.

(** The state of a [JNIParamDestructor] in which [rs] were registered. *)
Definition holds (d : JNIParamDestructor) (rs : list jobject) : Prop :=
  currentIndex d = length rs /\
  exists k, jniParams d = rs ++ replicate k NULL.

(** Room for [k] more registrations. *)
Definition room (d : JNIParamDestructor) (k : nat) : Prop :=
  currentIndex d + k <= length (jniParams d).

(** Every reference registered in a run of events is deleted exactly once
    in it. *)
Definition released_once (evs : list event) : Prop :=
  forall h, In h (regs evs) -> h <> NULL -> times_deleted h evs = 1.

(** The body of a call between the construction of the parameter set and
    its destruction. *)
Definition marshal_and_invoke (v : list cvalue)
    (invoke : list jvalue -> M World cvalue)
  : M (JNIParamDestructor * World) cvalue :=
  let! js := convert_params v in lift (invoke js).

(** The parameter set does its part in a call [m] started in [w]: when the
    call comes back, by return or by exception, every reference registered
    during it was deleted exactly once during it; and the call does come
    back when the thread is attached and the instantiation compiles
    ([ok]). *)
Definition marshals_safely (ok : Prop) (m : M World cvalue) (w : World) : Prop :=
  (came_back (m w).1 = true ->
   exists evs, trace (m w).2 = trace w ++ evs /\ released_once evs) /\
  (ok -> healthy w -> came_back (m w).1 = true).

(** The shape shared by [CallStatic], [Call] and [callRawNonVirtual]. *)
Definition resolved_call (resolve : M World JNIMethodInfo)
    (invoke : JNIMethodInfo -> list jvalue -> M World cvalue)
    (v : list cvalue) : M World cvalue :=
  let! jniEnv := Tools.attachJniEnv in
  through jniEnv ;;;
  let! methodInfo := resolve in
  with_methodInfo methodInfo
    (with_paramDestructor (nargs v) (marshal_and_invoke v (invoke methodInfo))).

(** The resolved target does not own its class reference, or owns one made
    during the resolution. *)
Definition resolved (w : World) (mi : JNIMethodInfo) (w' : World) : Prop :=
  weak_ mi = true \/ owns_fresh_class (length (refs w)) mi w'.

(** Both override fields of a proxy are empty. *)
Definition overrides_cleared (this : JNIObject) : Prop :=
  className_ this = "" /\ memberSignature_ this = "".


(** No method of the loaded program has the empty string as its
    descriptor (a method descriptor starts with an opening parenthesis). *)
Definition descriptors_nonempty (w : World) : Prop :=
  forall m, In m (methods w) -> m_sig m <> "".


(** A string without a NUL character. *)
Fixpoint nul_free (s : string) : bool :=
  match s with
  | EmptyString => true
  | String c rest => negb (Ascii.eqb c Ascii.zero) && nul_free rest
  end.

(** A native value converted for the runtime and converted back with the
    inbound conversion of its own type. *)
Definition decode_encode (x : cvalue) : M World cvalue :=
  let! j := CPPToJNIConversor_convert x in
  match j with
  | JRef h => JNIToCPPConversor_convert (type_of x) h
  | JPrim _ => abort_with Uninstantiable
  end.

(** What comes back when it goes well: strings up to their first NUL. *)
Definition as_read_back (x : cvalue) : cvalue :=
  match x with
  | CString s => CString (c_str s)
  | CVecString l => CVecString (map c_str l)
  | _ => x
  end.

(** The types with a conversion in both directions. *)
Definition both_ways (x : cvalue) : bool :=
  match x with
  | CString _ | CVecString _ | CVecByte _ => true
  | _ => false
  end.

(** The values of those types that hold no NUL character. *)
Definition round_trips (x : cvalue) : bool :=
  match x with
  | CString s => nul_free s
  | CVecString l => forallb nul_free l
  | CVecByte _ => true
  | _ => false
  end.

(** The array behind [h] holds the strings [ss], in order. *)
Definition holds_strings (w : World) (h : jobject) (ss : list string) : Prop :=
  exists j es,
    resolve w h = Some (S j) /\ objs w !! j = Some (JObjectArray es) /\
    length es = length ss /\
    forall k s, ss !! k = Some s ->
      exists o, es !! k = Some (S o) /\ objs w !! o = Some (JString s).


(** The local references made in a run of events. *)
Fixpoint news (evs : list event) : list jobject :=
  match evs with
  | [] => []
  | EvNewLocalRef h :: rest => h :: news rest
  | _ :: rest => news rest
  end.

(** The reference [h] denotes the object [oid]; the null reference
    denotes no object. *)
Definition denotes (w : World) (h : jobject) (oid : nat) : Prop :=
  (h = NULL /\ oid = 0) \/ resolve w h = Some oid.


(** The map entry [e] (a key and a value, by object identifier) holds the
    strings of [kv], each up to its first NUL. *)
Definition entry_of (w : World) (e : nat * nat) (kv : string * string) : Prop :=
  exists ok ov,
    e = (S ok, S ov) /\
    objs w !! ok = Some (JString (c_str kv.1)) /\
    objs w !! ov = Some (JString (c_str kv.2)).

(** The map behind [h] holds the entries of [data] and no other, in the
    order in which they were put. *)
Definition holds_entries (w : World) (h : jobject)
    (data : list (string * string)) : Prop :=
  exists j es,
    resolve w h = Some (S j) /\ objs w !! j = Some (JHashMap es) /\
    Forall2 (entry_of w) es data.


(** The sample program with three fields declared in [Foo]: a [boolean]
    that starts false, a string that starts null, and a static [int] that
    is 42. *)
Definition world_with_fields : World :=
  {| javaVM := true; attach_status := 0; detach_status := 0;
     classes := [Sample.Foo]; methods := Sample.program;
     fields := [ {| f_class := Sample.Foo; f_name := "ready"; f_sig := "Z";
                    f_static := false; f_init := RetPrim 0 |};
                 {| f_class := Sample.Foo; f_name := "title";
                    f_sig := "Ljava/lang/String;"; f_static := false;
                    f_init := RetNull |};
                 {| f_class := Sample.Foo; f_name := "LIMIT"; f_sig := "I";
                    f_static := true; f_init := RetPrim 42 |} ];
     objs := [JInstance Sample.Foo];
     refs := [ {| r_obj := 1; r_global := false; r_live := true |} ];
     fieldvals := []; pending := None; alloc_faults := []; trace := [] |}.


(** The arguments whose conversion makes no reference: primitives and
    proxies. *)
Definition simple (v : cvalue) : bool :=
  match v with
  | CBool _ | CInt8 _ | CUInt8 _ | CInt16 _ | CInt32 _ | CInt64 _
  | CFloat _ | CDouble _ | CObjectPtr _ => true
  | _ => false
  end.

(** What the runtime receives for a simple argument. *)
Definition jvalue_of (v : cvalue) : jvalue :=
  match v with
  | CBool b => JPrim (if b then 1 else 0)
  | CInt8 z | CUInt8 z | CInt16 z | CInt32 z | CInt64 z
  | CFloat z | CDouble z => JPrim z
  | CObjectPtr o => JRef (instance o)
  | _ => JPrim 0
  end.

(** A program whose class has an instance method that adds two [int]s and
    one that raises, with one instance held by the local reference 1 and
    its class by the local reference 2. *)
Definition adder : list method :=
  [ {| m_class := Sample.Foo; m_name := "add"; m_sig := "(II)I";
       m_static := false;
       m_body := fun args =>
         match args with
         | [JPrim a; JPrim b] => Returns (RetPrim (a + b))
         | _ => Returns (RetPrim 0)
         end |};
    {| m_class := Sample.Foo; m_name := "fail"; m_sig := "()V";
       m_static := false;
       m_body := fun _ => Raises (Throwable (Some "boom")) |} ].

Definition world_with_adder : World :=
  {| javaVM := true; attach_status := 0; detach_status := 0;
     classes := [Sample.Foo]; methods := adder; fields := [];
     objs := [JInstance Sample.Foo; JClass Sample.Foo];
     refs := [ {| r_obj := 1; r_global := false; r_live := true |};
               {| r_obj := 2; r_global := false; r_live := true |} ];
     fieldvals := []; pending := None; alloc_faults := []; trace := [] |}.


(** What a call returns for each return type when its target raised and
    the conversion of the result does not check for a failure: nothing for
    [void], zero for a primitive, the empty value or a proxy for null for
    the rest. The string vector is not among them, its conversion checks. *)
Definition drained_result (T : ctype) : option cvalue :=
  match T with
  | TVoid => Some CVoid
  | TBool | TInt8 | TUInt8 | TInt16 | TInt32 | TInt64 | TFloat | TDouble =>
      Some (primitive_result T 0)
  | TString => Some (CString "")
  | TVecByte => Some (CVecByte [])
  | TVecJObject => Some (CVecJObject [])
  | TObjectPtr => Some (CObjectPtr (CreateShared NULL))
  | TVecString | TCharPtr | TMap | TPointer => None
  end.



(** A program whose class has an instance method that takes a string
    array and one that raises a failure whose message getter raises in
    turn, with one instance held by the local reference 1 and its class by
    the local reference 2. *)
Definition lister : list method :=
  [ {| m_class := Sample.Foo; m_name := "setNames";
       m_sig := "([Ljava/lang/String;)V"; m_static := false;
       m_body := fun _ => Returns RetVoid |};
    {| m_class := Sample.Foo; m_name := "failTwice"; m_sig := "()V";
       m_static := false;
       m_body := fun _ =>
         Raises (ThrowingThrowable (Throwable (Some "inner"))) |} ].

Definition world_with_lister : World :=
  {| javaVM := true; attach_status := 0; detach_status := 0;
     classes := [Sample.Foo]; methods := lister; fields := [];
     objs := [JInstance Sample.Foo; JClass Sample.Foo];
     refs := [ {| r_obj := 1; r_global := false; r_live := true |};
               {| r_obj := 2; r_global := false; r_live := true |} ];
     fieldvals := []; pending := None; alloc_faults := []; trace := [] |}.


(* end of the vocabulary *)

(* ================================================================== *)
(** * Properties                                                       *)
(* ================================================================== *)

(** ** The signature deriver *)

Section Signature.

Lemma Concatenate_concat (cs : list CompileTimeString) :
  Concatenate cs = concat cs.
Proof.
  induction cs as [|c1 rest IH]; [reflexivity|].
  destruct rest as [|c2 [|c3 rest]].
  - simpl. by rewrite app_nil_r.
  - simpl. unfold Concatenate2. by rewrite app_nil_r.
  - change (Concatenate (c1 :: c2 :: c3 :: rest))
      with (Concatenate2 c1 (Concatenate (c2 :: c3 :: rest))).
    by rewrite IH.
Qed.

(** A character pack that holds no NUL reads back whole when a NUL
    follows it. *)
Lemma read_cstr_terminated (a rest : list ascii) :
  Forall (fun c => Ascii.eqb c Ascii.zero = false) a ->
  read_cstr (a ++ Ascii.zero :: rest) = string_of_list_ascii a.
Proof.
  induction 1 as [|c a Hc _ IH]; simpl.
  - reflexivity.
  - by rewrite Hc, IH.
Qed.

Lemma JNIType_no_nul (t : ctype) :
  Forall (fun c => Ascii.eqb c Ascii.zero = false) (JNIType t).
Proof. destruct t; repeat constructor. Qed.

Lemma string_of_list_ascii_app (a b : list ascii) :
  string_of_list_ascii (a ++ b) =
  string_of_list_ascii a +:+ string_of_list_ascii b.
Proof. induction a as [|c a IH]; simpl; [done | by rewrite IH]. Qed.


Lemma descriptors_concat (Args : list ctype) :
  string_of_list_ascii (concat (map JNIType Args)) = descriptors Args.
Proof.
  induction Args as [|t Args IH]; simpl; [done|].
  by rewrite string_of_list_ascii_app, IH.
Qed.

Lemma getJNISignature_eq (T : ctype) (Args : list ctype) :
  getJNISignature T Args = "(" +:+ descriptors Args +:+ ")" +:+ descriptor T.
Proof.
  unfold getJNISignature, getJNISignature_array, value.
  rewrite Concatenate_concat, !concat_app.
  replace (concat [list_ascii_of_string "("] ++ concat (map JNIType Args) ++
           concat [list_ascii_of_string ")"; JNIType T; [Ascii.zero]])
    with ((list_ascii_of_string "(" ++ concat (map JNIType Args) ++
           list_ascii_of_string ")" ++ JNIType T) ++ Ascii.zero :: []).
  2:{ rewrite <- !app_assoc. simpl. rewrite ?app_nil_r. reflexivity. }
  rewrite read_cstr_terminated.
  - rewrite !string_of_list_ascii_app, descriptors_concat. reflexivity.
  - repeat apply Forall_app_2; try apply JNIType_no_nul;
      try (repeat constructor).
    apply Forall_concat, Forall_forall. intros x Hx.
    apply list_elem_of_fmap in Hx as (t & -> & _). apply JNIType_no_nul.
Qed.

End Signature.

(** C4. For a return type [T] and parameter types [Args], the derived
    signature is exactly "(" followed by the descriptor of each parameter in
    order, then ")" and the descriptor of the return type; and two
    derivations for equal (parameter types, return type) give the same
    string. *)
Theorem getJNISignature_exact :
  forall (T : ctype) (Args : list ctype),
    getJNISignature T Args = "(" +:+ descriptors Args +:+ ")" +:+ descriptor T /\
    forall (T' : ctype) (Args' : list ctype),
      T' = T -> Args' = Args -> getJNISignature T' Args' = getJNISignature T Args.
Proof.
  intros T Args. split.
  - apply getJNISignature_eq.
  - intros T' Args' -> ->. reflexivity.
Qed.

Lemma getJNISignature_exact_witness :
  getJNISignature TInt32 [TString; TVecByte; TMap] =
    "(Ljava/lang/String;[BLjava/util/HashMap;)I" /\
  getJNISignature TInt32 [TString; TVecByte; TMap] =
    getJNISignature TInt32 [TString; TVecByte; TMap].
Proof.
  split.
  - exact (proj1 (getJNISignature_exact TInt32 [TString; TVecByte; TMap])).
  - exact (proj2 (getJNISignature_exact TInt32 [TString; TVecByte; TMap])
             TInt32 [TString; TVecByte; TMap] eq_refl eq_refl).
Defined.


(** ** Basic facts about the runtime model *)


Lemma attachJniEnv_healthy (w : World) :
  healthy w -> Tools.attachJniEnv w = (Ok EnvAttached, w).
Proof.
  intros [Hvm Hst]. unfold Tools.attachJniEnv. rewrite Hvm.
  destruct (Z.ltb_spec (attach_status w) 0); [lia | reflexivity].
Qed.

Lemma attachJniEnv_refused (w : World) :
  javaVM w = true -> (attach_status w < 0)%Z ->
  (Tools.attachJniEnv w).1 =
    Throw {| message := "Could not attach the JNI environment to the current thread." |}.
Proof.
  intros Hvm Hst. unfold Tools.attachJniEnv. rewrite Hvm.
  destruct (Z.ltb_spec (attach_status w) 0); [reflexivity | lia].
Qed.

Lemma checkException_fuel_none (n : nat) (w : World) :
  pending w = None -> Tools.checkException_fuel (S n) w = (Ok tt, w).
Proof.
  intros H. simpl. unfold Tools.checkException_step, bind, JNI.ExceptionCheck.
  by rewrite H.
Qed.

Lemma checkException_none (w : World) :
  pending w = None -> Tools.checkException w = (Ok tt, w).
Proof. apply checkException_fuel_none. Qed.

Lemma resolve_new_ref (g : bool) (oid : nat) (w : World) :
  resolve (new_ref g oid w).2 (S (length (refs w))) = Some oid.
Proof.
  unfold resolve, new_ref. simpl.
  by rewrite list_lookup_middle.
Qed.

(** ** Null handles on the way in *)

(** C7 (as amended). A null handle converts to the empty string, the empty
    byte vector and the empty float vector whatever the state of the
    runtime, and to the empty string vector when no failure is pending. *)
Theorem null_handle_gives_default :
  forall w : World,
    Tools.toString NULL w = (Ok "", w) /\
    Tools.toVectorByte NULL w = (Ok [], w) /\
    Tools.toVectorFloat NULL w = (Ok [], w) /\
    (pending w = None -> Tools.toVectorString NULL w = (Ok [], w)).
Proof.
  intros w. split; [reflexivity|]. split; [reflexivity|]. split; [reflexivity|].
  intros H. unfold Tools.toVectorString, bind, ret. simpl.
  by rewrite checkException_none.
Qed.

Lemma null_handle_gives_default_witness :
  Tools.toString NULL Sample.world = (Ok "", Sample.world) /\
  Tools.toVectorByte NULL Sample.world = (Ok [], Sample.world) /\
  Tools.toVectorFloat NULL Sample.world = (Ok [], Sample.world) /\
  Tools.toVectorString NULL Sample.world = (Ok [], Sample.world).
Proof.
  destruct (null_handle_gives_default Sample.world) as (H1 & H2 & H3 & H4).
  split; [exact H1 | split; [exact H2 | split; [exact H3 | exact (H4 eq_refl)]]].
Defined.

(** C7, the claim as stated fails: with a failure pending, the conversion of
    a null handle to a string vector throws. *)
Lemma null_string_vector_throws_when_pending :
  (Tools.toVectorString NULL Sample.world_raised).1 = Throw {| message := "boom" |}.
Proof. vm_compute. reflexivity. Qed.

(** ** Acquiring the execution context *)

(** C8. With the runtime reference unset, [attachJniEnv] reports no error: it
    returns the indeterminate pointer and leaves the state as it was. *)
Theorem attachJniEnv_unset_returns_indeterminate :
  forall w : World,
    javaVM w = false -> Tools.attachJniEnv w = (Ok EnvIndeterminate, w).
Proof. intros w H. unfold Tools.attachJniEnv. by rewrite H. Qed.

Lemma attachJniEnv_unset_returns_indeterminate_witness :
  Tools.attachJniEnv Sample.world_uninitialised =
    (Ok EnvIndeterminate, Sample.world_uninitialised).
Proof.
  exact (attachJniEnv_unset_returns_indeterminate Sample.world_uninitialised eq_refl).
Defined.

(** ** Wrapping a handle with global strength *)


Lemma healthy_new_ref (g : bool) (oid : nat) (w : World) :
  healthy w -> healthy (new_ref g oid w).2.
Proof. intros H. exact H. Qed.

(** *** Stepping through a computation *)

Lemma bind_unfold {S A B} (m : M S A) (k : A -> M S B) (s : S) :
  bind m k s =
  match m s with
  | (Ok a, s') => k a s'
  | (Throw e, s') => (Throw e, s')
  | (Abort r, s') => (Abort r, s')
  end.
Proof. unfold bind. destruct (m s) as [[a|e|r] s']; reflexivity. Qed.

Lemma bind_ok {S A B} (m : M S A) (k : A -> M S B) (s s' : S) (a : A) :
  m s = (Ok a, s') -> bind m k s = k a s'.
Proof. intros H. by rewrite bind_unfold, H. Qed.

Lemma bind_throw {S A B} (m : M S A) (k : A -> M S B) (s s' : S) e :
  m s = (Throw e, s') -> bind m k s = (Throw e, s').
Proof. intros H. by rewrite bind_unfold, H. Qed.

Lemma bind_ret {S A B} (a : A) (k : A -> M S B) (s : S) :
  bind (ret a) k s = k a s.
Proof. reflexivity. Qed.

Lemma through_attached : through EnvAttached = ret tt.
Proof. reflexivity. Qed.

Lemma NewGlobalRef_valid (w : World) (h : jobject) (oid : nat) :
  resolve w h = Some oid -> JNI.NewGlobalRef h w = new_ref true oid w.
Proof. intros H. unfold JNI.NewGlobalRef. by rewrite H. Qed.

Ltac healthy_tac :=
  first [ assumption | unfold healthy in *; simpl; assumption ].

Ltac attach :=
  erewrite (bind_ok Tools.attachJniEnv)
    by (apply attachJniEnv_healthy; healthy_tac);
  rewrite through_attached, bind_ret.

(** C10, what the code does: wrapping a valid handle with [CreateGlobal]
    creates two global references, and destroying the proxy releases one of
    them, so one global reference is left behind for every wrap. *)
Theorem CreateGlobal_creates_two_releases_one :
  forall (w : World) (obj : jobject),
    healthy w -> is_Some (resolve w obj) ->
    exists (o : JNIObject) (w1 w2 : World) (evs : list event),
      CreateGlobal obj w = (Ok o, w1) /\
      JNIObject_destructor o w1 = (Ok tt, w2) /\
      trace w2 = trace w ++ evs /\
      count_events is_NewGlobalRef evs = 2 /\
      count_events is_DeleteGlobalRef evs = 1.
Proof.
  intros w obj Hh [oid Hobj].
  unfold CreateGlobal. attach.
  rewrite (bind_ok _ _ _ _ _ (NewGlobalRef_valid w obj oid Hobj)).
  unfold makeGlobalRef. cbn [globalRef with_instance JNIObject_new instance].
  attach.
  erewrite (bind_ok (JNI.NewGlobalRef _))
    by (apply NewGlobalRef_valid, (resolve_new_ref true oid w)).
  eexists _, _, _, _. split; [reflexivity|].
  unfold JNIObject_destructor, noexcept. cbn [weak instance globalRef with_instance JNIObject_new].
  attach.
  split; [reflexivity|].
  unfold JNI.DeleteGlobalRef. cbn [snd].
  split.
  - instantiate (1 := [_; _; _]). simpl.
    destruct (_ !! _) as [r|]; [destruct (Bool.eqb _ _)|]; simpl;
      rewrite <- !app_assoc; reflexivity.
  - split; reflexivity.
Qed.

Lemma CreateGlobal_creates_two_releases_one_witness :
  exists (o : JNIObject) (w1 w2 : World) (evs : list event),
    CreateGlobal 1 Sample.world = (Ok o, w1) /\
    JNIObject_destructor o w1 = (Ok tt, w2) /\
    trace w2 = trace Sample.world ++ evs /\
    count_events is_NewGlobalRef evs = 2 /\
    count_events is_DeleteGlobalRef evs = 1.
Proof.
  apply (CreateGlobal_creates_two_releases_one Sample.world 1).
  - split; [reflexivity | simpl; lia].
  - exists 1. reflexivity.
Defined.

(** ** Steady steps *)

Lemma stable_refl (w : World) : stable w w.
Proof. by constructor. Qed.

Lemma stable_trans (w1 w2 w3 : World) :
  stable w1 w2 -> stable w2 w3 -> stable w1 w3.
Proof.
  intros [] []. constructor; try congruence; eauto.
Qed.

Lemma stable_healthy (w w' : World) : stable w w' -> healthy w -> healthy w'.
Proof. intros [] [? ?]. unfold healthy. split; congruence. Qed.

Lemma stable_deref (w w' : World) (h : jobject) (o : jobj) :
  stable w w' -> deref w h = Some o -> deref w' h = Some o.
Proof.
  intros Hs. unfold deref. destruct (resolve w h) as [oid|] eqn:E; [|done].
  intros Ho. rewrite (st_refs _ _ Hs _ _ E). by apply (st_heap _ _ Hs).
Qed.

Lemma heap_at_app (l : list jobj) (w : World) (oid : nat) (o : jobj) :
  heap_at w oid = Some o -> heap_at (set_objs w (objs w ++ l)) oid = Some o.
Proof.
  destruct oid as [|j]; [done|]. simpl. intros H.
  by rewrite lookup_app_l_Some with (x := o).
Qed.

Lemma resolve_app (l : list ref) (w : World) (h : jobject) (oid : nat) :
  resolve w h = Some oid -> resolve (set_refs w (refs w ++ l)) h = Some oid.
Proof.
  destruct h as [|i]; [done|]. simpl.
  destruct (refs w !! i) as [r|] eqn:E; [|done].
  by rewrite lookup_app_l_Some with (x := r).
Qed.

Lemma stable_emit (e : event) (w : World) : stable w (emit e w).2.
Proof. by constructor. Qed.

Lemma stable_alloc (o : jobj) (w : World) : stable w (alloc o w).2.
Proof. constructor; try done. intros. by apply heap_at_app. Qed.

Lemma stable_new_ref (g : bool) (oid : nat) (w : World) :
  stable w (new_ref g oid w).2.
Proof.
  constructor; try done. intros h o H. unfold new_ref. simpl.
  exact (resolve_app _ w h o H).
Qed.

(** Handing out a fresh local reference to a new object. *)
Lemma local_ref_to_run (o : jobj) (w : World) :
  exists w', local_ref_to o w = (Ok (S (length (refs w))), w') /\
             stable w w' /\
             deref w' (S (length (refs w))) = Some o /\
             length (refs w') = S (length (refs w)).
Proof.
  eexists. split; [reflexivity|]. split; [|split].
  - eapply stable_trans; [apply (stable_alloc o w)|].
    apply (stable_new_ref false _ (alloc o w).2).
  - unfold deref, resolve. simpl. rewrite list_lookup_middle by done. simpl.
    by rewrite list_lookup_middle.
  - simpl. rewrite length_app. simpl. lia.
Qed.

(** ** The failure check *)

Lemma bind_congr {S A B} (m : M S A) (k1 k2 : A -> M S B) (s : S) :
  (forall a s', m s = (Ok a, s') -> k1 a s' = k2 a s') ->
  bind m k1 s = bind m k2 s.
Proof.
  intros H. rewrite !bind_unfold. destruct (m s) as [[a|e|r] s']; auto.
Qed.

Lemma unwind_congr {S A} (b1 b2 : M S A) (d : M S unit) (s : S) :
  b1 s = b2 s -> unwind b1 d s = unwind b2 d s.
Proof. intros H. unfold unwind. by rewrite H. Qed.

Lemma FindClass_Throwable (w : World) :
  JNI.FindClass "java/lang/Throwable" w =
    local_ref_to (JClass "java/lang/Throwable") w.
Proof. reflexivity. Qed.

Lemma pending_local_ref_to (o : jobj) (w : World) :
  pending (local_ref_to o w).2 = pending w.
Proof. reflexivity. Qed.

Lemma deref_local_ref_to (o : jobj) (w : World) :
  deref (local_ref_to o w).2 (S (length (refs w))) = Some o.
Proof. destruct (local_ref_to_run o w) as (w' & E & _ & D & _). by rewrite E. Qed.

Lemma deref_set_trace (w : World) (t : list event) (h : jobject) :
  deref (set_trace w t) h = deref w h.
Proof. reflexivity. Qed.

Lemma deref_set_pending (w : World) (p : option throwable) (h : jobject) :
  deref (set_pending w p) h = deref w h.
Proof. reflexivity. Qed.

Lemma local_ref_to_eq (o : jobj) (w : World) :
  local_ref_to o w = (Ok (S (length (refs w))), (local_ref_to o w).2).
Proof. reflexivity. Qed.

(** Looking up [Throwable.getMessage] with nothing pending. *)
Lemma getMessage_info (check : M World unit) (w : World) :
  quiet_when_clear check -> pending w = None ->
  Tools.getMethodInfo_rec check "java/lang/Throwable" "getMessage"
      "()Ljava/lang/String;" w =
    (Ok {| classId := S (length (refs w)); methodId := MGetMessage; weak_ := false |},
     (emit (EvGetMethodID "java/lang/Throwable" "getMessage" "()Ljava/lang/String;")
        (local_ref_to (JClass "java/lang/Throwable") w).2).2).
Proof.
  intros Hc Hp. unfold Tools.getMethodInfo_rec.
  change (c_str "java/lang/Throwable") with "java/lang/Throwable".
  change (c_str "getMessage") with "getMessage".
  rewrite (bind_ok (JNI.FindClass "java/lang/Throwable") _ w _ _
             (local_ref_to_eq (JClass "java/lang/Throwable") w)).
  set (w1 := (local_ref_to (JClass "java/lang/Throwable") w).2).
  rewrite (bind_ok _ _ _ _ _ (Hc w1 Hp)). cbv iota.
  rewrite (bind_ok _ _ _ _ _ (Hc w1 Hp)).
  assert (Hd : deref w1 (S (length (refs w))) = Some (JClass "java/lang/Throwable"))
    by apply deref_local_ref_to.
  assert (Hg : JNI.GetMethodID (S (length (refs w))) "getMessage"
                 "()Ljava/lang/String;" w1 =
               (Ok MGetMessage,
                (emit (EvGetMethodID "java/lang/Throwable" "getMessage"
                         "()Ljava/lang/String;") w1).2)).
  { unfold JNI.GetMethodID, JNI.class_name. rewrite Hd. cbn [default].
    rewrite bind_unfold. unfold emit at 1. cbv iota beta.
    unfold JNI.get_method, JNI.class_name.
    rewrite deref_set_trace, Hd. reflexivity. }
  rewrite (bind_ok _ _ _ _ _ Hg).
  rewrite (bind_ok _ _ _ _ _
             (Hc (emit (EvGetMethodID "java/lang/Throwable" "getMessage"
                          "()Ljava/lang/String;") w1).2 Hp)).
  reflexivity.
Qed.


Lemma quiet_ret : quiet_when_clear (ret tt).
Proof. by intros w _. Qed.

(** A call that hands back a reference has not raised. *)
Lemma CallObjectMethod_nonnull (recv : jobject) (mid : jmethodID)
    (args : list jvalue) (w w' : World) (h : jobject) :
  JNI.CallObjectMethod recv mid args w = (Ok (S h), w') ->
  pending w' = pending w.
Proof.
  unfold JNI.CallObjectMethod. rewrite bind_unfold.
  destruct (JNI.run_method recv mid args w) as [[v|e|r] w1] eqn:E; [|done..].
  assert (Hv : (exists o, v = RetObj o) \/ (exists j, v = RetRef j) ->
               pending w1 = pending w).
  { intros [[o ->]|[j ->]]; unfold JNI.run_method in E;
      repeat (case_match; simplify_eq; try done). }
  destruct v as [| | |o|[|j]]; try (intros [= ? ?]; done).
  - intros H. rewrite local_ref_to_eq in H. injection H as _ <-.
    simpl. apply Hv. left. by eexists.
  - intros [= _ <-]. simpl. apply Hv. right. by eexists.
Qed.

Lemma toString_rec_quiet (check : M World unit) (str : jobject) (w : World) :
  quiet_when_clear check -> (str <> NULL -> pending w = None) ->
  Tools.toString_rec check str w = Tools.toString_rec (ret tt) str w.
Proof.
  intros Hc Hp. destruct str as [|h]; [reflexivity|].
  unfold Tools.toString_rec. apply bind_congr. intros chars s' E.
  assert (s' = w) as ->.
  { unfold JNI.GetStringUTFChars in E. by repeat case_match; simplify_eq. }
  apply bind_congr. intros s s' E'.
  assert (s' = w) as ->.
  { destruct chars; cbv [bind ret JNI.ReleaseStringUTFChars] in E'; by simplify_eq. }
  rewrite (bind_ok _ _ _ _ _ (Hc w (Hp (Nat.neq_succ_0 h)))). reflexivity.
Qed.

(** The nested checks of [checkException] run when nothing is pending, so
    the check does what the same code without them does. *)
Lemma checkException_step_quiet (check : M World unit) (w : World) :
  quiet_when_clear check ->
  Tools.checkException_step check w = Tools.checkException_step (ret tt) w.
Proof.
  intros Hc. unfold Tools.checkException_step.
  apply bind_congr. intros raised s' E. destruct raised; [|reflexivity].
  apply bind_congr. intros jthrowable w1 E1.
  unfold JNI.ExceptionDescribe. rewrite !bind_ret.
  rewrite !(bind_ok JNI.ExceptionClear _ w1 (set_pending w1 None) tt eq_refl).
  rewrite (bind_ok _ _ _ _ _
             (getMessage_info check (set_pending w1 None) Hc eq_refl)).
  rewrite (bind_ok _ _ _ _ _
             (getMessage_info (ret tt) (set_pending w1 None) quiet_ret eq_refl)).
  apply unwind_congr. cbn [methodId].
  apply bind_congr. intros msg w3 E3.
  rewrite !bind_unfold.
  rewrite (toString_rec_quiet check); [reflexivity | done |].
  intros Hm. destruct msg as [|m]; [done|].
  by rewrite (CallObjectMethod_nonnull _ _ _ _ _ _ E3).
Qed.

Lemma checkException_fuel_quiet (n : nat) :
  quiet_when_clear (Tools.checkException_fuel (S n)).
Proof. intros w. apply checkException_fuel_none. Qed.

(** [checkException] is the code of the source without a bound. *)
Lemma checkException_unbounded (w : World) :
  Tools.checkException w = Tools.checkException_step (ret tt) w.
Proof. apply (checkException_step_quiet _ w (checkException_fuel_quiet 0)). Qed.

Lemma checkException_fuel_enough (n : nat) (w : World) :
  2 <= n -> Tools.checkException_fuel n w = Tools.checkException w.
Proof.
  intros Hn. destruct n as [|[|n]]; [lia..|].
  rewrite checkException_unbounded.
  apply (checkException_step_quiet _ w (checkException_fuel_quiet n)).
Qed.

Lemma checkException_quiet : quiet_when_clear Tools.checkException.
Proof. intros w. apply checkException_none. Qed.

Lemma kill_ref_fields (g : bool) (h : jobject) (w : World) :
  pending (kill_ref g h w) = pending w /\
  javaVM (kill_ref g h w) = javaVM w /\
  attach_status (kill_ref g h w) = attach_status w /\
  alloc_faults (kill_ref g h w) = alloc_faults w /\
  objs (kill_ref g h w) = objs w /\
  trace (kill_ref g h w) = trace w /\
  length (refs (kill_ref g h w)) = length (refs w).
Proof.
  unfold kill_ref. destruct h as [|i]; [done|].
  destruct (refs w !! i) as [r|]; [|done].
  destruct (Bool.eqb _ _); [|done]. simpl. by rewrite length_insert.
Qed.

Lemma CallObjectMethod_getMessage (w : World) (h : jobject) (t : throwable) :
  deref w h = Some (JThrowable t) ->
  JNI.CallObjectMethod h MGetMessage [] w =
    match t with
    | Throwable (Some s) => local_ref_to (JString s) w
    | Throwable None => (Ok NULL, w)
    | ThrowingThrowable c => (Ok NULL, set_pending w (Some c))
    end.
Proof.
  intros H. unfold JNI.CallObjectMethod, JNI.run_method. rewrite bind_unfold, H.
  by destruct t as [[s|]|c].
Qed.

Lemma toString_flat_string (w : World) (h : jobject) (s : string) :
  deref w h = Some (JString s) ->
  Tools.toString_rec (ret tt) h w = (Ok (c_str s), w).
Proof.
  intros H. destruct h as [|h]; [done|].
  unfold Tools.toString_rec, JNI.GetStringUTFChars. rewrite bind_unfold, H.
  reflexivity.
Qed.

(** What [checkException] does with a failure pending. *)
Lemma checkException_pending (w : World) (t : throwable) :
  healthy w -> pending w = Some t ->
  exists w',
    Tools.checkException w = (Throw {| message := c_str (message_text t) |}, w') /\
    pending w' = raised_by_getMessage t /\
    javaVM w' = javaVM w /\ attach_status w' = attach_status w.
Proof.
  intros Hh Hp. rewrite checkException_unbounded.
  unfold Tools.checkException_step.
  assert (E0 : JNI.ExceptionCheck w = (Ok true, w))
    by (unfold JNI.ExceptionCheck; by rewrite Hp).
  rewrite (bind_ok _ _ _ _ _ E0).
  assert (E1 : JNI.ExceptionOccurred w =
               (Ok (S (length (refs w))), (local_ref_to (JThrowable t) w).2))
    by (unfold JNI.ExceptionOccurred; by rewrite Hp).
  rewrite (bind_ok _ _ _ _ _ E1).
  pose proof (deref_local_ref_to (JThrowable t) w) as D1.
  set (w1 := (local_ref_to (JThrowable t) w).2) in *.
  unfold JNI.ExceptionDescribe. rewrite bind_ret.
  rewrite (bind_ok JNI.ExceptionClear _ w1 (set_pending w1 None) tt eq_refl).
  rewrite (bind_ok _ _ _ _ _
             (getMessage_info (ret tt) (set_pending w1 None) quiet_ret eq_refl)).
  set (cls := S (length (refs (set_pending w1 None)))).
  set (w3 := (emit _ _).2).
  assert (D3 : deref w3 (S (length (refs w))) = Some (JThrowable t)).
  { apply (stable_deref (set_pending w1 None)); [|exact D1].
    eapply stable_trans; [|apply stable_emit].
    destruct (local_ref_to_run (JClass "java/lang/Throwable") (set_pending w1 None))
      as (w' & E & S & _). by rewrite E. }
  assert (H3 : healthy w3) by exact Hh.
  unfold unwind. cbn [methodId classId weak_].
  rewrite bind_unfold, (CallObjectMethod_getMessage w3 _ t D3).
  assert (Hd : forall s', healthy s' ->
            exists s'', Tools.JNIMethodInfo_destructor
              {| classId := cls; methodId := MGetMessage; weak_ := false |} s' =
              (Ok tt, s'') /\ pending s'' = pending s' /\
              javaVM s'' = javaVM s' /\ attach_status s'' = attach_status s').
  { intros s' Hs'. unfold Tools.JNIMethodInfo_destructor. cbn [weak_ classId].
    subst cls. cbv iota. attach. eexists. split; [reflexivity|].
    unfold JNI.DeleteLocalRef. cbn [snd].
    destruct (kill_ref_fields false (S (length (refs (set_pending w1 None))))
                (set_trace s' (trace s' ++
                   [EvDeleteLocalRef (S (length (refs (set_pending w1 None))))])))
      as (-> & -> & -> & _). done. }
  destruct t as [[s|]|c].
  - rewrite local_ref_to_eq.
    pose proof (deref_local_ref_to (JString s) w3) as D4.
    set (w4 := (local_ref_to (JString s) w3).2) in *.
    rewrite (bind_ok _ _ _ _ _ (toString_flat_string w4 _ s D4)).
    unfold throw_JNIException.
    destruct (Hd (set_trace w4 (trace w4 ++
                [EvLog ("JNI Exception: " +:+ c_str (c_str s))])) Hh)
      as (s'' & -> & P & V & A).
    exists s''. split; [|split; [|split]]; done.
  - rewrite (bind_ok (Tools.toString_rec (ret tt) NULL) _ w3 w3 "" eq_refl).
    unfold throw_JNIException.
    destruct (Hd (set_trace w3 (trace w3 ++
                [EvLog ("JNI Exception: " +:+ c_str "")])) Hh)
      as (s'' & -> & P & V & A).
    exists s''. split; [|split; [|split]]; done.
  - rewrite (bind_ok (Tools.toString_rec (ret tt) NULL) _ _ _ "" eq_refl).
    unfold throw_JNIException.
    destruct (Hd (set_trace (set_pending w3 (Some c))
                (trace (set_pending w3 (Some c)) ++
                   [EvLog ("JNI Exception: " +:+ c_str "")])) Hh)
      as (s'' & -> & P & V & A).
    exists s''. split; [|split; [|split]]; done.
Qed.


(** When the message getter of the pending failure returns, the check
    throws the native error with that text and leaves nothing pending. *)
Lemma checkException_clears (w : World) (m : option string) :
  healthy w -> pending w = Some (Throwable m) ->
  exists w',
    Tools.checkException w =
      (Throw {| message := c_str (message_text (Throwable m)) |}, w') /\
    pending w' = None.
Proof.
  intros Hh Hp. destruct (checkException_pending w _ Hh Hp) as (w' & E & P & _).
  by exists w'.
Qed.

(** C3, what the code does when the message getter of the pending failure
    raises in turn: the check throws a native error with an empty message
    and comes back with the second failure pending in the runtime. *)
Theorem checkException_leaves_failure_pending :
  forall (w : World) (c : throwable),
    healthy w -> pending w = Some (ThrowingThrowable c) ->
    exists w',
      Tools.checkException w = (Throw {| message := "" |}, w') /\
      pending w' = Some c.
Proof.
  intros w c Hh Hp.
  destruct (checkException_pending w _ Hh Hp) as (w' & E & P & _).
  by exists w'.
Qed.

Lemma checkException_leaves_failure_pending_witness :
  exists w',
    Tools.checkException Sample.world_raised_twice =
      (Throw {| message := "" |}, w') /\
    pending w' = Some (Throwable (Some "inner")).
Proof.
  apply (checkException_leaves_failure_pending Sample.world_raised_twice
           (Throwable (Some "inner"))).
  - split; [reflexivity | simpl; lia].
  - reflexivity.
Defined.

(** ** Framing *)

Lemma dels_app (a b : list event) : dels (a ++ b) = dels a ++ dels b.
Proof. induction a as [|[] a IH]; simpl; by rewrite ?IH. Qed.

Lemma regs_app (a b : list event) : regs (a ++ b) = regs a ++ regs b.
Proof. induction a as [|[] a IH]; simpl; by rewrite ?IH. Qed.

Lemma kill_kill (r : ref) : kill (kill r) = kill r.
Proof. reflexivity. Qed.

Lemma frame_refl (n : nat) (w : World) : frame n [] w w.
Proof.
  constructor; try done; [by left|].
  exists []. rewrite app_nil_r. by repeat split.
Qed.

Lemma local_live_evolve (w w' : World) (n : nat) (rs : list jobject) (h : jobject) :
  frame n rs w w' -> h <= length (refs w) -> local_live w h = false ->
  local_live w' h = false.
Proof.
  intros F Hh Hl. destruct h as [|i]; [done|]. unfold local_live in *.
  destruct (refs w !! i) as [r|] eqn:E.
  - destruct (fr_refs _ _ _ _ F i r E) as [-> | [_ ->]]; [done|].
    reflexivity.
  - apply lookup_ge_None in E. lia.
Qed.

Lemma frame_trans (n : nat) (rs1 rs2 : list jobject) (w1 w2 w3 : World) :
  frame n rs1 w1 w2 -> frame n rs2 w2 w3 -> frame n (rs1 ++ rs2) w1 w3.
Proof.
  intros F1 F2. pose proof F1 as [V1 S1 L1 R1 (e1 & T1 & G1 & D1)].
  pose proof F2 as [V2 S2 L2 R2 (e2 & T2 & G2 & D2)].
  constructor; try congruence; try lia.
  - intros i r Hr. destruct (R1 i r Hr) as [H|[Hn H]].
    + apply R2, H.
    + destruct (R2 i _ H) as [H'|[_ H']]; right; split; try done.
  - exists (e1 ++ e2). rewrite T2, T1, app_assoc, regs_app, G1, G2.
    split; [done|]. split; [done|]. intros h. rewrite dels_app, in_app_iff.
    intros [Hh|Hh].
    + destruct (D1 h Hh) as [->|[[? ?] Hl]]; [by left|right].
      split; [lia|]. eapply local_live_evolve; [exact F2|lia|exact Hl].
    + destruct (D2 h Hh) as [->|[[? ?] Hl]]; [by left|by right].
Qed.

Lemma frame_trans0 (n : nat) (w1 w2 w3 : World) :
  frame n [] w1 w2 -> frame n [] w2 w3 -> frame n [] w1 w3.
Proof. apply (frame_trans n [] []). Qed.

Lemma frame_weaken (n n' : nat) (rs : list jobject) (w w' : World) :
  n' <= n -> frame n rs w w' -> frame n' rs w w'.
Proof.
  intros Hn [V S L R (e & T & G & D)]. constructor; try done.
  - intros i r Hr. destruct (R i r Hr) as [H|[? H]]; [by left|right].
    split; [lia|done].
  - exists e. repeat split; try done. intros h Hh.
    destruct (D h Hh) as [->|[[? ?] Hl]]; [by left|right]. split; [lia|done].
Qed.

Lemma frame_healthy (n : nat) (rs : list jobject) (w w' : World) :
  frame n rs w w' -> healthy w -> healthy w'.
Proof. intros [V S _ _ _] [? ?]. unfold healthy. split; congruence. Qed.

(** References below the base are as they were. *)
Lemma frame_live (n : nat) (rs : list jobject) (w w' : World) (h : jobject) :
  frame n rs w w' -> h <= n -> n <= length (refs w) ->
  local_live w' h = local_live w h.
Proof.
  intros F Hh Hn. destruct h as [|i]; [done|]. unfold local_live.
  destruct (refs w !! i) as [r|] eqn:E.
  - destruct (fr_refs _ _ _ _ F i r E) as [-> | [? _]]; [done|lia].
  - apply lookup_ge_None in E. lia.
Qed.

Lemma frame_quiet (n : nat) (w w' : World) : quiet_step w w' -> frame n [] w w'.
Proof.
  intros [V S (l & R) (e & T & D & G)]. constructor; try done.
  - rewrite R, length_app. lia.
  - intros i r Hr. left. rewrite R. by apply lookup_app_l_Some.
  - exists e. repeat split; try done. rewrite D. by intros h [].
Qed.

Lemma quiet_step_refl (w : World) : quiet_step w w.
Proof.
  constructor; try done; [exists []|exists []]; by rewrite app_nil_r.
Qed.

Lemma quiet_step_trans (w1 w2 w3 : World) :
  quiet_step w1 w2 -> quiet_step w2 w3 -> quiet_step w1 w3.
Proof.
  intros [V1 S1 (l1 & R1) (e1 & T1 & D1 & G1)] [V2 S2 (l2 & R2) (e2 & T2 & D2 & G2)].
  constructor; try congruence.
  - exists (l1 ++ l2). by rewrite R2, R1, app_assoc.
  - exists (e1 ++ e2). rewrite T2, T1, app_assoc, dels_app, regs_app, D1, D2, G1, G2.
    done.
Qed.

(** *** Rules for [runs] *)

Section Runs.
Context {A B : Type}.

Lemma runs_ret (n : nat) (ok : Prop) (w : World) (a : A)
    (Q : A -> World -> Prop) :
  Q a w -> runs n ok w (ret a) Q.
Proof.
  intros HQ. split; [apply frame_refl|]. split; [done|].
  intros a' [= <-]. exact HQ.
Qed.

Lemma runs_conseq (n : nat) (ok : Prop) (w : World) (m : M World A)
    (Q Q' : A -> World -> Prop) :
  runs n ok w m Q -> (forall a w', Q a w' -> Q' a w') -> runs n ok w m Q'.
Proof.
  intros (F & C & HQ) H. split; [done|split; [done|]].
  intros a E. apply H, HQ, E.
Qed.

Lemma runs_weaken (n n' : nat) (ok : Prop) (w : World) (m : M World A)
    (Q : A -> World -> Prop) :
  n' <= n -> runs n ok w m Q -> runs n' ok w m Q.
Proof.
  intros Hn (F & C & HQ). split; [|done]. by apply (frame_weaken n).
Qed.

Lemma runs_ok_weaken (n : nat) (ok ok' : Prop) (w : World) (m : M World A)
    (Q : A -> World -> Prop) :
  (ok' -> ok) -> runs n ok w m Q -> runs n ok' w m Q.
Proof.
  intros Hn (F & C & HQ). split; [done|split; [|done]]. auto.
Qed.

(** Sequencing: the first step may be framed relative to a later base
    than the whole; what follows sees that stronger frame. *)
Lemma runs_bind (n n1 : nat) (ok : Prop) (w : World) (m : M World A)
    (k : A -> M World B) (Q1 : A -> World -> Prop) (Q : B -> World -> Prop) :
  n <= n1 ->
  runs n1 ok w m Q1 ->
  (forall a w1, m w = (Ok a, w1) -> frame n1 [] w w1 -> Q1 a w1 ->
                runs n ok w1 (k a) Q) ->
  runs n ok w (bind m k) Q.
Proof.
  intros Hn (F & C & HQ) Hk. unfold runs. rewrite bind_unfold.
  destruct (m w) as [[a|e|r] w1] eqn:E; simpl in *.
  - destruct (Hk a w1 eq_refl F (HQ a eq_refl)) as (F' & C' & HQ').
    split; [|split].
    + eapply frame_trans0; [apply (frame_weaken n1); [lia|exact F]|exact F'].
    + intros Hok Hh. apply C'; [done|]. by apply (frame_healthy _ _ _ _ F).
    + exact HQ'.
  - split; [by apply (frame_weaken n1)|]. split; [done|]. by intros.
  - split; [by apply (frame_weaken n1)|]. split; [exact C|]. by intros.
Qed.

(** Scope exit with a destructor that is framed and does not throw. *)
Lemma runs_unwind (n : nat) (ok : Prop) (w : World) (body : M World A)
    (dtor : M World unit) (Q : A -> World -> Prop) :
  runs n ok w body Q ->
  (forall w1, frame n [] w w1 ->
              frame n [] w1 (dtor w1).2 /\
              (healthy w1 -> (dtor w1).1 = Ok tt)) ->
  runs n ok w (unwind body dtor) (fun _ _ => True).
Proof.
  intros (F & C & _) Hd. unfold runs, unwind.
  destruct (body w) as [res w1] eqn:E. simpl in *.
  destruct (Hd w1 F) as [Fd Cd].
  destruct res as [a|e|r].
  - destruct (dtor w1) as [[[]|e'|r'] w2] eqn:E'; simpl in *;
      (split; [by apply (frame_trans0 n w w1)|split; [|done]]);
      intros Hok Hh; try done;
      by specialize (Cd (frame_healthy _ _ _ _ F Hh)).
  - destruct (dtor w1) as [[[]|e'|r'] w2] eqn:E'; simpl in *;
      (split; [by apply (frame_trans0 n w w1)|split; [|done]]);
      intros Hok Hh; try done;
      by specialize (Cd (frame_healthy _ _ _ _ F Hh)).
  - split; [done|]. split; [exact C|done].
Qed.
End Runs.

Lemma runs_framed {A} (n : nat) (ok : Prop) (w : World) (m : M World A)
    (P : World -> A -> World -> Prop) :
  framed ok m P -> runs (length (refs w)) ok w m (P w).
Proof. intros H. apply H. Qed.

(** Deleting a reference the function made itself. *)
Lemma runs_delete (n : nat) (ok : Prop) (w : World) (h : jobject) :
  h = NULL \/ n < h <= length (refs w) ->
  runs n ok w (JNI.DeleteLocalRef h) (fun _ w' =>
    length (refs w') = length (refs w) /\
    forall h', h' <> h -> local_live w' h' = local_live w h').
Proof.
  intros Hh. unfold runs, JNI.DeleteLocalRef. cbn [fst snd].
  set (w0 := set_trace w (trace w ++ [EvDeleteLocalRef h])).
  assert (Hl : local_live (kill_ref false h w0) h = false).
  { unfold local_live, kill_ref. destruct h as [|i]; [done|].
    destruct (refs w0 !! i) as [r|] eqn:E; [|by rewrite E].
    destruct (Bool.eqb (r_global r) false) eqn:Eg.
    - simpl. rewrite list_lookup_insert_eq; [done|]. by eapply lookup_lt_Some.
    - rewrite E. destruct (r_global r); [|done]. by rewrite andb_false_r. }
  destruct (kill_ref_fields false h w0) as (Hp & Hv & Hs & Hf & Ho & Ht & Hn).
  split; [|split; [done|]].
  - constructor; try done.
    + rewrite Hn. done.
    + intros i r Hr. unfold kill_ref. destruct h as [|j]; [by left|].
      change (refs w0) with (refs w).
      destruct (refs w !! j) as [r'|] eqn:E; [|by left].
      destruct (Bool.eqb _ _); [|by left]. simpl.
      destruct (decide (i = j)) as [->|Hij].
      * right. split; [destruct Hh; [done|lia]|].
        rewrite list_lookup_insert_eq by (by eapply lookup_lt_Some).
        by simplify_eq.
      * left. by rewrite list_lookup_insert_ne.
    + exists [EvDeleteLocalRef h]. rewrite Ht. repeat split; try done.
      intros h' [<-|[]]. destruct Hh as [->|Hh]; [by left|right].
      split; [by rewrite Hn|exact Hl].
  - intros _ _. split; [exact Hn|]. intros h' Hne.
    unfold local_live, kill_ref. destruct h' as [|i]; [done|].
    destruct h as [|j]; [done|]. change (refs w0) with (refs w).
    destruct (refs w !! j) as [r'|] eqn:E; [|done].
    destruct (Bool.eqb _ _); [|done]. simpl.
    rewrite list_lookup_insert_ne; [done|]. congruence.
Qed.

(** *** The runtime's functions are framed *)

Ltac quiet_tac :=
  constructor; simpl;
  [ done | done
  | first [ by eexists | by (exists []; rewrite app_nil_r) ]
  | first [ by (eexists; split; [reflexivity | done])
          | by (exists []; rewrite app_nil_r) ] ].

Lemma framed_quiet {A} (m : M World A) (P : World -> A -> World -> Prop) :
  (forall w, quiet_step w (m w).2 /\ came_back (m w).1 = true /\
             forall a, (m w).1 = Ok a -> P w a (m w).2) ->
  framed True m P.
Proof.
  intros H w. destruct (H w) as (Hq & Hc & HP).
  split; [by apply frame_quiet|]. split; [done|exact HP].
Qed.

Lemma fresh_handle_null (n : nat) (w : World) : fresh_handle n w NULL.
Proof. by left. Qed.

Lemma new_ref_fresh (oid : nat) (w : World) :
  fresh_handle (length (refs w)) (new_ref false oid w).2 (S (length (refs w))).
Proof.
  right. unfold new_ref, local_live. simpl. rewrite length_app. simpl.
  split; [lia|]. by rewrite list_lookup_middle.
Qed.

Lemma local_ref_to_fresh (o : jobj) (w : World) :
  fresh_handle (length (refs w)) (local_ref_to o w).2 (S (length (refs w))).
Proof. apply (new_ref_fresh _ (alloc o w).2). Qed.

Lemma quiet_local_ref_to (o : jobj) (w : World) :
  quiet_step w (local_ref_to o w).2.
Proof. quiet_tac. Qed.

Lemma local_ref_to_framed (o : jobj) : framed True (local_ref_to o) fresh_ret.
Proof.
  apply framed_quiet. intros w. split; [apply quiet_local_ref_to|].
  split; [done|]. intros a [= <-]. apply local_ref_to_fresh.
Qed.

Lemma New_framed (o : jobj) : framed True (New o) fresh_ret.
Proof.
  apply framed_quiet. intros w. unfold New.
  destruct (alloc_faults w) as [|[] rest].
  - split; [apply quiet_local_ref_to|]. split; [done|].
    intros a [= <-]. apply local_ref_to_fresh.
  - split; [quiet_tac|]. split; [done|]. intros a [= <-]. by left.
  - split; [quiet_tac|]. split; [done|].
    intros a [= <-]. apply (local_ref_to_fresh o (set_alloc_faults w rest)).
Qed.

Lemma FindClass_framed (name : string) : framed True (JNI.FindClass name) fresh_ret.
Proof.
  apply framed_quiet. intros w. unfold JNI.FindClass.
  destruct (JNI.class_exists w name).
  - split; [apply quiet_local_ref_to|]. split; [done|].
    intros a [= <-]. apply local_ref_to_fresh.
  - split; [quiet_tac|]. split; [done|]. intros a [= <-]. by left.
Qed.

Lemma GetObjectClass_framed (h : jobject) :
  framed True (JNI.GetObjectClass h) fresh_ret.
Proof.
  apply framed_quiet. intros w. unfold JNI.GetObjectClass.
  destruct (deref w h).
  - split; [apply quiet_local_ref_to|]. split; [done|].
    intros a [= <-]. apply local_ref_to_fresh.
  - split; [apply quiet_step_refl|]. split; [done|]. intros a [= <-]. by left.
Qed.

Ltac quiet_cases :=
  repeat case_match; simpl;
  (split; [first [apply quiet_step_refl | apply quiet_local_ref_to | quiet_tac]
          | split; [done | try done]]).

Lemma get_method_framed (static : bool) (cls : jobject) (name sig : string) :
  framed True (JNI.get_method static cls name sig) any_ret.
Proof. apply framed_quiet. intros w. unfold JNI.get_method. quiet_cases. Qed.

Lemma GetMethodID_framed (cls : jobject) (name sig : string) :
  framed True (JNI.GetMethodID cls name sig) any_ret.
Proof.
  apply framed_quiet. intros w. unfold JNI.GetMethodID, JNI.get_method.
  rewrite bind_unfold. unfold emit. cbv iota beta. simpl JNI.class_name.
  quiet_cases.
Qed.

Lemma GetStaticMethodID_framed (cls : jobject) (name sig : string) :
  framed True (JNI.GetStaticMethodID cls name sig) any_ret.
Proof.
  apply framed_quiet. intros w. unfold JNI.GetStaticMethodID, JNI.get_method.
  rewrite bind_unfold. unfold emit. cbv iota beta. simpl JNI.class_name.
  quiet_cases.
Qed.

Lemma run_method_framed (recv : jobject) (mid : jmethodID) (args : list jvalue) :
  framed True (JNI.run_method recv mid args) any_ret.
Proof. apply framed_quiet. intros w. unfold JNI.run_method. quiet_cases. Qed.

Ltac len_facts :=
  repeat match goal with
         | F : frame _ _ ?a ?b |- _ =>
             lazymatch goal with
             | _ : length (refs a) <= length (refs b) |- _ => fail
             | _ => pose proof (fr_len _ _ _ _ F)
             end
         end.

(** One step of a sequence: [L] says the first computation is framed. *)
Tactic Notation "step" constr(L) "as" ident(a) ident(w1) ident(E) ident(F) ident(H) :=
  lazymatch goal with
  | |- runs ?n ?ok ?w (bind ?m ?k) ?Q =>
      eapply (runs_bind n (length (refs w)) ok w m k);
      [ len_facts; lia
      | eapply runs_ok_weaken; [|apply L]; tauto
      | intros a w1 E F H ]
  end.

Lemma throw_framed {A} (n : nat) (ok : Prop) (w : World) (msg : string)
    (Q : A -> World -> Prop) :
  runs n ok w (throw_JNIException msg) Q.
Proof.
  split; [apply frame_quiet; quiet_tac|]. split; [done|]. by intros.
Qed.

Lemma abort_framed {A} (n : nat) (w : World) (r : abort) (Q : A -> World -> Prop) :
  runs n False w (abort_with r) Q.
Proof. split; [apply frame_refl|]. split; [done|]. by intros. Qed.

(** Acquiring the environment and using it. *)
Lemma runs_attach {A} (n : nat) (ok : Prop) (w : World) (k : M World A)
    (Q : A -> World -> Prop) :
  runs n ok w k Q ->
  runs n ok w (let! jniEnv := Tools.attachJniEnv in through jniEnv ;;; k) Q.
Proof.
  intros Hk. unfold runs. rewrite bind_unfold. unfold Tools.attachJniEnv.
  destruct (javaVM w) eqn:Hvm.
  - destruct (Z.ltb_spec (attach_status w) 0).
    + unfold throw_JNIException. cbv iota beta. simpl.
      split; [apply frame_quiet; quiet_tac|]. split; [done|]. by intros.
    + exact Hk.
  - split; [apply frame_refl|]. split; [|by intros].
    intros _ [Hv _]. congruence.
Qed.

Lemma CallObjectMethod_framed (recv : jobject) (mid : jmethodID)
    (args : list jvalue) :
  framed True (JNI.CallObjectMethod recv mid args) fresh_ret.
Proof.
  intros w. unfold JNI.CallObjectMethod.
  step (run_method_framed recv mid args) as v w1 E F H.
  assert (length (refs w1) = length (refs w)) as Hl.
  { unfold JNI.run_method in E. repeat case_match; by simplify_eq. }
  destruct v as [| | |o|[|j]];
    try (apply runs_ret; by left).
  - eapply runs_weaken; [|eapply runs_conseq; [apply (local_ref_to_framed o w1)|]].
    + len_facts. lia.
    + intros a w' Hf. unfold fresh_ret in *. by rewrite <- Hl.
  - split; [apply frame_quiet; quiet_tac|]. split; [done|].
    intros a [= <-]. unfold fresh_ret. rewrite <- Hl. apply new_ref_fresh.
Qed.

Lemma CallVoidMethod_framed (recv : jobject) (mid : jmethodID)
    (args : list jvalue) :
  framed True (JNI.CallVoidMethod recv mid args) any_ret.
Proof.
  intros w. unfold JNI.CallVoidMethod.
  step (run_method_framed recv mid args) as v w1 E F H.
  by apply runs_ret.
Qed.

Lemma CallPrimitiveMethod_framed (recv : jobject) (mid : jmethodID)
    (args : list jvalue) :
  framed True (JNI.CallPrimitiveMethod recv mid args) any_ret.
Proof.
  intros w. unfold JNI.CallPrimitiveMethod.
  step (run_method_framed recv mid args) as v w1 E F H.
  destruct v; by apply runs_ret.
Qed.

Lemma NewObject_framed (cls : jobject) (mid : jmethodID) (args : list jvalue) :
  framed True (JNI.NewObject cls mid args) fresh_ret.
Proof.
  intros w. unfold runs, JNI.NewObject. cbv beta.
  repeat case_match;
    first [ apply (New_framed _ w)
          | (split; [apply frame_quiet; first [apply quiet_step_refl | quiet_tac]|]);
            (split; [done|]); intros a [= <-]; by left ].
Qed.

Lemma NewStringUTF_framed (utf : string) : framed True (JNI.NewStringUTF utf) fresh_ret.
Proof. apply New_framed. Qed.

Lemma NewByteArray_framed (size : nat) : framed True (JNI.NewByteArray size) fresh_ret.
Proof. apply New_framed. Qed.

Lemma NewObjectArray_framed (size : nat) (cls init : jobject) :
  framed True (JNI.NewObjectArray size cls init) fresh_ret.
Proof. intros w. apply (New_framed _ w). Qed.

Lemma GetStringUTFChars_framed (str : jobject) :
  framed True (JNI.GetStringUTFChars str) any_ret.
Proof. apply framed_quiet. intros w. unfold JNI.GetStringUTFChars. quiet_cases. Qed.

Lemma SetObjectArrayElement_framed (arr : jobject) (i : nat) (v : jobject) :
  framed True (JNI.SetObjectArrayElement arr i v) any_ret.
Proof.
  apply framed_quiet. intros w. unfold JNI.SetObjectArrayElement, raise.
  quiet_cases.
Qed.

Lemma GetObjectArrayElement_framed (arr : jobject) (i : nat) :
  framed True (JNI.GetObjectArrayElement arr i) fresh_ret.
Proof.
  intros w. unfold runs, JNI.GetObjectArrayElement. cbv beta.
  repeat case_match;
    try (split; [apply frame_quiet; first [apply quiet_step_refl | quiet_tac]|];
         (split; [done|]); intros a [= <-]; by left).
  split; [apply frame_quiet; quiet_tac|]. split; [done|].
  intros a [= <-]. apply new_ref_fresh.
Qed.

Lemma GetArrayLength_framed (arr : jobject) :
  framed True (JNI.GetArrayLength arr) any_ret.
Proof. apply framed_quiet. intros w. unfold JNI.GetArrayLength. quiet_cases. Qed.

Lemma SetByteArrayRegion_framed (arr : jobject) (start len : nat) (buf : list byte) :
  framed True (JNI.SetByteArrayRegion arr start len buf) any_ret.
Proof.
  apply framed_quiet. intros w. unfold JNI.SetByteArrayRegion, raise.
  quiet_cases.
Qed.

Lemma GetByteArrayRegion_framed (arr : jobject) (start len : nat) (buf : list byte) :
  framed True (JNI.GetByteArrayRegion arr start len buf) any_ret.
Proof. apply framed_quiet. intros w. unfold JNI.GetByteArrayRegion. quiet_cases. Qed.

Lemma ExceptionCheck_framed : framed True JNI.ExceptionCheck any_ret.
Proof. apply framed_quiet. intros w. unfold JNI.ExceptionCheck. quiet_cases. Qed.

Lemma ExceptionOccurred_framed : framed True JNI.ExceptionOccurred fresh_ret.
Proof.
  intros w. unfold runs, JNI.ExceptionOccurred. cbv beta. destruct (pending w).
  - apply (local_ref_to_framed _ w).
  - apply (runs_ret _ True w NULL). by left.
Qed.

Lemma ExceptionClear_framed : framed True JNI.ExceptionClear any_ret.
Proof. apply framed_quiet. intros w. unfold JNI.ExceptionClear. quiet_cases. Qed.

Lemma emit_log_framed (text : string) : framed True (emit (EvLog text)) any_ret.
Proof. apply framed_quiet. intros w. unfold emit. quiet_cases. Qed.

(** *** [Tools] is framed *)

Lemma fresh_handle_frame (n : nat) (w w' : World) (h : jobject) :
  fresh_handle n w h -> frame (length (refs w)) [] w w' ->
  fresh_handle n w' h.
Proof.
  intros [->|[[H1 H2] H3]] F; [by left|right].
  pose proof (fr_len _ _ _ _ F). split; [lia|].
  rewrite (frame_live (length (refs w)) [] w w'); try done; lia.
Qed.

Lemma fresh_handle_weaken (n n' : nat) (w : World) (h : jobject) :
  n' <= n -> fresh_handle n w h -> fresh_handle n' w h.
Proof. intros Hn [->|[[H1 H2] H3]]; [by left|right]. split; [lia|done]. Qed.

Lemma JNIMethodInfo_destructor_runs (n : nat) (w : World) (mi : JNIMethodInfo) :
  weak_ mi = true \/ classId mi = NULL \/ n < classId mi <= length (refs w) ->
  frame n [] w (Tools.JNIMethodInfo_destructor mi w).2 /\
  (healthy w -> (Tools.JNIMethodInfo_destructor mi w).1 = Ok tt).
Proof.
  intros H. unfold Tools.JNIMethodInfo_destructor.
  destruct (weak_ mi); [split; [apply frame_refl|done]|].
  destruct (classId mi) as [|c] eqn:Ec; [split; [apply frame_refl|done]|].
  assert (Hc : S c = NULL \/ n < S c <= length (refs w)).
  { destruct H as [?|[?|?]]; [done|done|by right]. }
  split.
  - apply (runs_attach n True w (JNI.DeleteLocalRef (S c)) (fun _ _ => True)).
    eapply runs_conseq; [apply (runs_delete n True w (S c) Hc)|done].
  - intros Hh. attach. reflexivity.
Qed.

(** Carrying the freshness of a reference along the framed steps that
    follow its creation. *)
Ltac carry :=
  unfold fresh_ret in *;
  repeat match goal with
         | Hf : fresh_handle ?n ?w ?h, F : frame (length (refs ?w)) [] ?w ?w' |- _ =>
             lazymatch goal with
             | _ : fresh_handle n w' h |- _ => fail
             | _ => pose proof (fresh_handle_frame n w w' h Hf F)
             end
         end.

Lemma runs_bind_ret {A B} (n : nat) (ok : Prop) (w : World) (a : A)
    (k : A -> M World B) (Q : B -> World -> Prop) :
  runs n ok w (k a) Q -> runs n ok w (bind (ret a) k) Q.
Proof. intros H. exact H. Qed.

Section RecursiveFramed.
Variable check : M World unit.
Hypothesis check_framed : framed True check any_ret.

Lemma toString_rec_framed (str : jobject) :
  framed True (Tools.toString_rec check str) any_ret.
Proof.
  intros w. unfold Tools.toString_rec. destruct str as [|h].
  { by apply runs_ret. }
  step (GetStringUTFChars_framed (S h)) as chars w1 E F H.
  eapply (runs_bind _ (length (refs w1)) _ _ _ _ (fun _ _ => True)).
  - len_facts. lia.
  - destruct chars as [c|]; [|by apply runs_ret].
    by apply (runs_ret _ _ _ (c_str c)).
  - intros s w2 E2 F2 _.
    step check_framed as u w3 E3 F3 H3. by apply runs_ret.
Qed.

Lemma getMethodInfo_class_rec_framed (cls : jobject) (name sig : string) :
  framed True (Tools.getMethodInfo_class_rec check cls name sig)
    (fun _ mi _ => weak_ mi = true).
Proof.
  intros w. unfold Tools.getMethodInfo_class_rec.
  step check_framed as u w1 E F H.
  step (GetMethodID_framed cls (c_str name) sig) as mid w2 E2 F2 H2.
  step check_framed as u3 w3 E3 F3 H3.
  destruct mid; first [apply throw_framed | by apply runs_ret].
Qed.

Lemma getMethodInfo_rec_framed (cls name sig : string) :
  framed True (Tools.getMethodInfo_rec check cls name sig)
    (fun w mi w' => owns_fresh_class (length (refs w)) mi w').
Proof.
  intros w. unfold Tools.getMethodInfo_rec.
  step (FindClass_framed (c_str cls)) as c w1 E F H.
  step check_framed as u w2 E2 F2 H2.
  destruct c as [|c]; [apply throw_framed|].
  step check_framed as u3 w3 E3 F3 H3.
  step (GetMethodID_framed (S c) (c_str name) sig) as mid w4 E4 F4 H4.
  step check_framed as u5 w5 E5 F5 H5.
  carry.
  destruct mid; first [apply throw_framed | by apply runs_ret].
Qed.

Lemma getStaticMethodInfo_rec_framed (cls name sig : string) :
  framed True (Tools.getStaticMethodInfo_rec check cls name sig)
    (fun w mi w' => owns_fresh_class (length (refs w)) mi w').
Proof.
  intros w. unfold Tools.getStaticMethodInfo_rec.
  step (FindClass_framed (c_str cls)) as c w1 E F H.
  step check_framed as u w2 E2 F2 H2.
  destruct c as [|c]; [apply throw_framed|].
  step (GetStaticMethodID_framed (S c) (c_str name) sig) as mid w4 E4 F4 H4.
  step check_framed as u5 w5 E5 F5 H5.
  carry.
  destruct mid; first [apply throw_framed | by apply runs_ret].
Qed.

Lemma checkException_step_framed :
  framed True (Tools.checkException_step check) any_ret.
Proof.
  intros w. unfold Tools.checkException_step.
  step ExceptionCheck_framed as raised w1 E F H.
  destruct raised; [|by apply runs_ret].
  step ExceptionOccurred_framed as jt w2 E2 F2 H2.
  unfold JNI.ExceptionDescribe. apply runs_bind_ret.
  step ExceptionClear_framed as u3 w3 E3 F3 H3.
  step (getMethodInfo_rec_framed "java/lang/Throwable" "getMessage"
          "()Ljava/lang/String;") as mi w4 E4 F4 H4.
  eapply runs_conseq; [|done].
  eapply runs_unwind with (Q := fun _ _ => True).
  - step (CallObjectMethod_framed jt (methodId mi) []) as msg w5 E5 F5 H5.
    step (toString_rec_framed msg) as s w6 E6 F6 H6.
    apply throw_framed.
  - intros w5 F5. apply JNIMethodInfo_destructor_runs.
    destruct H4 as [Hw [->|[Hc _]]]; [by right; left|].
    right; right. len_facts. lia.
Qed.
End RecursiveFramed.

Lemma ret_framed {A} (a : A) : framed True (ret a) any_ret.
Proof. intros w. by apply runs_ret. Qed.

Lemma checkException_framed : framed True Tools.checkException any_ret.
Proof.
  intros w. unfold runs. rewrite checkException_unbounded.
  apply (checkException_step_framed (ret tt) (ret_framed tt) w).
Qed.

Lemma toString_framed (str : jobject) : framed True (Tools.toString str) any_ret.
Proof. apply toString_rec_framed, checkException_framed. Qed.

Lemma getMethodInfo_class_framed (cls : jobject) (name sig : string) :
  framed True (Tools.getMethodInfo_class cls name sig)
    (fun _ mi _ => weak_ mi = true).
Proof. apply getMethodInfo_class_rec_framed, checkException_framed. Qed.

Lemma getMethodInfo_framed (cls name sig : string) :
  framed True (Tools.getMethodInfo cls name sig)
    (fun w mi w' => owns_fresh_class (length (refs w)) mi w').
Proof. apply getMethodInfo_rec_framed, checkException_framed. Qed.

Lemma getStaticMethodInfo_framed (cls name sig : string) :
  framed True (Tools.getStaticMethodInfo cls name sig)
    (fun w mi w' => owns_fresh_class (length (refs w)) mi w').
Proof. apply getStaticMethodInfo_rec_framed, checkException_framed. Qed.

Lemma clearException_framed : framed True Tools.clearException any_ret.
Proof.
  intros w. unfold Tools.clearException.
  step ExceptionCheck_framed as raised w1 E F H.
  destruct raised; [|by apply runs_ret].
  step ExceptionOccurred_framed as jt w2 E2 F2 H2.
  unfold JNI.ExceptionDescribe. apply runs_bind_ret.
  step ExceptionClear_framed as u3 w3 E3 F3 H3.
  step (getMethodInfo_framed "java/lang/Throwable" "getMessage"
          "()Ljava/lang/String;") as mi w4 E4 F4 H4.
  eapply runs_conseq; [|done].
  eapply runs_unwind with (Q := fun _ _ => True).
  - step (CallObjectMethod_framed jt (methodId mi) []) as msg w5 E5 F5 H5.
    step (toString_framed msg) as s w6 E6 F6 H6.
    eapply runs_weaken; [|eapply runs_conseq; [apply emit_log_framed|done]].
    len_facts. lia.
  - intros w5 F5. apply JNIMethodInfo_destructor_runs.
    destruct H4 as [Hw [->|[Hc _]]]; [by right; left|].
    right; right. len_facts. lia.
Qed.

Lemma JNIMethodInfo_destructor_ok (mi : JNIMethodInfo) (w : World) :
  healthy w -> (Tools.JNIMethodInfo_destructor mi w).1 = Ok tt.
Proof.
  intros Hh. unfold Tools.JNIMethodInfo_destructor.
  destruct (weak_ mi); [done|]. destruct (classId mi); [done|].
  attach. reflexivity.
Qed.

(** At teardown a pending failure is drained and logged, never thrown. *)
Lemma clearException_ok (w : World) :
  healthy w -> (Tools.clearException w).1 = Ok tt.
Proof.
  intros Hh. unfold Tools.clearException.
  destruct (pending w) as [t|] eqn:Hp.
  2:{ assert (E0 : JNI.ExceptionCheck w = (Ok false, w))
        by (unfold JNI.ExceptionCheck; by rewrite Hp).
      by rewrite (bind_ok _ _ _ _ _ E0). }
  assert (E0 : JNI.ExceptionCheck w = (Ok true, w))
    by (unfold JNI.ExceptionCheck; by rewrite Hp).
  rewrite (bind_ok _ _ _ _ _ E0).
  assert (E1 : JNI.ExceptionOccurred w =
               (Ok (S (length (refs w))), (local_ref_to (JThrowable t) w).2))
    by (unfold JNI.ExceptionOccurred; by rewrite Hp).
  rewrite (bind_ok _ _ _ _ _ E1).
  pose proof (deref_local_ref_to (JThrowable t) w) as D1.
  set (w1 := (local_ref_to (JThrowable t) w).2) in *.
  unfold JNI.ExceptionDescribe. rewrite bind_ret.
  rewrite (bind_ok JNI.ExceptionClear _ w1 (set_pending w1 None) tt eq_refl).
  unfold Tools.getMethodInfo.
  rewrite (bind_ok _ _ _ _ _
             (getMessage_info Tools.checkException (set_pending w1 None)
                checkException_quiet eq_refl)).
  set (cls := S (length (refs (set_pending w1 None)))).
  set (w3 := (emit _ _).2).
  assert (D3 : deref w3 (S (length (refs w))) = Some (JThrowable t)).
  { apply (stable_deref (set_pending w1 None)); [|exact D1].
    eapply stable_trans; [|apply stable_emit].
    destruct (local_ref_to_run (JClass "java/lang/Throwable") (set_pending w1 None))
      as (w' & E & S & _). by rewrite E. }
  assert (P3 : pending w3 = None) by reflexivity.
  unfold unwind. cbn [methodId classId weak_].
  rewrite bind_unfold, (CallObjectMethod_getMessage w3 _ t D3).
  assert (Hd : forall s', healthy s' ->
            (Tools.JNIMethodInfo_destructor
              {| classId := cls; methodId := MGetMessage; weak_ := false |} s').1 =
              Ok tt).
  { intros s' Hs'. by apply JNIMethodInfo_destructor_ok. }
  unfold Tools.toString.
  destruct t as [[s|]|c].
  - rewrite local_ref_to_eq.
    pose proof (deref_local_ref_to (JString s) w3) as D4.
    set (w4 := (local_ref_to (JString s) w3).2) in *.
    rewrite bind_unfold.
    rewrite (toString_rec_quiet _ _ w4 checkException_quiet) by done.
    rewrite (toString_flat_string w4 _ s D4). unfold emit.
    specialize (Hd (set_trace w4 (trace w4 ++ [EvLog (c_str (c_str s))])) Hh).
    destruct (Tools.JNIMethodInfo_destructor _ _) as [[[]|?|?] ?]; by simplify_eq.
  - rewrite (bind_ok (Tools.toString_rec Tools.checkException NULL) _ w3 w3 ""
               eq_refl).
    unfold emit.
    specialize (Hd (set_trace w3 (trace w3 ++ [EvLog (c_str "")])) Hh).
    destruct (Tools.JNIMethodInfo_destructor _ _) as [[[]|?|?] ?]; by simplify_eq.
  - rewrite (bind_ok (Tools.toString_rec Tools.checkException NULL) _ _ _ ""
               eq_refl).
    unfold emit.
    specialize (Hd (set_trace (set_pending w3 (Some c))
                      (trace (set_pending w3 (Some c)) ++ [EvLog (c_str "")])) Hh).
    destruct (Tools.JNIMethodInfo_destructor _ _) as [[[]|?|?] ?]; by simplify_eq.
Qed.

(** *** The outbound conversions are framed *)

Lemma fresh_handle_range (n : nat) (w w' : World) (h : jobject) :
  fresh_handle n w h -> length (refs w) <= length (refs w') ->
  h = NULL \/ n < h <= length (refs w').
Proof. intros [->|[[? ?] _]] Hl; [by left|right; lia]. Qed.

(** Deleting [h], which the function made itself. *)
Tactic Notation "step_delete" constr(Hf) "as" ident(w1) ident(E) ident(F) ident(H) :=
  lazymatch goal with
  | |- runs ?n ?ok ?w (bind (JNI.DeleteLocalRef ?h) ?k) ?Q =>
      eapply (runs_bind n n ok w _ k);
      [ lia
      | apply runs_delete;
        eapply fresh_handle_range;
        [ eapply fresh_handle_weaken; [|exact Hf]; len_facts; lia
        | len_facts; lia ]
      | intros [] w1 E F H ]
  end.

(** A live reference survives the deletion of another one. *)
Lemma fresh_handle_delete (n : nat) (w w' : World) (h d : jobject) :
  fresh_handle n w h -> h = NULL \/ h <> d ->
  length (refs w') = length (refs w) /\
  (forall h', h' <> d -> local_live w' h' = local_live w h') ->
  fresh_handle n w' h.
Proof.
  intros [->|[[? ?] Hl]] Hne [Hlen Hlive]; [by left|right].
  split; [lia|]. destruct Hne as [->|Hne]; [unfold NULL in *; lia|].
  by rewrite Hlive.
Qed.

(** Carrying the freshness [Hf] of a reference to the state [w']. *)
Ltac carry_go H w' :=
  lazymatch type of H with
  | fresh_handle ?n w' ?h => exact H
  | fresh_handle ?n ?w ?h =>
      match goal with
      | F : frame (length (refs w)) [] w ?w2 |- _ =>
          carry_go (fresh_handle_frame n w w2 h H F) w'
      end
  end.

Tactic Notation "carry" constr(Hf) "to" constr(w') "as" ident(Hn) :=
  unfold fresh_ret in Hf;
  lazymatch type of Hf with
  | fresh_handle ?n _ ?h =>
      assert (Hn : fresh_handle n w' h) by carry_go Hf w'
  end.

(** The last step of a sequence, when nothing is asked of its result. *)
Ltac finish L :=
  eapply runs_weaken;
  [ | eapply runs_ok_weaken; [ | eapply runs_conseq; [ apply L | ] ] ];
  [ len_facts; lia | tauto | intros; exact I ].

Lemma toJString_chars_framed (str : string) :
  framed True (Tools.toJString_chars str) fresh_ret.
Proof. apply New_framed. Qed.

Lemma toJString_framed (str : string) : framed True (Tools.toJString str) fresh_ret.
Proof. apply New_framed. Qed.

Lemma toJObjectArray_loop_framed (joa : jobject) (data : list string) :
  forall i, framed True (Tools.toJObjectArray_loop joa i data) any_ret.
Proof.
  induction data as [|s data IH]; intros i w; simpl.
  - by apply runs_ret.
  - step (toJString_framed s) as jstr w1 E F H.
    step (SetObjectArrayElement_framed joa i jstr) as u w2 E2 F2 H2.
    finish (IH (S i)).
Qed.

Lemma toJObjectArray_framed (data : list string) :
  framed True (Tools.toJObjectArray data) fresh_ret.
Proof.
  intros w. unfold Tools.toJObjectArray.
  step (FindClass_framed "java/lang/String") as cls w1 E F H.
  cbv zeta.
  step (NewObjectArray_framed (length data) cls NULL) as joa w2 E2 F2 H2.
  step (toJObjectArray_loop_framed joa data 0) as u w3 E3 F3 H3.
  carry H to w3 as Hc3. carry H2 to w3 as Hj3.
  step_delete Hc3 as w4 E4 F4 H4.
  assert (Hj : fresh_handle (length (refs w)) w4 joa).
  { eapply (fresh_handle_delete _ w3 w4 joa cls); [|..|exact H4].
    - eapply fresh_handle_weaken; [|exact Hj3]. len_facts. lia.
    - destruct H2 as [->|[[? ?] _]]; [by left|right].
      destruct H as [->|[[? ?] _]]; [unfold NULL in *; lia|]. len_facts. lia. }
  step checkException_framed as u5 w5 E5 F5 H5.
  apply runs_ret. by apply (fresh_handle_frame _ w4).
Qed.

Lemma toJObjectArray_bytes_framed (data : list byte) :
  framed True (Tools.toJObjectArray_bytes data) fresh_ret.
Proof.
  intros w. unfold Tools.toJObjectArray_bytes.
  step (NewByteArray_framed (length data)) as jba w1 E F H.
  step (SetByteArrayRegion_framed jba 0 (length data) data) as u w2 E2 F2 H2.
  step checkException_framed as u3 w3 E3 F3 H3.
  apply runs_ret. carry H to w3 as Hj. exact Hj.
Qed.

Lemma toHashMap_loop_framed (hashmap : jobject) (mid : jmethodID)
    (data : list (string * string)) :
  framed True (Tools.toHashMap_loop hashmap mid data) any_ret.
Proof.
  induction data as [|item data IH]; intros w; simpl.
  - by apply runs_ret.
  - step (NewStringUTF_framed (c_str item.1)) as key w1 E F H.
    step (NewStringUTF_framed (c_str item.2)) as val w2 E2 F2 H2.
    step (CallObjectMethod_framed hashmap mid [JRef key; JRef val]) as r w3 E3 F3 H3.
    carry H to w3 as Hk. carry H2 to w3 as Hv.
    step_delete Hk as w4 E4 F4 H4.
    assert (Hv4 : fresh_handle (length (refs w)) w3 val).
    { eapply fresh_handle_weaken; [|exact Hv]. len_facts. lia. }
    eapply (runs_bind _ (length (refs w))); [lia| |].
    + apply runs_delete. destruct H4 as [Hl _].
      destruct Hv4 as [->|[[? ?] _]]; [by left|right]. lia.
    + intros [] w5 E5 F5 H5. destruct H4 as [Hl4 _], H5 as [Hl5 _].
      eapply runs_weaken; [|eapply runs_conseq; [apply IH|]];
        [len_facts; lia | intros; exact I].
Qed.

Lemma toHashMap_framed (data : list (string * string)) :
  framed True (Tools.toHashMap data) fresh_ret.
Proof.
  intros w. unfold Tools.toHashMap.
  step (FindClass_framed "java/util/HashMap") as cls w1 E F H.
  step (GetMethodID_framed cls "<init>" "()V") as init w2 E2 F2 H2.
  step (NewObject_framed cls init []) as hashmap w3 E3 F3 H3.
  step (GetMethodID_framed cls "put"
          "(Ljava/lang/Object;Ljava/lang/Object;)Ljava/lang/Object;")
    as put w4 E4 F4 H4.
  step (toHashMap_loop_framed hashmap put data) as u w5 E5 F5 H5.
  carry H to w5 as Hc. carry H3 to w5 as Hm.
  step_delete Hc as w6 E6 F6 H6.
  assert (Hj : fresh_handle (length (refs w)) w6 hashmap).
  { eapply (fresh_handle_delete _ w5 w6 hashmap cls); [|..|exact H6].
    - eapply fresh_handle_weaken; [|exact Hm]. len_facts. lia.
    - destruct H3 as [->|[[? ?] _]]; [by left|right].
      destruct H as [->|[[? ?] _]]; [unfold NULL in *; lia|]. len_facts. lia. }
  step checkException_framed as u7 w7 E7 F7 H7.
  apply runs_ret. by apply (fresh_handle_frame _ w6).
Qed.

Lemma CPPToJNIConversor_convert_framed (arg : cvalue) :
  framed (convertible arg) (CPPToJNIConversor_convert arg) (registrable arg).
Proof.
  intros w. unfold CPPToJNIConversor_convert.
  destruct arg; simpl convertible;
    try (eapply runs_ok_weaken; [|apply abort_framed]; tauto);
    try (apply runs_ret; by intros h [=]).
  - step (toJString_framed s) as h w1 E F H.
    apply runs_ret. by intros h' [= <-] _.
  - step (toJString_chars_framed s) as h w1 E F H.
    apply runs_ret. by intros h' [= <-] _.
  - step (toJObjectArray_framed l) as h w1 E F H.
    apply runs_ret. by intros h' [= <-] _.
  - step (toJObjectArray_bytes_framed l) as h w1 E F H.
    apply runs_ret. by intros h' [= <-] _.
  - step (toHashMap_framed m) as h w1 E F H.
    apply runs_ret. by intros h' [= <-] _.
Qed.

(** *** The inbound conversions and [JNICaller] are framed *)

Lemma toVectorString_loop_framed (array : jobject) (n : nat) :
  forall i result,
    framed True (Tools.toVectorString_loop array i n result) any_ret.
Proof.
  induction n as [|n IH]; intros i result w; simpl.
  - by apply runs_ret.
  - step (GetObjectArrayElement_framed array i) as v w1 E F H.
    step (toString_framed v) as s w2 E2 F2 H2.
    carry H to w2 as Hv.
    step_delete Hv as w3 E3 F3 H3.
    destruct H3 as [Hl _].
    eapply runs_weaken; [|eapply runs_conseq; [apply IH|]];
      [len_facts; lia | intros; exact I].
Qed.

Lemma toVectorString_framed (array : jobject) :
  framed True (Tools.toVectorString array) any_ret.
Proof.
  intros w. unfold Tools.toVectorString.
  eapply (runs_bind _ (length (refs w)) _ _ _ _ (fun _ _ => True)); [lia| |].
  - destruct array as [|a]; [by apply runs_ret|].
    step (GetArrayLength_framed (S a)) as len w1 E F H.
    finish (toVectorString_loop_framed (S a) len 0 []).
  - intros result w1 E F _.
    step checkException_framed as u w2 E2 F2 H2. by apply runs_ret.
Qed.

Lemma toVectorByte_framed (array : jobject) :
  framed True (Tools.toVectorByte array) any_ret.
Proof.
  intros w. unfold Tools.toVectorByte.
  destruct array as [|a]; [by apply runs_ret|].
  step (GetArrayLength_framed (S a)) as size w1 E F H.
  step (GetByteArrayRegion_framed (S a) 0 size (replicate size x00))
    as result w2 E2 F2 H2.
  step checkException_framed as u w3 E3 F3 H3. by apply runs_ret.
Qed.

Lemma toVectorJObject_loop_framed (array : jobject) (n : nat) :
  forall i result,
    framed True (Tools.toVectorJObject_loop array i n result) any_ret.
Proof.
  induction n as [|n IH]; intros i result w; simpl.
  - by apply runs_ret.
  - step (GetObjectArrayElement_framed array i) as v w1 E F H.
    finish (IH (S i) (result ++ [v])).
Qed.

Lemma toVectorJObject_framed (array : jobject) :
  framed True (Tools.toVectorJObject array) any_ret.
Proof.
  intros w. unfold Tools.toVectorJObject.
  destruct array as [|a]; [by apply runs_ret|].
  step (GetArrayLength_framed (S a)) as len w1 E F H.
  finish (toVectorJObject_loop_framed (S a) len 0 []).
Qed.

Lemma JNIToCPPConversor_convert_framed (T : ctype) (obj : jobject) :
  caller_of T = CallerDefault ->
  framed (callable T) (JNIToCPPConversor_convert T obj) any_ret.
Proof.
  intros HT w. unfold JNIToCPPConversor_convert.
  destruct T; try discriminate HT; simpl callable.
  - step (toString_framed obj) as s w1 E F H. by apply runs_ret.
  - step (toVectorString_framed obj) as s w1 E F H. by apply runs_ret.
  - step (toVectorByte_framed obj) as s w1 E F H. by apply runs_ret.
  - step (toVectorJObject_framed obj) as s w1 E F H. by apply runs_ret.
  - eapply runs_ok_weaken; [|apply abort_framed]; tauto.
Qed.

(** Converting a returned reference and deleting it, in a function that
    started with [n] references and made [obj] itself. *)
Lemma convert_and_delete_runs (n : nat) (T : ctype) (obj : jobject) (w : World) :
  caller_of T = CallerDefault -> n <= length (refs w) ->
  fresh_handle n w obj ->
  runs n (callable T) w (JNICaller.convert_and_delete T obj) (fun _ _ => True).
Proof.
  intros HT Hn Hf. unfold JNICaller.convert_and_delete.
  step (JNIToCPPConversor_convert_framed T obj HT) as r w1 E F H.
  destruct obj as [|o]; [by apply runs_ret|].
  eapply (runs_bind n n); [lia| |].
  - apply runs_delete. eapply fresh_handle_range; [exact Hf|]. len_facts. lia.
  - intros [] w2 _ _ _. by apply runs_ret.
Qed.

Lemma call_framed (T : ctype) (recv : jobject) (mid : jmethodID)
    (v : list jvalue) :
  framed (callable T) (JNICaller.call T recv mid v) any_ret.
Proof.
  intros w. unfold JNICaller.call.
  destruct (caller_of T) eqn:HT.
  - step (CallObjectMethod_framed recv mid v) as obj w1 E F H.
    eapply runs_conseq; [apply convert_and_delete_runs|done];
      [done | len_facts; lia | exact H].
  - step (CallObjectMethod_framed recv mid v) as obj w1 E F H. by apply runs_ret.
  - eapply runs_ok_weaken; [|apply abort_framed]. by destruct T.
  - step (CallVoidMethod_framed recv mid v) as u w1 E F H. by apply runs_ret.
  - step (CallPrimitiveMethod_framed recv mid v) as z w1 E F H. by apply runs_ret.
Qed.

Lemma callNonVirtual_framed (T : ctype) (inst cls : jobject) (mid : jmethodID)
    (v : list jvalue) :
  framed (T = TVoid) (JNICaller.callNonVirtual T inst cls mid v) any_ret.
Proof.
  intros w. unfold JNICaller.callNonVirtual.
  destruct (caller_of T) eqn:HT;
    try (eapply runs_ok_weaken; [|apply abort_framed]; by intros ->).
  step (CallVoidMethod_framed inst mid v) as u w1 E F H. by apply runs_ret.
Qed.

(** *** Marshaling the arguments *)

Lemma frame_register (n : nat) (w : World) (h : jobject) :
  frame n [h] w (set_trace w (trace w ++ [EvRegister h])).
Proof.
  constructor; try done; [by left|].
  exists [EvRegister h]. by repeat split.
Qed.

Lemma holds_add (d : JNIParamDestructor) (rs : list jobject) (h : jobject) :
  holds d rs -> currentIndex d < length (jniParams d) ->
  holds {| jniParams := <[currentIndex d := h]> (jniParams d);
           currentIndex := S (currentIndex d) |} (rs ++ [h]).
Proof.
  intros [Hi [k Hp]] Hlt. split; simpl.
  - rewrite length_app. simpl. lia.
  - rewrite Hp, length_app, length_replicate in Hlt.
    destruct k as [|k]; [lia|]. exists k.
    rewrite Hp, Hi. simpl.
    rewrite insert_app_r_alt by lia. rewrite Nat.sub_diag. simpl.
    by rewrite <- app_assoc.
Qed.

Lemma lift_unfold {L S A} (m : M S A) (l : L) (s : S) :
  lift m (l, s) = ((m s).1, (l, (m s).2)).
Proof. unfold lift. simpl. by destruct (m s). Qed.

Lemma JNIParamConversor_spec (arg : cvalue) (d d' : JNIParamDestructor)
    (w w' : World) (r : outcome jvalue) :
  JNIParamConversor arg (d, w) = (r, (d', w')) ->
  exists rs,
    (rs = [] \/ exists h, rs = [h] /\ fresh_handle (length (refs w)) w' h) /\
    frame (length (refs w)) rs w w' /\
    (forall rs0, came_back r = true -> holds d rs0 -> holds d' (rs0 ++ rs)) /\
    (came_back r = true ->
     length (jniParams d') = length (jniParams d) /\
     currentIndex d' <= S (currentIndex d)) /\
    (convertible arg -> healthy w -> room d 1 -> came_back r = true).
Proof.
  destruct (CPPToJNIConversor_convert_framed arg w) as (F & C & HQ).
  unfold JNIParamConversor. rewrite bind_unfold, lift_unfold.
  destruct (CPPToJNIConversor_convert arg w) as [[j|e|a] w1] eqn:E; cbn [fst snd] in *.
  2,3: (intros [= <- <- <-]; exists []; split; [by left|]; split; [exact F|];
        split; [by intros rs0 _; rewrite app_nil_r|]; split;
        [intros; split; [done|lia]|]; intros; by auto).
  specialize (HQ j eq_refl).
  destruct (needDeleteLocal arg) eqn:Hn.
  2:{ rewrite bind_ret. intros [= <- <- <-]. exists [].
      split; [by left|]. split; [exact F|]. split;
        [by intros rs0 _; rewrite app_nil_r|].
      split; [intros; split; [done|lia]|]. done. }
  destruct j as [h|z].
  2:{ simpl JNIDestructorDecider_decide. rewrite bind_ret.
      intros [= <- <- <-]. exists [].
      split; [by left|]. split; [exact F|]. split;
        [by intros rs0 _; rewrite app_nil_r|].
      split; [intros; split; [done|lia]|]. done. }
  simpl JNIDestructorDecider_decide. rewrite bind_unfold. unfold add. cbn [fst snd].
  destruct (Nat.eqb_spec (length (jniParams d)) 0) as [Hz|Hnz].
  { cbv iota beta. intros [= <- <- <-]. exists [].
    split; [by left|]. split; [exact F|]. split; [done|].
    split; [done|]. intros _ _ Hr. unfold room in Hr. lia. }
  destruct (Nat.ltb_spec (currentIndex d) (length (jniParams d))) as [Hlt|Hge].
  - cbv iota beta. unfold ret. intros [= <- <- <-].
    exists [h]. split; [right; exists h; split; [done|]|].
    { specialize (HQ h eq_refl Hn).
      destruct HQ as [->|[? ?]]; [by left|by right]. }
    split.
    { change [h] with ([] ++ [h]).
      eapply frame_trans; [exact F|apply frame_register]. }
    split; [intros rs0 _ Hh; by apply holds_add|].
    split; [intros; split; [simpl; by rewrite length_insert|simpl; lia]|]. done.
  - cbv iota beta. intros [= <- <- <-]. exists [].
    split; [by left|]. split; [exact F|]. split; [done|].
    split; [done|]. intros _ _ Hr. unfold room in Hr. lia.
Qed.

Lemma fresh_handle_frame_rs (n : nat) (rs : list jobject) (w w' : World) (h : jobject) :
  fresh_handle n w h -> frame (length (refs w)) rs w w' ->
  fresh_handle n w' h.
Proof.
  intros [->|[[H1 H2] H3]] F; [by left|right].
  pose proof (fr_len _ _ _ _ F). split; [lia|].
  rewrite (frame_live (length (refs w)) rs w w'); try done; lia.
Qed.

Lemma nonnull_app (a b : list jobject) : nonnull (a ++ b) = nonnull a ++ nonnull b.
Proof. induction a as [|[|h] a IH]; simpl; by rewrite ?IH. Qed.

Lemma in_nonnull (h : jobject) (l : list jobject) :
  In h (nonnull l) <-> In h l /\ h <> NULL.
Proof.
  induction l as [|[|x] l IH]; simpl.
  - tauto.
  - rewrite IH. unfold NULL. split; [tauto|]. intros [[<-|?] ?]; tauto.
  - rewrite IH. unfold NULL. split.
    + intros [<-|[? ?]]; [split; [by left|done]|tauto].
    + intros [[<-|?] ?]; tauto.
Qed.

Lemma NoDup_nonnull_short (P : jobject -> Prop) (rs : list jobject) :
  rs = [] \/ (exists h, rs = [h] /\ P h) -> NoDup (nonnull rs).
Proof.
  intros [->|(h & -> & _)]; [constructor|].
  destruct h; simpl; [constructor|apply NoDup_singleton].
Qed.

Lemma came_back_bind {S A B} (m : M S A) (k : A -> M S B) (s : S) :
  came_back (bind m k s).1 = true -> came_back (m s).1 = true.
Proof.
  rewrite bind_unfold. by destruct (m s) as [[a|e|r] s'].
Qed.

Lemma convert_params_spec (v : list cvalue) :
  forall (d d' : JNIParamDestructor) (w w' : World) (r : outcome (list jvalue)),
    convert_params v (d, w) = (r, (d', w')) ->
    exists rs,
      frame (length (refs w)) rs w w' /\
      Forall (fresh_handle (length (refs w)) w') rs /\
      NoDup (nonnull rs) /\
      (forall rs0, came_back r = true -> holds d rs0 -> holds d' (rs0 ++ rs)) /\
      (came_back r = true ->
       length (jniParams d') = length (jniParams d) /\
       currentIndex d' <= currentIndex d + length v) /\
      (Forall convertible v -> healthy w -> room d (length v) ->
       came_back r = true).
Proof.
  induction v as [|arg rest IH]; intros d d' w w' r.
  - simpl. intros [= <- <- <-]. exists [].
    split; [apply frame_refl|]. split; [constructor|]. split; [constructor|].
    split; [by intros rs0 _; rewrite app_nil_r|].
    split; [intros; split; [done|lia]|]. done.
  - cbn [convert_params]. rewrite bind_unfold.
    destruct (JNIParamConversor arg (d, w)) as [r1 [d1 w1]] eqn:E1.
    destruct (JNIParamConversor_spec _ _ _ _ _ _ E1)
      as (rs1 & Hrs1 & F1 & Hh1 & Hl1 & Hc1).
    assert (Hstop : forall r0 : outcome (list jvalue),
              came_back r0 = came_back r1 ->
              exists rs,
                frame (length (refs w)) rs w w1 /\
                Forall (fresh_handle (length (refs w)) w1) rs /\
                NoDup (nonnull rs) /\
                (forall rs0, came_back r0 = true -> holds d rs0 ->
                             holds d1 (rs0 ++ rs)) /\
                (came_back r0 = true ->
                 length (jniParams d1) = length (jniParams d) /\
                 currentIndex d1 <= currentIndex d + length (arg :: rest)) /\
                (Forall convertible (arg :: rest) -> healthy w ->
                 room d (length (arg :: rest)) -> came_back r1 = true)).
    { intros r0 Hr0. exists rs1. split; [exact F1|]. split.
      { destruct Hrs1 as [->|(h & -> & Hf)];
          [constructor|constructor; [exact Hf|constructor]]. }
      split; [by eapply NoDup_nonnull_short|].
      split; [intros rs0 Hb; apply Hh1; congruence|].
      split.
      - intros Hb. rewrite Hr0 in Hb. destruct (Hl1 Hb). split; [done|simpl; lia].
      - intros Hv Hw Hr. apply Hc1; [by inversion Hv|done|].
        unfold room in *. simpl in Hr. lia. }
    destruct r1 as [j|e|a].
    2:{ intros [= <- <- <-].
        destruct (Hstop (Throw e) eq_refl) as (rs & ? & ? & ? & ? & ? & ?).
        by exists rs. }
    2:{ intros [= <- <- <-].
        destruct (Hstop (Abort a) eq_refl) as (rs & ? & ? & ? & ? & ? & ?).
        by exists rs. }
    clear Hstop.
    rewrite bind_unfold.
    destruct (convert_params rest (d1, w1)) as [r2 [d2 w2]] eqn:E2.
    destruct (IH _ _ _ _ _ E2) as (rs2 & F2 & Hf2 & Hn2 & Hh2 & Hl2 & Hc2).
    pose proof (fr_len _ _ _ _ F1) as L1.
    intros Hr.
    assert (d' = d2 /\ w' = w2 /\ (came_back r = came_back r2)) as (-> & -> & Hcb).
    { destruct r2; unfold ret in Hr; by simplify_eq. }
    clear Hr. exists (rs1 ++ rs2).
    split; [eapply frame_trans; [exact F1|eapply frame_weaken; [|exact F2]; lia]|].
    split.
    { apply Forall_app_2.
      - destruct Hrs1 as [->|(h & -> & Hf)];
          [constructor|constructor; [|constructor]].
        by apply (fresh_handle_frame_rs _ rs2 w1).
      - eapply Forall_impl; [exact Hf2|]. intros h Hf.
        eapply fresh_handle_weaken; [|exact Hf]. lia. }
    split.
    { rewrite nonnull_app. apply (proj2 (NoDup_app _ _)). split; [|split; [|exact Hn2]].
      - by eapply NoDup_nonnull_short.
      - intros x Hx1 Hx2. apply list_elem_of_In, in_nonnull in Hx1.
        apply list_elem_of_In, in_nonnull in Hx2.
        destruct Hx1 as [Hx1 Hnz], Hx2 as [Hx2 _].
        destruct Hrs1 as [->|(h & -> & Hf)]; [by destruct Hx1|].
        destruct Hx1 as [<-|[]].
        destruct Hf as [->|[[? ?] _]]; [done|].
        rewrite Forall_forall in Hf2. apply list_elem_of_In, Hf2 in Hx2.
        destruct Hx2 as [->|[[? ?] _]]; [done|]. lia. }
    split.
    { intros rs0 Hb Hd. rewrite app_assoc. apply Hh2; [congruence|].
      by apply Hh1. }
    split.
    { intros Hb. rewrite Hcb in Hb. destruct (Hl2 Hb) as [Ha Hi].
      destruct (Hl1 ltac:(done)) as [Ha1 Hi1]. split; [congruence|simpl; lia]. }
    intros Hv Hw Hroom. rewrite Hcb. inversion Hv as [|? ? Hv1 Hv2]; subst.
    apply Hc2; [done|by apply (frame_healthy _ _ _ _ F1)|].
    destruct (Hl1 ltac:(done)) as [Ha1 Hi1].
    unfold room in *. simpl in Hroom. lia.
Qed.

(** *** The destructor of the parameter set *)

Lemma frame_delete (n : nat) (w : World) (h : jobject) :
  h = NULL \/ n < h <= length (refs w) ->
  frame n [] w (JNI.DeleteLocalRef h w).2 /\
  trace (JNI.DeleteLocalRef h w).2 = trace w ++ [EvDeleteLocalRef h] /\
  length (refs (JNI.DeleteLocalRef h w).2) = length (refs w).
Proof.
  intros Hh. destruct (runs_delete n True w h Hh) as (F & _ & H).
  split; [exact F|]. destruct (H tt eq_refl) as [Hl _]. split; [|exact Hl].
  unfold JNI.DeleteLocalRef. cbn [snd].
  by destruct (kill_ref_fields false h
                 (set_trace w (trace w ++ [EvDeleteLocalRef h])))
    as (_ & _ & _ & _ & _ & -> & _).
Qed.

Lemma delete_params_spec (n : nat) (ps : list jobject) :
  forall w,
    (forall h, In h ps -> h = NULL \/ n < h <= length (refs w)) ->
    exists w',
      delete_params ps w = (Ok tt, w') /\
      frame n [] w w' /\
      trace w' = trace w ++ map EvDeleteLocalRef (nonnull ps) /\
      length (refs w') = length (refs w).
Proof.
  induction ps as [|p ps IH]; intros w Hps.
  - exists w. simpl. split; [done|]. split; [apply frame_refl|].
    by rewrite app_nil_r.
  - destruct p as [|p].
    + simpl. apply IH. intros h Hh. apply Hps. by right.
    + cbn [delete_params nonnull]. rewrite bind_unfold.
      destruct (frame_delete n w (S p) (Hps (S p) (or_introl eq_refl)))
        as (F & T & L).
      destruct (JNI.DeleteLocalRef (S p) w) as [[[]|?|?] w1] eqn:E;
        try (unfold JNI.DeleteLocalRef in E; discriminate).
      cbn [snd] in *.
      destruct (IH w1) as (w' & E' & F' & T' & L').
      { intros h Hh. rewrite L. apply Hps. by right. }
      exists w'. split; [exact E'|]. split; [by apply (frame_trans0 n w w1)|].
      split; [|congruence]. rewrite T', T. simpl. by rewrite <- app_assoc.
Qed.

Lemma dels_map_delete (hs : list jobject) : dels (map EvDeleteLocalRef hs) = hs.
Proof. induction hs as [|h hs IH]; simpl; by rewrite ?IH. Qed.

Lemma regs_map_delete (hs : list jobject) : regs (map EvDeleteLocalRef hs) = [].
Proof. induction hs as [|h hs IH]; simpl; by rewrite ?IH. Qed.

Lemma nonnull_replicate (k : nat) : nonnull (replicate k NULL) = [].
Proof. induction k as [|k IH]; simpl; by rewrite ?IH. Qed.

Lemma times_deleted_app (h : jobject) (a b : list event) :
  times_deleted h (a ++ b) = times_deleted h a + times_deleted h b.
Proof. unfold times_deleted. by rewrite dels_app, count_occ_app. Qed.

Lemma times_deleted_none (h : jobject) (evs : list event) :
  ~ In h (dels evs) -> times_deleted h evs = 0.
Proof. intros H. by apply count_occ_not_In. Qed.

Lemma times_deleted_once (h : jobject) (hs : list jobject) :
  NoDup hs -> In h hs -> times_deleted h (map EvDeleteLocalRef hs) = 1.
Proof.
  intros Hn Hh. unfold times_deleted. rewrite dels_map_delete.
  apply NoDup_count_occ'; [by apply NoDup_ListNoDup|done].
Qed.

(** *** A marshaled call *)

Lemma holds_new (np : nat) : holds (JNIParamDestructor_new np) [].
Proof. split; [done|]. by exists np. Qed.

(** Up to the destruction of the parameter set: the registered references
    are distinct, in range and not deleted. *)
Lemma marshal_and_invoke_spec (okI : Prop) (v : list cvalue)
    (invoke : list jvalue -> M World cvalue) (d d1 : JNIParamDestructor)
    (w wb : World) (r : outcome cvalue) :
  (forall js, framed okI (invoke js) any_ret) ->
  marshal_and_invoke v invoke (d, w) = (r, (d1, wb)) ->
  exists rs eb,
    trace wb = trace w ++ eb /\ regs eb = rs /\
    frame (length (refs w)) rs w wb /\
    (forall h, In h (dels eb) -> h = NULL \/ length (refs w) < h) /\
    (forall h, In h (dels eb) -> ~ In h (nonnull rs)) /\
    (forall h, In h rs -> h = NULL \/ length (refs w) < h <= length (refs wb)) /\
    NoDup (nonnull rs) /\
    (forall rs0, came_back r = true -> holds d rs0 -> holds d1 (rs0 ++ rs)) /\
    (okI -> Forall convertible v -> room d (length v) -> healthy w ->
     came_back r = true).
Proof.
  intros Hinv. unfold marshal_and_invoke. rewrite bind_unfold.
  destruct (convert_params v (d, w)) as [r1 [d1' w1]] eqn:E1.
  destruct (convert_params_spec _ _ _ _ _ _ E1) as (rs & F1 & Hf & Hnd & Hh & Hl & Hc).
  assert (Hlive : forall h, In h (nonnull rs) -> local_live w1 h = true).
  { intros h Hh'. apply in_nonnull in Hh' as [Hh' Hnz].
    rewrite Forall_forall in Hf. apply list_elem_of_In, Hf in Hh'.
    by destruct Hh' as [->|[_ ?]]. }
  assert (Hrange : forall h, In h rs ->
            h = NULL \/ length (refs w) < h <= length (refs w1)).
  { intros h Hh'. rewrite Forall_forall in Hf. apply list_elem_of_In, Hf in Hh'.
    destruct Hh' as [->|[? _]]; [by left|by right]. }
  pose proof F1 as [_ _ L1 _ (e1 & T1 & G1 & D1)].
  assert (Hstop : forall r0 : outcome cvalue, came_back r0 = came_back r1 ->
            exists rs eb,
              trace w1 = trace w ++ eb /\ regs eb = rs /\
              frame (length (refs w)) rs w w1 /\
              (forall h, In h (dels eb) -> h = NULL \/ length (refs w) < h) /\
              (forall h, In h (dels eb) -> ~ In h (nonnull rs)) /\
              (forall h, In h rs ->
                 h = NULL \/ length (refs w) < h <= length (refs w1)) /\
              NoDup (nonnull rs) /\
              (forall rs0, came_back r0 = true -> holds d rs0 ->
                           holds d1' (rs0 ++ rs)) /\
              (okI -> Forall convertible v -> room d (length v) -> healthy w ->
               came_back r1 = true)).
  { intros r0 Hr0. exists rs, e1. repeat (split; [done|]).
    split; [intros h Hd; destruct (D1 h Hd) as [->|[? _]]; [by left|right; lia]|].
    split.
    { intros h Hd Hin. destruct (D1 h Hd) as [->|[_ Hdead]].
      - by apply in_nonnull in Hin as [_ ?].
      - rewrite (Hlive h Hin) in Hdead. discriminate. }
    split; [exact Hrange|]. split; [exact Hnd|].
    split; [intros rs0 Hb; apply Hh; congruence|]. intros _ Hv Hr Hw. by apply Hc. }
  destruct r1 as [js|e|a].
  2:{ intros [= <- <- <-]. apply (Hstop (Throw e) eq_refl). }
  2:{ intros [= <- <- <-]. apply (Hstop (Abort a) eq_refl). }
  clear Hstop. rewrite lift_unfold. intros [= <- <- <-].
  destruct (Hinv js w1) as (F2 & C2 & _).
  set (w2 := (invoke js w1).2) in *. set (r2 := (invoke js w1).1) in *.
  pose proof F2 as [_ _ L2 _ (e2 & T2 & G2 & D2)].
  exists rs, (e1 ++ e2).
  split; [by rewrite T2, T1, app_assoc|].
  split; [by rewrite regs_app, G1, G2, app_nil_r|].
  split.
  { rewrite <- (app_nil_r rs). eapply frame_trans; [exact F1|].
    eapply frame_weaken; [|exact F2]. lia. }
  split.
  { intros h. rewrite dels_app, in_app_iff. intros [Hd|Hd].
    - destruct (D1 h Hd) as [->|[? _]]; [by left|right; lia].
    - destruct (D2 h Hd) as [->|[? _]]; [by left|right; lia]. }
  split.
  { intros h. rewrite dels_app, in_app_iff. intros [Hd|Hd] Hin.
    - destruct (D1 h Hd) as [->|[_ Hdead]].
      + by apply in_nonnull in Hin as [_ ?].
      + rewrite (Hlive h Hin) in Hdead. discriminate.
    - apply in_nonnull in Hin as [Hin Hnz].
      destruct (Hrange h Hin) as [->|?]; [done|].
      destruct (D2 h Hd) as [->|[? _]]; [done|lia]. }
  split.
  { intros h Hin. destruct (Hrange h Hin) as [->|?]; [by left|right; lia]. }
  split; [exact Hnd|].
  split; [intros rs0 _; by apply Hh|].
  intros Hok Hv Hr Hw. apply C2; [done|]. by apply (frame_healthy _ _ _ _ F1).
Qed.

Lemma in_regs_nonnull (h : jobject) (rs : list jobject) :
  In h rs -> h <> NULL -> In h (nonnull rs).
Proof. intros. by apply in_nonnull. Qed.

(** The whole scope of the parameter set. *)
Lemma with_paramDestructor_spec (okI : Prop) (np : nat) (v : list cvalue)
    (invoke : list jvalue -> M World cvalue) (w : World) :
  (forall js, framed okI (invoke js) any_ret) ->
  exists evs,
    trace (with_paramDestructor np (marshal_and_invoke v invoke) w).2 =
      trace w ++ evs /\
    javaVM (with_paramDestructor np (marshal_and_invoke v invoke) w).2 = javaVM w /\
    attach_status (with_paramDestructor np (marshal_and_invoke v invoke) w).2 =
      attach_status w /\
    length (refs w) <=
      length (refs (with_paramDestructor np (marshal_and_invoke v invoke) w).2) /\
    (forall h, In h (dels evs) -> h = NULL \/ length (refs w) < h) /\
    (forall h, In h (regs evs) -> h = NULL \/ length (refs w) < h) /\
    (came_back (with_paramDestructor np (marshal_and_invoke v invoke) w).1 = true ->
     released_once evs) /\
    (okI -> Forall convertible v -> length v <= np -> healthy w ->
     came_back (with_paramDestructor np (marshal_and_invoke v invoke) w).1 = true).
Proof.
  intros Hinv. unfold with_paramDestructor.
  destruct (marshal_and_invoke v invoke (JNIParamDestructor_new np, w))
    as [r [d1 wb]] eqn:E.
  destruct (marshal_and_invoke_spec okI _ _ _ _ _ _ _ Hinv E)
    as (rs & eb & Tb & Gb & Fb & Db & Dn & Hr & Hnd & Hh & Hc).
  pose proof (fr_len _ _ _ _ Fb) as Lb.
  assert (Hroom : length v <= np -> room (JNIParamDestructor_new np) (length v)).
  { intros Hv. unfold room. simpl. by rewrite length_replicate. }
  unfold unwind.
  destruct r as [a|e|a].
  3:{ cbn [fst snd]. exists eb.
      split; [done|]. split; [apply (fr_vm _ _ _ _ Fb)|].
      split; [apply (fr_status _ _ _ _ Fb)|]. split; [done|]. split; [done|].
      split; [intros h Hin; rewrite Gb in Hin;
              destruct (Hr h Hin) as [->|?]; [by left|right; lia]|].
      split; [done|]. intros Hok Hv Hn Hw. by apply Hc; auto. }
  all: specialize (Hh [] eq_refl (holds_new np)); simpl in Hh;
    destruct Hh as [_ [k Hk]];
    unfold JNIParamDestructor_destructor; rewrite bind_unfold;
    destruct (delete_params_spec (length (refs w)) (jniParams d1) wb)
      as (w3 & E3 & F3 & T3 & L3);
    [ intros h Hin; rewrite Hk in Hin; apply in_app_iff in Hin as [Hin|Hin];
      [ by apply Hr
      | apply list_elem_of_In, elem_of_replicate in Hin as [-> _]; by left ] | ];
    rewrite E3;
    destruct (clearException_framed w3) as (F4 & _ & _);
    pose proof (clearException_ok w3) as C4;
    pose proof F4 as [V4 S4 L4 _ (e4 & T4 & G4 & D4)];
    assert (Hn : nonnull (jniParams d1) = nonnull rs)
      by (by rewrite Hk, nonnull_app, nonnull_replicate, app_nil_r);
    rewrite Hn in T3;
    assert (Hfinal :
      trace (Tools.clearException w3).2 =
        trace w ++ (eb ++ map EvDeleteLocalRef (nonnull rs) ++ e4) /\
      javaVM (Tools.clearException w3).2 = javaVM w /\
      attach_status (Tools.clearException w3).2 = attach_status w /\
      length (refs w) <= length (refs (Tools.clearException w3).2) /\
      (forall h, In h (dels (eb ++ map EvDeleteLocalRef (nonnull rs) ++ e4)) ->
                 h = NULL \/ length (refs w) < h) /\
      (forall h, In h (regs (eb ++ map EvDeleteLocalRef (nonnull rs) ++ e4)) ->
                 h = NULL \/ length (refs w) < h) /\
      released_once (eb ++ map EvDeleteLocalRef (nonnull rs) ++ e4) /\
      (healthy w -> (Tools.clearException w3).1 = Ok tt)).
  1,3: (split; [by rewrite T4, T3, Tb, <- !app_assoc|];
        split; [rewrite V4, (fr_vm _ _ _ _ F3); apply (fr_vm _ _ _ _ Fb)|];
        split; [rewrite S4, (fr_status _ _ _ _ F3); apply (fr_status _ _ _ _ Fb)|];
        split; [lia|];
        split; [intros h; rewrite !dels_app, dels_map_delete, !in_app_iff;
                intros [Hd|[Hd|Hd]];
                [ by apply Db
                | apply in_nonnull in Hd as [Hd _];
                  destruct (Hr h Hd) as [->|?]; [by left|right; lia]
                | destruct (D4 h Hd) as [->|[? _]]; [by left|right; lia] ]|];
        split; [intros h; rewrite !regs_app, regs_map_delete, G4, Gb, !app_nil_r;
                intros Hin; destruct (Hr h Hin) as [->|?]; [by left|right; lia]|];
        split;
        [ intros h; rewrite !regs_app, regs_map_delete, G4, Gb, !app_nil_r;
          intros Hin Hnz; rewrite !times_deleted_app;
          rewrite (times_deleted_none h eb)
            by (intros Hd; by apply (Dn h Hd), in_regs_nonnull);
          rewrite (times_deleted_once h (nonnull rs))
            by (done || by apply in_regs_nonnull);
          rewrite (times_deleted_none h e4); [done|];
          intros Hd; destruct (D4 h Hd) as [->|[? _]]; [done|];
          destruct (Hr h Hin) as [->|?]; [done|lia]
        | intros Hw; apply C4;
          apply (frame_healthy _ _ _ _ F3), (frame_healthy _ _ _ _ Fb), Hw ]).
  all: destruct Hfinal as (H1 & H2 & H3 & H4 & H5 & H6 & H7 & H8);
    exists (eb ++ map EvDeleteLocalRef (nonnull rs) ++ e4);
    destruct (Tools.clearException w3) as [[[]|e'|a'] w4] eqn:E4; cbn [fst snd] in *;
    (split; [done|]); (split; [done|]); (split; [done|]); (split; [done|]);
    (split; [done|]); (split; [done|]); (split; [done|]);
    intros Hok Hv Hnp Hw; try done; by specialize (H8 Hw).
Qed.

(** *** The calls of the public API *)

Lemma JNIMethodInfo_destructor_trace (mi : JNIMethodInfo) (w : World) :
  exists evs,
    trace (Tools.JNIMethodInfo_destructor mi w).2 = trace w ++ evs /\
    regs evs = [] /\
    forall h, In h (dels evs) -> weak_ mi = false /\ h = classId mi.
Proof.
  unfold Tools.JNIMethodInfo_destructor.
  destruct (weak_ mi); [exists []; by rewrite app_nil_r|].
  destruct (classId mi) as [|c]; [exists []; by rewrite app_nil_r|].
  rewrite bind_unfold. unfold Tools.attachJniEnv.
  destruct (javaVM w); [|exists []; by rewrite app_nil_r].
  destruct (attach_status w <? 0)%Z.
  - eexists [_]. simpl. split; [reflexivity|]. split; [done|]. by intros h [].
  - rewrite through_attached, bind_ret. unfold JNI.DeleteLocalRef. cbn [snd].
    destruct (kill_ref_fields false (S c)
                (set_trace w (trace w ++ [EvDeleteLocalRef (S c)])))
      as (_ & _ & _ & _ & _ & -> & _).
    exists [EvDeleteLocalRef (S c)]. simpl. split; [done|]. split; [done|].
    by intros h [<-|[]].
Qed.

Lemma resolved_call_safe (okR okI : Prop) (resolve : M World JNIMethodInfo)
    (invoke : JNIMethodInfo -> list jvalue -> M World cvalue)
    (v : list cvalue) (w : World) :
  framed okR resolve resolved ->
  (forall mi js, framed okI (invoke mi js) any_ret) ->
  length v <= 255 ->
  marshals_safely (okR /\ okI /\ Forall convertible v)
    (resolved_call resolve invoke v) w.
Proof.
  intros Hres Hinv Hlen. unfold marshals_safely, resolved_call.
  rewrite bind_unfold. unfold Tools.attachJniEnv.
  destruct (javaVM w) eqn:Hvm.
  2:{ cbn. split; [done|]. intros _ [? _]. congruence. }
  destruct (Z.ltb_spec (attach_status w) 0) as [Hst|Hst].
  { cbn. split; [|done]. intros _. eexists [_]. split; [reflexivity|]. by intros h []. }
  assert (Hw : healthy w) by (by split).
  rewrite through_attached, bind_ret, bind_unfold.
  destruct (Hres w) as (FA & CA & HA).
  destruct (resolve w) as [r1 wB] eqn:EA. cbn [fst snd] in *.
  pose proof FA as [VA SA LA _ (eA & TA & GA & DA)].
  destruct r1 as [mi|e|a].
  2:{ split; [|done]. intros _. exists eA. split; [done|]. intros h. by rewrite GA. }
  2:{ split; [done|]. intros (HR & _). by apply CA. }
  specialize (HA mi eq_refl).
  unfold with_methodInfo, unwind.
  destruct (with_paramDestructor_spec okI (nargs v) v (invoke mi) wB (Hinv mi))
    as (eT & TT & VT & ST & LT & DT & GT & RT & CT).
  destruct (with_paramDestructor (nargs v) (marshal_and_invoke v (invoke mi)) wB)
    as [r2 wC] eqn:EC. cbn [fst snd] in *.
  assert (HwC : healthy wC).
  { destruct Hw. split; congruence. }
  assert (Hnargs : length v <= nargs v).
  { unfold nargs. rewrite Nat.mod_small; lia. }
  destruct r2 as [a|e|a].
  3:{ split; [done|]. intros (HR & HI & Hv) _.
      apply CT; try done. destruct Hw. split; congruence. }
  all: destruct (JNIMethodInfo_destructor_trace mi wC) as (eE & TE & GE & DE);
    pose proof (JNIMethodInfo_destructor_ok mi wC HwC) as CE;
    destruct (Tools.JNIMethodInfo_destructor mi wC) as [r3 wD] eqn:EE;
    cbn [fst snd] in *; subst r3; cbv iota beta; cbn [fst snd];
    (split; [|done]); intros _;
    exists (eA ++ eT ++ eE);
    (split; [by rewrite TE, TT, TA, <- !app_assoc|]);
    intros h; rewrite !regs_app, GA, GE, app_nil_r; cbn [app];
    intros Hin Hnz; rewrite !times_deleted_app;
    destruct (GT h Hin) as [->|Hgt]; [done|];
    rewrite (times_deleted_none h eA)
      by (intros Hd; destruct (DA h Hd) as [->|[? _]]; [done|lia]);
    rewrite (RT eq_refl h Hin Hnz);
    rewrite (times_deleted_none h eE); [done|];
    intros Hd; destruct (DE h Hd) as [Hweak ->];
    destruct HA as [HA|[_ HA]]; [congruence|];
    destruct HA as [HA|[? _]]; [done|lia].
Qed.

Lemma framed_conseq {A} (ok : Prop) (m : M World A)
    (P P' : World -> A -> World -> Prop) :
  framed ok m P -> (forall w a w', P w a w' -> P' w a w') -> framed ok m P'.
Proof. intros H HP w. eapply runs_conseq; [apply H|]. intros. by apply HP. Qed.

Lemma marshals_safely_weaken (ok ok' : Prop) (m : M World cvalue) (w : World) :
  (ok' -> ok) -> marshals_safely ok m w -> marshals_safely ok' m w.
Proof. intros H [H1 H2]. split; auto. Qed.

Lemma Call_safe (T : ctype) (instance classId : jobject)
    (methodName signature : string) (v : list cvalue) (w : World) :
  length v <= 255 ->
  marshals_safely (callable T /\ Forall convertible v)
    (Call T instance classId methodName signature v) w.
Proof.
  intros Hlen.
  eapply marshals_safely_weaken;
    [|apply (resolved_call_safe True (callable T)
               (Tools.getMethodInfo_class classId methodName
                  (if empty signature then getJNISignature T (map type_of v)
                   else c_str signature))
               (fun mi js => JNICaller.callInstance T instance (methodId mi) js)
               v w)]; [tauto| | |done].
  - eapply framed_conseq; [apply getMethodInfo_class_framed|].
    intros ? ? ? H. by left.
  - intros mi js. apply call_framed.
Qed.

Lemma CallStatic_safe (T : ctype) (className methodName signature : string)
    (v : list cvalue) (w : World) :
  length v <= 255 ->
  marshals_safely (callable T /\ Forall convertible v)
    (CallStatic T className methodName signature v) w.
Proof.
  intros Hlen.
  eapply marshals_safely_weaken;
    [|apply (resolved_call_safe True (callable T)
               (Tools.getStaticMethodInfo className methodName (c_str signature))
               (fun mi js => JNICaller.callStatic T (classId mi) (methodId mi) js)
               v w)]; [tauto| | |done].
  - eapply framed_conseq; [apply getStaticMethodInfo_framed|].
    intros ? ? ? H. by right.
  - intros mi js. apply call_framed.
Qed.

Lemma callRawNonVirtual_safe (T : ctype) (instance : jobject)
    (className methodName signature : string) (v : list cvalue) (w : World) :
  length v <= 255 ->
  marshals_safely (T = TVoid /\ Forall convertible v)
    (callRawNonVirtual T instance className methodName signature v) w.
Proof.
  intros Hlen.
  eapply marshals_safely_weaken;
    [|apply (resolved_call_safe True (T = TVoid)
               (Tools.getMethodInfo className methodName (c_str signature))
               (fun mi js => JNICaller.callNonVirtual T instance (classId mi)
                               (methodId mi) js)
               v w)]; [tauto| | |done].
  - eapply framed_conseq; [apply getMethodInfo_framed|].
    intros ? ? ? H. by right.
  - intros mi js. apply callNonVirtual_framed.
Qed.

(** The references that do get registered: for a call with at most 255
    arguments through [Call], [CallStatic] or [callRawNonVirtual], whenever
    the call comes back to its caller, by return or by a thrown
    [JNIException], every non-null reference that was registered with the
    parameter destructor during the call was passed to [DeleteLocalRef]
    exactly once during the call; and on an attached thread, for types
    whose instantiation compiles, the call does come back. What is made
    during a conversion and not registered is another matter, see
    [string_vector_argument_leaks_element_references]. *)
Lemma registered_handles_released_exactly_once :
  forall (T : ctype) (instance classId : jobject)
         (className methodName signature : string) (v : list cvalue) (w : World),
    length v <= 255 ->
    marshals_safely (callable T /\ Forall convertible v)
      (Call T instance classId methodName signature v) w /\
    marshals_safely (callable T /\ Forall convertible v)
      (CallStatic T className methodName signature v) w /\
    marshals_safely (T = TVoid /\ Forall convertible v)
      (callRawNonVirtual T instance className methodName signature v) w.
Proof.
  intros. split; [by apply Call_safe|]. split; [by apply CallStatic_safe|].
  by apply callRawNonVirtual_safe.
Qed.

Example registered_handles_released_in_a_call :
  exists evs,
    trace (CallStatic TVoid Sample.Foo "log" "(Ljava/lang/String;[B)V"
             [CString "a"; CVecByte [x01]] Sample.world).2 =
      trace Sample.world ++ evs /\
    released_once evs.
Proof.
  destruct (registered_handles_released_exactly_once TVoid NULL NULL
              Sample.Foo "log" "(Ljava/lang/String;[B)V"
              [CString "a"; CVecByte [x01]] Sample.world)
    as (_ & [H _] & _); [simpl; lia|].
  apply H. vm_compute. reflexivity.
Qed.

(** In that call two references are registered, and both are deleted. *)
Example two_arguments_registered_and_deleted :
  let w' := (CallStatic TVoid Sample.Foo "log" "(Ljava/lang/String;[B)V"
               [CString "a"; CVecByte [x01]] Sample.world).2 in
  regs (trace w') = [3; 4] /\ dels (trace w') = [3; 4; 2].
Proof. vm_compute. split; reflexivity. Qed.

(** With no argument nothing is registered. *)
Example no_argument_nothing_registered :
  regs (trace (CallStatic TVoid Sample.Foo "reset" "()V" [] Sample.world).2) = [].
Proof. vm_compute. reflexivity. Qed.

(** With a failing conversion in the middle (the runtime cannot allocate
    the byte array, the second argument to be converted), the string
    converted before it is still deleted. *)
Example failing_conversion_still_releases :
  let w0 := set_alloc_faults Sample.world [false; true] in
  let r := CallStatic TVoid Sample.Foo "log" "(Ljava/lang/String;[B)V"
             [CString "a"; CVecByte [x01]] w0 in
  r.1 = Throw {| message := "java.lang.OutOfMemoryError" |} /\
  regs (trace r.2) = [3] /\ times_deleted 3 (trace r.2) = 1.
Proof. vm_compute. repeat split; reflexivity. Qed.

(** ** The proxy's generic call *)

(** Every reference [Call] deletes was made during the call. *)
Lemma Call_deletes_fresh (T : ctype) (instance classId : jobject)
    (methodName signature : string) (v : list cvalue) (w : World) :
  exists evs,
    trace (Call T instance classId methodName signature v w).2 = trace w ++ evs /\
    forall h, In h (dels evs) -> h = NULL \/ length (refs w) < h.
Proof.
  unfold Call. rewrite bind_unfold. unfold Tools.attachJniEnv.
  destruct (javaVM w) eqn:Hvm.
  2:{ exists []. cbn. by rewrite app_nil_r. }
  destruct (Z.ltb_spec (attach_status w) 0) as [Hst|Hst].
  { eexists [_]. cbn. split; [reflexivity|]. by intros h []. }
  cbv zeta. rewrite through_attached, bind_ret, bind_unfold.
  set (sig := if empty signature then _ else _).
  destruct (getMethodInfo_class_framed classId methodName sig w) as (FA & _ & HA).
  destruct (Tools.getMethodInfo_class classId methodName sig w) as [r1 wB] eqn:EA.
  cbn [fst snd] in *.
  pose proof FA as [VA SA LA _ (eA & TA & GA & DA)].
  assert (HdA : forall h, In h (dels eA) -> h = NULL \/ length (refs w) < h).
  { intros h Hd. destruct (DA h Hd) as [->|[? _]]; [by left|right; lia]. }
  destruct r1 as [mi|e|a]; [|by exists eA..].
  specialize (HA mi eq_refl).
  unfold with_methodInfo, unwind.
  destruct (with_paramDestructor_spec (callable T) (nargs v) v
              (fun js => JNICaller.callInstance T instance (methodId mi) js) wB
              (fun js => call_framed T instance (methodId mi) js))
    as (eT & TT & VT & ST & LT & DT & GT & RT & CT).
  change (with_paramDestructor (nargs v)
            (let! js := convert_params v in
             lift (JNICaller.callInstance T instance (methodId mi) js)) wB)
    with (with_paramDestructor (nargs v)
            (marshal_and_invoke v
               (fun js => JNICaller.callInstance T instance (methodId mi) js)) wB).
  destruct (with_paramDestructor (nargs v) _ wB) as [r2 wC] eqn:EC.
  cbn [fst snd] in *.
  assert (HdT : forall h, In h (dels (eA ++ eT)) -> h = NULL \/ length (refs w) < h).
  { intros h. rewrite dels_app, in_app_iff. intros [Hd|Hd]; [by apply HdA|].
    destruct (DT h Hd) as [->|?]; [by left|right; lia]. }
  destruct r2 as [a|e|a].
  3:{ exists (eA ++ eT). cbn [fst snd].
      split; [by rewrite TT, TA, app_assoc|exact HdT]. }
  all: unfold Tools.JNIMethodInfo_destructor; rewrite HA; unfold ret;
    cbv iota beta; cbn [fst snd];
    exists (eA ++ eT); split; [by rewrite TT, TA, app_assoc|exact HdT].
Qed.

(** C9, what the code does: in [JNIObject::Call] the class reference that
    the class lookup hands out (the first reference made during the call)
    is never passed to [DeleteLocalRef] during the call. *)
Theorem proxy_call_never_releases_class_handle :
  forall (T : ctype) (methodName : string) (v : list cvalue)
         (this : JNIObject) (w : World),
    healthy w ->
    (className_ this = "" /\ is_Some (deref w (instance this))) \/
    (className_ this <> "" /\
     JNI.class_exists w (c_str (className_ this)) = true) ->
    exists evs,
      trace (JNIObject_Call T methodName v (this, w)).2.2 = trace w ++ evs /\
      In (EvNewLocalRef (S (length (refs w)))) evs /\
      ~ In (S (length (refs w))) (dels evs).
Proof.
  intros T methodName v this w Hh Hcls.
  unfold JNIObject_Call. rewrite bind_unfold, lift_unfold.
  rewrite (attachJniEnv_healthy w Hh). cbn [fst snd].
  unfold with_clear, unwind.
  unfold this_. rewrite !bind_unfold. cbn [fst snd]. rewrite lift_unfold.
  cbn [through ret fst snd]. rewrite bind_unfold, lift_unfold.
  assert (Hc : exists o,
            (if empty (className_ this) then JNI.GetObjectClass (instance this)
             else JNI.FindClass (c_str (className_ this))) w =
            local_ref_to o w).
  { destruct Hcls as [[-> [o Ho]]|[Hne Hex]].
    - exists (JClass (JNI.class_of o)). simpl. unfold JNI.GetObjectClass.
      by rewrite Ho.
    - destruct (className_ this) as [|c s] eqn:E; [done|].
      exists (JClass (c_str (String c s))).
      change (empty (String c s)) with false. cbv iota.
      unfold JNI.FindClass. by rewrite Hex. }
  destruct Hc as [o ->]. rewrite local_ref_to_eq. cbn [fst snd].
  set (w1 := (local_ref_to o w).2).
  rewrite lift_unfold. cbn [fst snd].
  destruct (Call_deletes_fresh T (instance this) (S (length (refs w))) methodName
              (memberSignature_ this) v w1) as (evs & Tr & Hd).
  destruct (Call T (instance this) (S (length (refs w))) methodName
              (memberSignature_ this) v w1) as [r w2] eqn:EC.
  cbn [fst snd] in *.
  exists (EvNewLocalRef (S (length (refs w))) :: evs).
  assert (Hlen : length (refs w1) = S (length (refs w))).
  { subst w1. simpl. rewrite length_app. simpl. lia. }
  split; [|split; [by left|]].
  - destruct r; cbn; rewrite Tr; subst w1; simpl; by rewrite <- app_assoc.
  - simpl. intros Hin. destruct (Hd _ Hin) as [?|?]; [done|lia].
Qed.

Lemma proxy_call_never_releases_class_handle_witness :
  exists evs,
    trace (JNIObject_Call TVoid "ping" [] (CreateShared 1, Sample.world)).2.2 =
      trace Sample.world ++ evs /\
    In (EvNewLocalRef 2) evs /\ ~ In 2 (dels evs).
Proof.
  apply (proxy_call_never_releases_class_handle TVoid "ping" []
           (CreateShared 1) Sample.world).
  - split; [reflexivity | simpl; lia].
  - left. split; [reflexivity|]. exists (JInstance Sample.Foo). reflexivity.
Defined.

(** In that call the result is [void], the call succeeds, and the class
    reference 2 is still a live local reference afterwards. *)
Example proxy_call_leaves_class_handle_live :
  let r := JNIObject_Call TVoid "ping" [] (CreateShared 1, Sample.world) in
  r.1 = Ok CVoid /\ local_live r.2.2 2 = true /\
  trace r.2.2 = [EvNewLocalRef 2; EvGetMethodID Sample.Foo "ping" "()V"].
Proof. vm_compute. repeat split; reflexivity. Qed.

(* ------------------------------------------------------------------ *)
(** ** The override fields of a proxy                                  *)
(* ------------------------------------------------------------------ *)

(** The guard clears both fields whenever its scope is left, by return
    or by exception. *)
Lemma with_clear_clears {A} (body : M (JNIObject * World) A)
    (s : JNIObject * World) :
  came_back (with_clear body s).1 = true ->
  overrides_cleared (with_clear body s).2.1.
Proof.
  unfold with_clear, unwind, NameAndSignatureClear_destructor.
  destruct (body s) as [[a|e|r] s']; cbn; intros H; try done.
Qed.

(** The guard changes nothing else of the proxy, and nothing of the
    result. *)
Lemma with_clear_result {A} (body : M (JNIObject * World) A)
    (s : JNIObject * World) :
  (with_clear body s).1 = (body s).1.
Proof.
  unfold with_clear, unwind, NameAndSignatureClear_destructor.
  destruct (body s) as [[a|e|r] s']; reflexivity.
Qed.

(** [JNIObject::Get] constructs the guard first: the fields are cleared
    on every way back to the caller. *)
Lemma JNIObject_Get_clears (T : ctype) (propertyName : string)
    (this : JNIObject) (w : World) :
  came_back (JNIObject_Get T propertyName (this, w)).1 = true ->
  overrides_cleared (JNIObject_Get T propertyName (this, w)).2.1.
Proof. apply with_clear_clears. Qed.

(** [JNIObject::Set] likewise. *)
Lemma JNIObject_Set_clears (propertyName : string) (value : cvalue)
    (this : JNIObject) (w : World) :
  came_back (JNIObject_Set propertyName value (this, w)).1 = true ->
  overrides_cleared (JNIObject_Set propertyName value (this, w)).2.1.
Proof. apply with_clear_clears. Qed.

(** In particular [Get] and [Set] clear the fields when the thread
    cannot be attached. *)
Example JNIObject_Get_refused_clears :
  let r := JNIObject_Get TInt32 "count" (Sample.proxy, Sample.world_refusing) in
  r.1 = Throw {| message :=
           "Could not attach the JNI environment to the current thread." |} /\
  className_ r.2.1 = "" /\ memberSignature_ r.2.1 = "".
Proof. vm_compute. repeat split; reflexivity. Qed.


(** C6. [JNIObject::Call] acquires the environment before it constructs
    the clearing guard: when the runtime refuses to attach the thread, the
    call fails with the attach error and the proxy still carries the
    override class name and the override signature it had before. *)
Theorem JNIObject_Call_refused_keeps_overrides (T : ctype)
    (methodName : string) (v : list cvalue) (this : JNIObject) (w : World) :
  javaVM w = true -> (attach_status w < 0)%Z ->
  let r := JNIObject_Call T methodName v (this, w) in
  r.1 = Throw {| message :=
           "Could not attach the JNI environment to the current thread." |} /\
  className_ r.2.1 = className_ this /\
  memberSignature_ r.2.1 = memberSignature_ this.
Proof.
  intros Hvm Hst r. subst r. unfold JNIObject_Call.
  rewrite bind_unfold, lift_unfold.
  pose proof (attachJniEnv_refused w Hvm Hst) as Hr.
  destruct (Tools.attachJniEnv w) as [r0 w0]. cbn [fst snd] in *.
  subst r0. cbn. repeat split; reflexivity.
Qed.

Lemma JNIObject_Call_refused_keeps_overrides_witness :
  let r := JNIObject_Call TVoid "ping" [] (Sample.proxy, Sample.world_refusing) in
  r.1 = Throw {| message :=
           "Could not attach the JNI environment to the current thread." |} /\
  className_ r.2.1 = Sample.Foo /\
  memberSignature_ r.2.1 = "(I)V".
Proof.
  apply (JNIObject_Call_refused_keeps_overrides TVoid "ping" []
           Sample.proxy Sample.world_refusing).
  - reflexivity.
  - simpl. lia.
Defined.

(** What the kept fields do to the next call: on a thread that the
    runtime accepts, a call without overrides on the same proxy looks
    [ping] up with the stale signature [(I)V] and fails, where a proxy
    with cleared fields derives [()V] and succeeds. *)
Example stale_overrides_reach_the_next_call :
  let r := JNIObject_Call TVoid "ping" [] (Sample.proxy, Sample.world_refusing) in
  let again := JNIObject_Call TVoid "ping" []
                 (r.2.1, Sample.world) in
  let clean := JNIObject_Call TVoid "ping" [] (CreateShared 1, Sample.world) in
  In (EvGetMethodID Sample.Foo "ping" "(I)V") (trace again.2.2) /\
  came_back again.1 = true /\ again.1 <> Ok CVoid /\
  clean.1 = Ok CVoid /\
  In (EvGetMethodID Sample.Foo "ping" "()V") (trace clean.2.2).
Proof. vm_compute. intuition (try discriminate; auto). Qed.

(* ------------------------------------------------------------------ *)
(** ** The signature that [CallStatic] resolves with                   *)
(* ------------------------------------------------------------------ *)

Lemma find_index_none {A} (p : A -> bool) (l : list A) (i : nat) :
  (forall x, In x l -> p x = false) -> JNI.find_index p l i = None.
Proof.
  revert i. induction l as [|x l IH]; intros i H; [reflexivity|].
  simpl. rewrite (H x (or_introl eq_refl)). apply IH.
  intros y Hy. apply H. by right.
Qed.

Lemma lookup_static_empty_signature (w : World) (c name : string) :
  descriptors_nonempty w -> JNI.lookup_method w true c name "" = MNull.
Proof.
  intros Hd. unfold JNI.lookup_method. cbn [negb andb].
  rewrite find_index_none; [reflexivity|].
  intros m Hm. unfold JNI.is_method.
  destruct (String.eqb_spec (m_sig m) "") as [E|_].
  - by destruct (Hd m Hm).
  - by rewrite !andb_false_r.
Qed.

(** C1. [CallStatic] called with an empty signature hands the empty
    string to the resolver, not the derived signature: the static method
    is looked up with the descriptor [""], the lookup fails, and the call
    throws the failure of the lookup. *)
Theorem CallStatic_empty_signature_resolves_with_empty (T : ctype)
    (className methodName : string) (v : list cvalue) (w : World) :
  healthy w -> pending w = None ->
  JNI.class_exists w (c_str className) = true ->
  descriptors_nonempty w ->
  exists w' evs,
    CallStatic T className methodName "" v w =
      (Throw {| message := c_str (c_str methodName) |}, w') /\
    trace w' =
      trace w ++
      EvNewLocalRef (S (length (refs w))) ::
      EvGetStaticMethodID (c_str className) (c_str methodName) "" :: evs.
Proof.
  intros Hh Hp Hex Hd. unfold CallStatic.
  rewrite (bind_ok _ _ _ _ _ (attachJniEnv_healthy w Hh)).
  cbn [through]. rewrite bind_ret.
  unfold Tools.getStaticMethodInfo, Tools.getStaticMethodInfo_rec.
  change (c_str "") with "".
  rewrite bind_unfold. rewrite (bind_unfold (JNI.FindClass _)).
  unfold JNI.FindClass at 1. rewrite Hex, local_ref_to_eq.
  set (w1 := (local_ref_to (JClass (c_str className)) w).2).
  assert (Hp1 : pending w1 = None) by exact Hp.
  assert (Hh1 : healthy w1) by exact Hh.
  assert (Ht1 : trace w1 = trace w ++ [EvNewLocalRef (S (length (refs w)))])
    by reflexivity.
  assert (Hc1 : JNI.class_name w1 (S (length (refs w))) = Some (c_str className)).
  { unfold JNI.class_name. subst w1. by rewrite deref_local_ref_to. }
  rewrite bind_unfold, (checkException_none w1 Hp1).
  rewrite bind_unfold.
  unfold JNI.GetStaticMethodID at 1. rewrite Hc1. cbn [default].
  rewrite bind_unfold. unfold emit at 1.
  set (w2 := set_trace w1 _).
  unfold JNI.get_method.
  change (JNI.class_name w2 (S (length (refs w)))) with
    (JNI.class_name w1 (S (length (refs w)))).
  rewrite Hc1.
  rewrite (lookup_static_empty_signature w2 _ _ Hd).
  set (w3 := set_pending w2 _).
  assert (Hh3 : healthy w3) by exact Hh.
  destruct (checkException_pending w3 (Throwable (Some (c_str methodName))) Hh3
              eq_refl) as (w' & E & _).
  destruct (checkException_framed w3) as [F _].
  rewrite bind_unfold, E. rewrite E in F. cbn [snd] in F.
  destruct (fr_trace _ _ _ _ F) as (evs & Tr & _).
  exists w', evs. split; [reflexivity|].
  rewrite Tr. subst w3 w2. cbn [trace set_pending set_trace].
  rewrite Ht1, <- !app_assoc. reflexivity.
Qed.

Lemma CallStatic_empty_signature_resolves_with_empty_witness :
  exists w' evs,
    CallStatic TVoid Sample.Foo "reset" "" [] Sample.world =
      (Throw {| message := c_str (c_str "reset") |}, w') /\
    trace w' =
      trace Sample.world ++
      EvNewLocalRef 2 :: EvGetStaticMethodID (c_str Sample.Foo) (c_str "reset") "" :: evs.
Proof.
  apply (CallStatic_empty_signature_resolves_with_empty TVoid Sample.Foo
           "reset" [] Sample.world).
  - split; [reflexivity | simpl; lia].
  - reflexivity.
  - reflexivity.
  - intros m Hm. simpl in Hm.
    repeat (destruct Hm as [<-|Hm]; [discriminate|]). destruct Hm.
Defined.

(** The static method [reset] of the sample program has the signature
    that is derived for a call without arguments returning [void]; the
    call finds it when that signature is written out, and does not when
    the signature is left empty. The instance call derives it. *)
Example CallStatic_needs_the_signature_written_out :
  getJNISignature TVoid [] = "()V" /\
  (CallStatic TVoid Sample.Foo "reset" "()V" [] Sample.world).1 = Ok CVoid /\
  (CallStatic TVoid Sample.Foo "reset" "" [] Sample.world).1 =
    Throw {| message := "reset" |} /\
  (JNIObject_Call TVoid "ping" [] (CreateShared 1, Sample.world)).1 = Ok CVoid.
Proof. vm_compute. repeat split; reflexivity. Qed.

(* ------------------------------------------------------------------ *)
(** ** Out to the runtime and back                                     *)
(* ------------------------------------------------------------------ *)

Lemma c_str_cons (c : ascii) (s : string) :
  c_str (String c s) =
  if Ascii.eqb c Ascii.zero then "" else String c (c_str s).
Proof. reflexivity. Qed.

Lemma c_str_nul_free (s : string) : nul_free s = true -> c_str s = s.
Proof.
  induction s as [|c s IH]; [reflexivity|].
  simpl nul_free. intros [Hc Hs]%andb_true_iff. rewrite c_str_cons.
  destruct (Ascii.eqb c Ascii.zero); [discriminate|]. by rewrite IH.
Qed.

Lemma nul_free_c_str (s : string) : nul_free (c_str s) = true.
Proof.
  induction s as [|c s IH]; [reflexivity|]. rewrite c_str_cons.
  destruct (Ascii.eqb c Ascii.zero) eqn:E; [reflexivity|].
  simpl. by rewrite E, IH.
Qed.

Lemma c_str_idem (s : string) : c_str (c_str s) = c_str s.
Proof. apply c_str_nul_free, nul_free_c_str. Qed.

Lemma New_no_fault (o : jobj) (w : World) :
  alloc_faults w = [] -> New o w = local_ref_to o w.
Proof. intros H. unfold New. by rewrite H. Qed.

(** The state after a new object got its first local reference. *)
Lemma local_ref_to_shape (o : jobj) (w : World) :
  let w' := (local_ref_to o w).2 in
  resolve w' (S (length (refs w))) = Some (S (length (objs w))) /\
  objs w' = objs w ++ [o] /\
  length (refs w') = S (length (refs w)) /\
  pending w' = pending w /\ alloc_faults w' = alloc_faults w /\
  (forall h x, resolve w h = Some x -> resolve w' h = Some x).
Proof.
  cbv zeta.
  split; [|split; [|split; [|split; [|split]]]]; try reflexivity.
  - unfold resolve, local_ref_to, bind, alloc, new_ref. simpl.
    by rewrite list_lookup_middle.
  - simpl. rewrite length_app. simpl. lia.
  - destruct (local_ref_to_run o w) as (w1 & E & St & _).
    rewrite E. apply (st_refs _ _ St).
Qed.

Lemma resolve_in_range (w : World) (h : jobject) (x : nat) :
  resolve w h = Some x -> 0 < h <= length (refs w).
Proof.
  destruct h as [|i]; [done|]. simpl.
  destruct (refs w !! i) as [r|] eqn:E; [|done]. intros _.
  apply lookup_lt_Some in E. lia.
Qed.

Lemma resolve_kill_ref_other (g : bool) (h h' : jobject) (w : World) :
  h <> h' -> resolve (kill_ref g h w) h' = resolve w h'.
Proof.
  intros Hne. unfold kill_ref. destruct h as [|i]; [done|].
  destruct (refs w !! i) as [r|]; [|done].
  destruct (Bool.eqb _ _); [|done].
  destruct h' as [|i']; [done|]. simpl.
  rewrite list_lookup_insert_ne by congruence. done.
Qed.

Lemma DeleteLocalRef_other (h h' : jobject) (w : World) :
  h <> h' ->
  let w' := (JNI.DeleteLocalRef h w).2 in
  resolve w' h' = resolve w h' /\ objs w' = objs w /\
  pending w' = pending w /\ alloc_faults w' = alloc_faults w.
Proof.
  intros Hne. cbv zeta. unfold JNI.DeleteLocalRef. cbn [snd].
  destruct (kill_ref_fields false h (set_trace w (trace w ++ [EvDeleteLocalRef h])))
    as (P & _ & _ & F & O & _).
  rewrite (resolve_kill_ref_other _ _ _ _ Hne), O, P, F. done.
Qed.

(** Reading a string object with nothing pending. *)
Lemma toString_of_string (w : World) (h : jobject) (s : string) :
  deref w h = Some (JString s) -> pending w = None ->
  Tools.toString h w = (Ok (c_str s), w).
Proof.
  intros H Hp. destruct h as [|h]; [done|].
  unfold Tools.toString, Tools.toString_rec, JNI.GetStringUTFChars.
  rewrite bind_unfold, H. cbv iota beta.
  unfold JNI.ReleaseStringUTFChars. rewrite !bind_unfold.
  unfold ret at 1 2. cbv iota beta.
  rewrite bind_unfold, (checkException_none w Hp). reflexivity.
Qed.

(** *** Strings *)

Lemma toJString_run (s : string) (w : World) :
  pending w = None -> alloc_faults w = [] ->
  exists h w',
    Tools.toJString s w = (Ok h, w') /\ pending w' = None /\
    deref w' h = Some (JString (c_str s)).
Proof.
  intros Hp Hf. unfold Tools.toJString, Tools.toJString_chars, JNI.NewStringUTF.
  rewrite c_str_idem, (New_no_fault _ _ Hf).
  destruct (local_ref_to_run (JString (c_str s)) w) as (w' & E & St & D & _).
  exists (S (length (refs w))), w'. rewrite E.
  split; [done|]. split; [|done]. by rewrite (st_pending _ _ St).
Qed.

Lemma string_there_and_back (s : string) (w : World) :
  pending w = None -> alloc_faults w = [] ->
  (decode_encode (CString s) w).1 = Ok (CString (c_str s)).
Proof.
  intros Hp Hf. destruct (toJString_run s w Hp Hf) as (h & w' & E & Hp' & D).
  unfold decode_encode, CPPToJNIConversor_convert.
  rewrite !bind_unfold, E. unfold ret at 1.
  cbn [type_of JNIToCPPConversor_convert].
  rewrite bind_unfold, (toString_of_string w' h _ D Hp').
  by rewrite c_str_idem.
Qed.

(** *** Byte vectors *)

Lemma blit_whole {A} (dst src : list A) :
  length dst = length src -> JNI.blit dst 0 (length src) src = src.
Proof.
  intros H. unfold JNI.blit. rewrite take_0, firstn_all. simpl.
  rewrite drop_ge by lia. apply app_nil_r.
Qed.

Lemma toJObjectArray_bytes_run (l : list byte) (w : World) :
  pending w = None -> alloc_faults w = [] ->
  exists h w',
    Tools.toJObjectArray_bytes l w = (Ok h, w') /\ pending w' = None /\
    deref w' h = Some (JByteArray l).
Proof.
  intros Hp Hf. unfold Tools.toJObjectArray_bytes, JNI.NewByteArray.
  rewrite bind_unfold, (New_no_fault _ _ Hf), local_ref_to_eq.
  destruct (local_ref_to_shape (JByteArray (replicate (length l) x00)) w)
    as (R & O & _ & P & _).
  set (w1 := (local_ref_to _ w).2) in *.
  assert (Hj : objs w1 !! length (objs w) =
               Some (JByteArray (replicate (length l) x00))).
  { rewrite O. by rewrite list_lookup_middle. }
  rewrite bind_unfold. unfold JNI.SetByteArrayRegion at 1.
  rewrite R, Hj, length_replicate. simpl Nat.add.
  rewrite Nat.leb_refl.
  set (w2 := set_objs w1 _).
  assert (Hp2 : pending w2 = None) by (subst w2; simpl; congruence).
  rewrite bind_unfold, (checkException_none w2 Hp2).
  exists (S (length (refs w))), w2. split; [reflexivity|]. split; [done|].
  unfold deref. change (resolve w2 (S (length (refs w)))) with
    (resolve w1 (S (length (refs w)))). rewrite R.
  subst w2. simpl. rewrite list_lookup_insert_eq.
  - by rewrite blit_whole by apply length_replicate.
  - by apply lookup_lt_Some in Hj.
Qed.

Lemma toVectorByte_of_bytes (w : World) (h : jobject) (l : list byte) :
  deref w h = Some (JByteArray l) -> pending w = None ->
  Tools.toVectorByte h w = (Ok l, w).
Proof.
  intros D Hp. destruct h as [|h]; [done|].
  unfold Tools.toVectorByte, JNI.GetArrayLength.
  rewrite bind_unfold, D. cbv iota beta.
  rewrite bind_unfold. unfold JNI.GetByteArrayRegion. rewrite D.
  simpl Nat.add. rewrite Nat.leb_refl. cbv iota beta.
  rewrite bind_unfold, (checkException_none w Hp). unfold ret.
  rewrite drop_0, blit_whole by apply length_replicate. reflexivity.
Qed.

Lemma bytes_there_and_back (l : list byte) (w : World) :
  pending w = None -> alloc_faults w = [] ->
  (decode_encode (CVecByte l) w).1 = Ok (CVecByte l).
Proof.
  intros Hp Hf.
  destruct (toJObjectArray_bytes_run l w Hp Hf) as (h & w' & E & Hp' & D).
  unfold decode_encode, CPPToJNIConversor_convert.
  rewrite !bind_unfold, E. unfold ret at 1.
  cbn [type_of JNIToCPPConversor_convert].
  by rewrite bind_unfold, (toVectorByte_of_bytes w' h _ D Hp').
Qed.

(** *** String vectors *)

(** The loop of [toJObjectArray] from index [i]: the array behind [joa]
    keeps what is below [i] and receives one new string object per
    element of [data]. *)
Lemma toJObjectArray_loop_fills (joa : jobject) (j : nat) (data : list string) :
  forall (i : nat) (w : World) (es : list nat),
    pending w = None -> alloc_faults w = [] ->
    resolve w joa = Some (S j) -> objs w !! j = Some (JObjectArray es) ->
    i + length data <= length es ->
    exists w' es',
      Tools.toJObjectArray_loop joa i data w = (Ok tt, w') /\
      pending w' = None /\ alloc_faults w' = [] /\
      resolve w' joa = Some (S j) /\ objs w' !! j = Some (JObjectArray es') /\
      length es' = length es /\
      (forall k, k < i -> es' !! k = es !! k) /\
      (forall k s, data !! k = Some s ->
         exists o, o <> j /\ es' !! (i + k) = Some (S o) /\
                   objs w' !! o = Some (JString (c_str s))) /\
      (forall o x, o <> j -> objs w !! o = Some x -> objs w' !! o = Some x) /\
      (forall h x, resolve w h = Some x -> resolve w' h = Some x).
Proof.
  induction data as [|s rest IH]; intros i w es Hp Hf R Hj Hlen.
  - exists w, es. simpl. repeat split; try done.
  - simpl in Hlen. cbn [Tools.toJObjectArray_loop].
    unfold Tools.toJString, Tools.toJString_chars, JNI.NewStringUTF.
    rewrite c_str_idem, bind_unfold, (New_no_fault _ _ Hf), local_ref_to_eq.
    destruct (local_ref_to_shape (JString (c_str s)) w)
      as (R1 & O1 & _ & P1 & F1 & K1).
    set (w1 := (local_ref_to _ w).2) in *.
    assert (Hjlt : j < length (objs w)) by (by apply lookup_lt_Some in Hj).
    assert (Hj1 : objs w1 !! j = Some (JObjectArray es)).
    { rewrite O1. by apply lookup_app_l_Some. }
    rewrite bind_unfold. unfold JNI.SetObjectArrayElement at 1.
    rewrite (K1 _ _ R), Hj1.
    destruct (Nat.ltb_spec i (length es)) as [_|?]; [|lia].
    unfold target. rewrite R1. cbn [default].
    set (es2 := <[i := S (length (objs w))]> es).
    set (w2 := set_objs w1 _).
    assert (O2 : objs w2 = <[j := JObjectArray es2]> (objs w ++ [JString (c_str s)])).
    { subst w2 es2. cbn [objs set_objs]. rewrite O1. reflexivity. }
    destruct (IH (S i) w2 es2) as
      (w' & es' & E & Hp' & Hf' & R' & Hj' & L' & Pre & New' & Keep & Res).
    + subst w2. cbn [pending set_objs]. congruence.
    + subst w2. cbn [alloc_faults set_objs]. congruence.
    + change (resolve w2 joa) with (resolve w1 joa). by apply K1.
    + rewrite O2. apply list_lookup_insert_eq. rewrite length_app. lia.
    + subst es2. rewrite length_insert. lia.
    + exists w', es'. rewrite E.
      split; [reflexivity|]. split; [done|]. split; [done|].
      split; [done|]. split; [done|].
      split; [by rewrite L'; subst es2; rewrite length_insert|].
      split; [|split; [|split]].
      * intros k Hk. rewrite Pre by lia. subst es2.
        apply list_lookup_insert_ne. lia.
      * intros [|k] s0 Hs0.
        -- simpl in Hs0. injection Hs0 as <-.
           exists (length (objs w)). split; [lia|]. split.
           ++ rewrite Nat.add_0_r, Pre by lia. subst es2.
              apply list_lookup_insert_eq. lia.
           ++ apply Keep; [lia|]. rewrite O2.
              rewrite list_lookup_insert_ne by lia.
              by rewrite list_lookup_middle.
        -- simpl in Hs0. destruct (New' k s0 Hs0) as (o & Ho & He & Hs).
           exists o. split; [done|]. split; [|done].
           by replace (i + S k) with (S i + k) by lia.
      * intros o x Ho Hx. apply Keep; [done|]. rewrite O2.
        rewrite list_lookup_insert_ne by done. by apply lookup_app_l_Some.
      * intros h x Hx. apply Res.
        change (resolve w2 h) with (resolve w1 h). by apply K1.
Qed.

Lemma FindClass_String (w : World) :
  JNI.FindClass "java/lang/String" w = local_ref_to (JClass "java/lang/String") w.
Proof. reflexivity. Qed.

(** [toJObjectArray] on a fault-free runtime returns an array that holds
    the strings of [data], each up to its first NUL, in order. *)
Lemma toJObjectArray_run (data : list string) (w : World) :
  pending w = None -> alloc_faults w = [] ->
  exists h w',
    Tools.toJObjectArray data w = (Ok h, w') /\ pending w' = None /\
    holds_strings w' h (map c_str data).
Proof.
  intros Hp Hf. unfold Tools.toJObjectArray.
  rewrite bind_unfold, FindClass_String, local_ref_to_eq.
  destruct (local_ref_to_shape (JClass "java/lang/String") w)
    as (_ & _ & L1 & P1 & F1 & _).
  set (w1 := (local_ref_to _ w).2) in *.
  rewrite bind_unfold. unfold JNI.NewObjectArray at 1.
  rewrite New_no_fault by congruence. rewrite local_ref_to_eq.
  change (target w1 NULL) with 0.
  destruct (local_ref_to_shape (JObjectArray (replicate (length data) 0)) w1)
    as (R2 & O2 & L2 & P2 & F2 & _).
  set (w2 := (local_ref_to _ w1).2) in *.
  destruct (toJObjectArray_loop_fills (S (length (refs w1))) (length (objs w1))
              data 0 w2 (replicate (length data) 0))
    as (w3 & es & E & Hp3 & Hf3 & R3 & Hj3 & L3 & _ & New3 & _).
  { congruence. } { congruence. } { exact R2. }
  { rewrite O2. by rewrite list_lookup_middle. }
  { rewrite length_replicate. lia. }
  rewrite bind_unfold, E. cbv iota beta.
  rewrite bind_unfold.
  destruct (DeleteLocalRef_other (S (length (refs w))) (S (length (refs w1))) w3)
    as (R4 & O4 & P4 & F4); [lia|].
  change (JNI.DeleteLocalRef (S (length (refs w))) w3) with
    (Ok tt, (JNI.DeleteLocalRef (S (length (refs w))) w3).2).
  set (w4 := (JNI.DeleteLocalRef _ w3).2) in *. cbv iota beta.
  assert (Hp4 : pending w4 = None) by congruence.
  rewrite bind_unfold, (checkException_none w4 Hp4).
  exists (S (length (refs w1))), w4. split; [reflexivity|]. split; [done|].
  exists (length (objs w1)), es. rewrite R4, O4.
  split; [done|]. split; [done|].
  split; [by rewrite L3, length_replicate, length_map|].
  intros k s Hs. apply list_lookup_fmap_Some in Hs as (s0 & -> & Hs0).
  destruct (New3 k s0 Hs0) as (o & _ & He & Ho). exists o. done.
Qed.

(** The loop of [toVectorString] over an array that holds [ss]. *)
Lemma toVectorString_loop_reads (h : jobject) (j : nat) (es : list nat)
    (ss : list string) :
  forall (n i : nat) (acc : list string) (w : World),
    pending w = None ->
    resolve w h = Some (S j) -> objs w !! j = Some (JObjectArray es) ->
    (forall k s, ss !! k = Some s ->
       exists o, es !! k = Some (S o) /\ objs w !! o = Some (JString s)) ->
    i + n <= length ss ->
    exists w',
      Tools.toVectorString_loop h i n acc w =
        (Ok (acc ++ map c_str (take n (drop i ss))), w') /\
      pending w' = None.
Proof.
  induction n as [|n IH]; intros i acc w Hp R Hj Hss Hlen.
  - exists w. simpl. by rewrite app_nil_r.
  - destruct (lookup_lt_is_Some_2 ss i) as [s Hs]; [lia|].
    destruct (Hss i s Hs) as (o & He & Ho).
    cbn [Tools.toVectorString_loop].
    rewrite bind_unfold. unfold JNI.GetObjectArrayElement at 1.
    assert (D : deref w h = Some (JObjectArray es)).
    { unfold deref. by rewrite R. }
    rewrite D, He.
    change (new_ref false (S o) w) with
      (Ok (S (length (refs w))), (new_ref false (S o) w).2).
    set (w1 := (new_ref false (S o) w).2). cbv iota beta.
    assert (D1 : deref w1 (S (length (refs w))) = Some (JString s)).
    { unfold deref. subst w1. by rewrite resolve_new_ref. }
    rewrite bind_unfold, (toString_of_string w1 _ s D1 Hp). cbv iota beta.
    rewrite bind_unfold.
    destruct (resolve_in_range _ _ _ R) as [_ Hh].
    destruct (DeleteLocalRef_other (S (length (refs w))) h w1)
      as (R2 & O2 & P2 & _); [lia|].
    change (JNI.DeleteLocalRef (S (length (refs w))) w1) with
      (Ok tt, (JNI.DeleteLocalRef (S (length (refs w))) w1).2).
    set (w2 := (JNI.DeleteLocalRef _ w1).2) in *. cbv iota beta.
    destruct (IH (S i) (acc ++ [c_str s]) w2) as (w' & E & Hp').
    + rewrite P2. exact Hp.
    + rewrite R2. apply (st_refs _ _ (stable_new_ref false (S o) w)). exact R.
    + by rewrite O2.
    + intros k s0 Hs0. rewrite O2. by apply Hss.
    + lia.
    + exists w'. rewrite E. split; [|done].
      rewrite (drop_S _ _ _ Hs). simpl. by rewrite <- app_assoc.
Qed.

(** [toVectorString] reads the strings of the array back, in order. *)
Lemma toVectorString_of_strings (w : World) (h : jobject) (ss : list string) :
  holds_strings w h ss -> pending w = None ->
  (Tools.toVectorString h w).1 = Ok (map c_str ss).
Proof.
  intros (j & es & R & Hj & L & Hss) Hp.
  destruct h as [|h]; [done|].
  unfold Tools.toVectorString. rewrite bind_unfold.
  rewrite (bind_unfold (JNI.GetArrayLength _)).
  unfold JNI.GetArrayLength at 1.
  assert (D : deref w (S h) = Some (JObjectArray es)).
  { unfold deref. by rewrite R. }
  rewrite D. cbv iota beta.
  destruct (toVectorString_loop_reads (S h) j es ss (length es) 0 [] w)
    as (w' & E & Hp'); try done; [lia|].
  rewrite E. cbv iota beta.
  rewrite bind_unfold, (checkException_none w' Hp'). cbn.
  by rewrite drop_0, L, firstn_all.
Qed.

Lemma map_c_str_idem (l : list string) : map c_str (map c_str l) = map c_str l.
Proof. rewrite map_map. apply map_ext. intros s. apply c_str_idem. Qed.

Lemma strings_there_and_back (l : list string) (w : World) :
  pending w = None -> alloc_faults w = [] ->
  (decode_encode (CVecString l) w).1 = Ok (CVecString (map c_str l)).
Proof.
  intros Hp Hf.
  destruct (toJObjectArray_run l w Hp Hf) as (h & w' & E & Hp' & Hs).
  pose proof (toVectorString_of_strings w' h _ Hs Hp') as Hr.
  unfold decode_encode, CPPToJNIConversor_convert.
  rewrite !bind_unfold, E. unfold ret at 1.
  cbn [type_of JNIToCPPConversor_convert].
  rewrite bind_unfold. destruct (Tools.toVectorString h w') as [r w''].
  cbn [fst] in Hr. rewrite Hr. cbn. by rewrite map_c_str_idem.
Qed.

(** *** Every type with both conversions *)

(** On a runtime with nothing pending and no allocation fault, a value
    of a type with both conversions comes back as it went out, its
    strings cut at their first NUL. *)
Lemma decode_encode_reads_back (x : cvalue) (w : World) :
  pending w = None -> alloc_faults w = [] -> both_ways x = true ->
  (decode_encode x w).1 = Ok (as_read_back x).
Proof.
  intros Hp Hf Hx. destruct x; try discriminate Hx.
  - by apply string_there_and_back.
  - by apply strings_there_and_back.
  - by apply bytes_there_and_back.
Qed.

Lemma forallb_nul_free_map (l : list string) :
  forallb nul_free l = true -> map c_str l = l.
Proof.
  induction l as [|s l IH]; [reflexivity|]. simpl.
  intros [Hs Hl]%andb_true_iff. by rewrite (c_str_nul_free s Hs), IH.
Qed.

(** C5, for the values that do come back: a string without NUL
    characters, a vector of such strings and a byte vector, converted for
    the runtime and converted back on a runtime with nothing pending and
    no allocation fault, yield the value that went out. *)
Theorem nul_free_values_round_trip (x : cvalue) (w : World) :
  pending w = None -> alloc_faults w = [] -> round_trips x = true ->
  (decode_encode x w).1 = Ok x.
Proof.
  intros Hp Hf Hx.
  assert (Hb : both_ways x = true) by (by destruct x).
  rewrite (decode_encode_reads_back x w Hp Hf Hb).
  destruct x; try discriminate Hx; simpl in *.
  - by rewrite c_str_nul_free.
  - by rewrite forallb_nul_free_map.
  - reflexivity.
Qed.

Lemma nul_free_values_round_trip_witness :
  (decode_encode (CVecString ["a"; "b"]) Sample.world).1 =
    Ok (CVecString ["a"; "b"]).
Proof.
  apply (nul_free_values_round_trip (CVecString ["a"; "b"]) Sample.world);
    reflexivity.
Defined.

(** C5, the claim as stated fails: a string with a NUL character in it
    comes back cut at the NUL. *)
Lemma string_with_nul_comes_back_cut :
  let x := CString (String "a"%char (String Ascii.zero "b")) in
  both_ways x = true /\
  pending Sample.world = None /\ alloc_faults Sample.world = [] /\
  (decode_encode x Sample.world).1 = Ok (CString "a") /\
  (decode_encode x Sample.world).1 <> Ok x.
Proof. vm_compute. repeat split; try reflexivity. discriminate. Qed.

(** The empty string, the empty string vector and the empty byte vector
    come back empty. *)
Example empty_values_round_trip :
  (decode_encode (CString "") Sample.world).1 = Ok (CString "") /\
  (decode_encode (CVecString []) Sample.world).1 = Ok (CVecString []) /\
  (decode_encode (CVecByte []) Sample.world).1 = Ok (CVecByte []).
Proof. vm_compute. repeat split; reflexivity. Qed.

(** A map has the outbound conversion only: there is no
    [JNIToCPPConversor] for it to come back through. *)
Example map_has_no_way_back :
  both_ways (CMap []) = false /\
  came_back (CPPToJNIConversor_convert (CMap []) Sample.world).1 = true /\
  (decode_encode (CMap []) Sample.world).1 = Abort Uninstantiable.
Proof. vm_compute. repeat split; reflexivity. Qed.

(* ================================================================== *)
(** * Further properties of the sources                                *)
(* ================================================================== *)

(** A framed step leaves every reference that existed before it as it
    was. *)
Lemma frame_keeps_refs (rs : list jobject) (w w' : World) :
  frame (length (refs w)) rs w w' ->
  forall i r, refs w !! i = Some r -> refs w' !! i = Some r.
Proof.
  intros F i r H. destruct (fr_refs _ _ _ _ F i r H) as [?|[Hle _]]; [done|].
  apply lookup_lt_Some in H. lia.
Qed.

(** ** The failure check and the teardown drain *)

(** X1. On an attached thread [checkException] returns normally exactly
    when no failure is pending in the runtime, and then it leaves the state
    as it is; a pending failure always becomes a thrown [JNIException]
    that carries the message of the failure (the empty text when the
    failure has no message or its message getter raises): the check never
    lets a pending failure pass and never ends the program. *)
Theorem checkException_throws_iff_pending (w : World) :
  healthy w ->
  ((Tools.checkException w).1 = Ok tt <-> pending w = None) /\
  (pending w = None -> Tools.checkException w = (Ok tt, w)) /\
  (forall t, pending w = Some t ->
     (Tools.checkException w).1 =
       Throw {| message := c_str (message_text t) |}).
Proof.
  intros Hh. split; [split|split].
  - destruct (pending w) as [t|] eqn:Hp; [|done].
    destruct (checkException_pending w t Hh Hp) as (w' & E & _).
    rewrite E. discriminate.
  - intros Hp. by rewrite checkException_none.
  - apply checkException_none.
  - intros t Hp.
    destruct (checkException_pending w t Hh Hp) as (w' & E & _).
    by rewrite E.
Qed.

Lemma checkException_throws_iff_pending_witness :
  ((Tools.checkException Sample.world_raised).1 = Ok tt <->
   pending Sample.world_raised = None) /\
  (pending Sample.world_raised = None ->
   Tools.checkException Sample.world_raised = (Ok tt, Sample.world_raised)) /\
  (forall t, pending Sample.world_raised = Some t ->
     (Tools.checkException Sample.world_raised).1 =
       Throw {| message := c_str (message_text t) |}).
Proof.
  apply (checkException_throws_iff_pending Sample.world_raised).
  split; [reflexivity | simpl; lia].
Defined.

(** On the sample thread with the failure "boom" pending, the check throws
    a [JNIException] with that text. *)
Example checkException_throws_boom :
  (Tools.checkException Sample.world_raised).1 = Throw {| message := "boom" |}.
Proof. vm_compute. reflexivity. Qed.

(** X2. With a pending failure whose message getter returns, the check
    throws a [JNIException] carrying the message (the empty text for a null
    message), leaves nothing pending, and leaves every reference that
    existed before the check as it was. *)
Theorem checkException_reports_message_and_clears (w : World)
    (m : option string) :
  healthy w -> pending w = Some (Throwable m) ->
  exists w',
    Tools.checkException w =
      (Throw {| message := c_str (default "" m) |}, w') /\
    pending w' = None /\
    (forall i r, refs w !! i = Some r -> refs w' !! i = Some r).
Proof.
  intros Hh Hp.
  destruct (checkException_pending w _ Hh Hp) as (w' & E & P & _).
  exists w'. split; [|split; [exact P|]].
  - rewrite E. by destruct m.
  - destruct (checkException_framed w) as [F _]. rewrite E in F.
    exact (frame_keeps_refs _ _ _ F).
Qed.

Lemma checkException_reports_message_and_clears_witness :
  exists w',
    Tools.checkException Sample.world_raised =
      (Throw {| message := c_str (default "" (Some "boom")) |}, w') /\
    pending w' = None /\
    (forall i r, refs Sample.world_raised !! i = Some r -> refs w' !! i = Some r).
Proof.
  apply (checkException_reports_message_and_clears Sample.world_raised
           (Some "boom")).
  - split; [reflexivity | simpl; lia].
  - reflexivity.
Defined.

(** What [clearException] does with a failure pending: it logs the message
    of the failure and comes back with what the message getter raised. *)
Lemma clearException_pending (w : World) (t : throwable) :
  healthy w -> pending w = Some t ->
  exists w' evs,
    Tools.clearException w = (Ok tt, w') /\
    pending w' = raised_by_getMessage t /\
    javaVM w' = javaVM w /\ attach_status w' = attach_status w /\
    trace w' = trace w ++ evs /\
    In (EvLog (c_str (message_text t))) evs.
Proof.
  intros Hh Hp. unfold Tools.clearException.
  assert (E0 : JNI.ExceptionCheck w = (Ok true, w))
    by (unfold JNI.ExceptionCheck; by rewrite Hp).
  rewrite (bind_ok _ _ _ _ _ E0).
  assert (E1 : JNI.ExceptionOccurred w =
               (Ok (S (length (refs w))), (local_ref_to (JThrowable t) w).2))
    by (unfold JNI.ExceptionOccurred; by rewrite Hp).
  rewrite (bind_ok _ _ _ _ _ E1).
  pose proof (deref_local_ref_to (JThrowable t) w) as D1.
  assert (T1 : trace (local_ref_to (JThrowable t) w).2 =
               trace w ++ [EvNewLocalRef (S (length (refs w)))]) by reflexivity.
  set (w1 := (local_ref_to (JThrowable t) w).2) in *.
  unfold JNI.ExceptionDescribe. rewrite bind_ret.
  rewrite (bind_ok JNI.ExceptionClear _ w1 (set_pending w1 None) tt eq_refl).
  unfold Tools.getMethodInfo.
  rewrite (bind_ok _ _ _ _ _
             (getMessage_info Tools.checkException (set_pending w1 None)
                checkException_quiet eq_refl)).
  set (cls := S (length (refs (set_pending w1 None)))).
  assert (T3 : exists e3, trace (emit (EvGetMethodID "java/lang/Throwable"
                 "getMessage" "()Ljava/lang/String;")
                 (local_ref_to (JClass "java/lang/Throwable")
                    (set_pending w1 None)).2).2 = trace w ++ e3).
  { eexists. simpl. rewrite <- !app_assoc. reflexivity. }
  assert (V3 : javaVM (emit (EvGetMethodID "java/lang/Throwable"
                 "getMessage" "()Ljava/lang/String;")
                 (local_ref_to (JClass "java/lang/Throwable")
                    (set_pending w1 None)).2).2 = javaVM w /\
               attach_status (emit (EvGetMethodID "java/lang/Throwable"
                 "getMessage" "()Ljava/lang/String;")
                 (local_ref_to (JClass "java/lang/Throwable")
                    (set_pending w1 None)).2).2 = attach_status w)
    by (split; reflexivity).
  set (w3 := (emit _ _).2) in *.
  assert (D3 : deref w3 (S (length (refs w))) = Some (JThrowable t)).
  { apply (stable_deref (set_pending w1 None)); [|exact D1].
    eapply stable_trans; [|apply stable_emit].
    destruct (local_ref_to_run (JClass "java/lang/Throwable") (set_pending w1 None))
      as (w' & E & S & _). by rewrite E. }
  assert (P3 : pending w3 = None) by reflexivity.
  unfold unwind. cbn [methodId classId weak_].
  rewrite bind_unfold, (CallObjectMethod_getMessage w3 _ t D3).
  assert (Hd : forall s', healthy s' ->
            exists s'', Tools.JNIMethodInfo_destructor
              {| classId := cls; methodId := MGetMessage; weak_ := false |} s' =
              (Ok tt, s'') /\ pending s'' = pending s' /\
              javaVM s'' = javaVM s' /\ attach_status s'' = attach_status s' /\
              exists e, trace s'' = trace s' ++ e).
  { intros s' Hs'. unfold Tools.JNIMethodInfo_destructor. cbn [weak_ classId].
    subst cls. cbv iota. attach. eexists. split; [reflexivity|].
    unfold JNI.DeleteLocalRef. cbn [snd].
    destruct (kill_ref_fields false (S (length (refs (set_pending w1 None))))
                (set_trace s' (trace s' ++
                   [EvDeleteLocalRef (S (length (refs (set_pending w1 None))))])))
      as (-> & -> & -> & _ & _ & -> & _).
    split; [done|]. split; [done|]. split; [done|]. by eexists. }
  destruct T3 as [e3 T3]. destruct V3 as [V3 S3].
  destruct t as [[s|]|c].
  - rewrite local_ref_to_eq.
    pose proof (deref_local_ref_to (JString s) w3) as D4.
    assert (T4 : trace (local_ref_to (JString s) w3).2 =
                 trace w3 ++ [EvNewLocalRef (S (length (refs w3)))])
      by reflexivity.
    assert (V4 : javaVM (local_ref_to (JString s) w3).2 = javaVM w3 /\
                 attach_status (local_ref_to (JString s) w3).2 =
                 attach_status w3) by (split; reflexivity).
    set (w4 := (local_ref_to (JString s) w3).2) in *.
    assert (P4 : pending w4 = None) by reflexivity.
    rewrite (bind_ok _ _ _ _ _ (toString_of_string w4 _ s D4 P4)).
    unfold emit at 1. rewrite c_str_idem.
    destruct (Hd (set_trace w4 (trace w4 ++ [EvLog (c_str s)])) Hh)
      as (s'' & -> & P & V & A & e & Te).
    destruct V4 as [V4 S4].
    exists s''. eexists. split; [reflexivity|]. split; [by rewrite P|].
    split; [rewrite V; cbn [javaVM set_trace]; congruence|].
    split; [rewrite A; cbn [attach_status set_trace]; congruence|].
    split.
    + rewrite Te. cbn [trace set_trace]. rewrite T4, T3, <- !app_assoc.
      reflexivity.
    + rewrite !in_app_iff. right. right. left. by left.
  - rewrite (bind_ok (Tools.toString NULL) _ w3 w3 "" eq_refl).
    unfold emit at 1.
    destruct (Hd (set_trace w3 (trace w3 ++ [EvLog (c_str "")])) Hh)
      as (s'' & -> & P & V & A & e & Te).
    exists s''. eexists. split; [reflexivity|]. split; [by rewrite P|].
    split; [rewrite V; cbn [javaVM set_trace]; congruence|].
    split; [rewrite A; cbn [attach_status set_trace]; congruence|].
    split.
    + rewrite Te. cbn [trace set_trace]. rewrite T3, <- !app_assoc.
      reflexivity.
    + rewrite !in_app_iff. right. left. by left.
  - rewrite (bind_ok (Tools.toString NULL) _ _ _ "" eq_refl).
    unfold emit at 1.
    destruct (Hd (set_trace (set_pending w3 (Some c))
                (trace (set_pending w3 (Some c)) ++ [EvLog (c_str "")])) Hh)
      as (s'' & -> & P & V & A & e & Te).
    exists s''. eexists. split; [reflexivity|]. split; [by rewrite P|].
    split; [rewrite V; cbn [javaVM set_trace set_pending]; congruence|].
    split; [rewrite A; cbn [attach_status set_trace set_pending]; congruence|].
    split.
    + rewrite Te. cbn [trace set_trace set_pending]. rewrite T3, <- !app_assoc.
      reflexivity.
    + rewrite !in_app_iff. right. left. by left.
Qed.

(** What [clearException] does, case by case. *)
Lemma clearException_spec (w : World) :
  healthy w ->
  exists w',
    Tools.clearException w = (Ok tt, w') /\
    (pending w = None -> w' = w) /\
    (forall m, pending w = Some (Throwable m) ->
       pending w' = None /\
       exists evs, trace w' = trace w ++ evs /\
                   In (EvLog (c_str (default "" m))) evs).
Proof.
  intros Hh. destruct (pending w) as [t|] eqn:Hp.
  - destruct (clearException_pending w t Hh Hp)
      as (w' & evs & E & P & _ & _ & Tr & Hin).
    exists w'. split; [exact E|]. split; [done|].
    intros m [= ->]. split; [exact P|]. exists evs. split; [exact Tr|].
    by destruct m.
  - exists w. split; [|split; [done|intros m Hm; discriminate Hm]].
    unfold Tools.clearException. rewrite bind_unfold.
    unfold JNI.ExceptionCheck at 1. by rewrite Hp.
Qed.

(** X3. [clearException] never throws on an attached thread. With nothing
    pending it leaves the state as it is; with a pending failure whose
    message getter returns it logs the message and leaves nothing
    pending. *)
Theorem clearException_drains_and_logs (w : World) :
  healthy w ->
  exists w',
    Tools.clearException w = (Ok tt, w') /\
    (pending w = None -> w' = w) /\
    (forall m, pending w = Some (Throwable m) ->
       pending w' = None /\
       exists evs, trace w' = trace w ++ evs /\
                   In (EvLog (c_str (default "" m))) evs).
Proof. apply clearException_spec. Qed.

Lemma clearException_drains_and_logs_witness :
  exists w',
    Tools.clearException Sample.world_raised = (Ok tt, w') /\
    (pending Sample.world_raised = None -> w' = Sample.world_raised) /\
    (forall m, pending Sample.world_raised = Some (Throwable m) ->
       pending w' = None /\
       exists evs, trace w' = trace Sample.world_raised ++ evs /\
                   In (EvLog (c_str (default "" m))) evs).
Proof.
  apply (clearException_drains_and_logs Sample.world_raised).
  split; [reflexivity | simpl; lia].
Defined.

(** ** Resolving a method *)

Lemma local_live_after_delete (h : jobject) (w : World) :
  local_live (JNI.DeleteLocalRef h w).2 h = false.
Proof.
  unfold JNI.DeleteLocalRef, kill_ref, local_live. cbn [snd].
  destruct h as [|i]; [done|]. cbn [refs set_trace].
  destruct (refs w !! i) as [r|] eqn:E.
  - destruct (r_global r) eqn:G; cbn [Bool.eqb].
    + cbn [refs set_trace]. rewrite E, G. by rewrite andb_false_r.
    + cbn [refs set_refs set_trace]. rewrite list_lookup_insert_eq; [done|].
      by apply lookup_lt_Some in E.
  - cbn [refs set_trace]. by rewrite E.
Qed.

(** A resolver that returns has found the class and the method. *)
Lemma getMethodInfo_rec_nonnull (check : M World unit)
    (className methodName signature : string) (w w' : World)
    (mi : JNIMethodInfo) :
  Tools.getMethodInfo_rec check className methodName signature w = (Ok mi, w') ->
  classId mi <> NULL /\ methodId mi <> MNull /\ weak_ mi = false.
Proof.
  unfold Tools.getMethodInfo_rec. rewrite bind_unfold.
  destruct (JNI.FindClass _ w) as [[c|?|?] w1]; [|discriminate..].
  rewrite bind_unfold. destruct (check w1) as [[[]|?|?] w2]; [|discriminate..].
  destruct c as [|c]; [discriminate|].
  rewrite bind_unfold. destruct (check w2) as [[[]|?|?] w3]; [|discriminate..].
  rewrite bind_unfold.
  destruct (JNI.GetMethodID _ _ _ w3) as [[mid|?|?] w4]; [|discriminate..].
  rewrite bind_unfold. destruct (check w4) as [[[]|?|?] w5]; [|discriminate..].
  destruct mid; [discriminate|..]; intros [= <- _]; by repeat split.
Qed.

Lemma getStaticMethodInfo_rec_nonnull (check : M World unit)
    (className methodName signature : string) (w w' : World)
    (mi : JNIMethodInfo) :
  Tools.getStaticMethodInfo_rec check className methodName signature w =
    (Ok mi, w') ->
  classId mi <> NULL /\ methodId mi <> MNull /\ weak_ mi = false.
Proof.
  unfold Tools.getStaticMethodInfo_rec. rewrite bind_unfold.
  destruct (JNI.FindClass _ w) as [[c|?|?] w1]; [|discriminate..].
  rewrite bind_unfold. destruct (check w1) as [[[]|?|?] w2]; [|discriminate..].
  destruct c as [|c]; [discriminate|].
  rewrite bind_unfold.
  destruct (JNI.GetStaticMethodID _ _ _ w2) as [[mid|?|?] w4]; [|discriminate..].
  rewrite bind_unfold. destruct (check w4) as [[[]|?|?] w5]; [|discriminate..].
  destruct mid; [discriminate|..]; intros [= <- _]; by repeat split.
Qed.

Lemma getMethodInfo_class_rec_nonnull (check : M World unit) (cls : jobject)
    (methodName signature : string) (w w' : World) (mi : JNIMethodInfo) :
  Tools.getMethodInfo_class_rec check cls methodName signature w = (Ok mi, w') ->
  classId mi = cls /\ methodId mi <> MNull /\ weak_ mi = true.
Proof.
  unfold Tools.getMethodInfo_class_rec.
  rewrite bind_unfold. destruct (check w) as [[[]|?|?] w1]; [|discriminate..].
  rewrite bind_unfold.
  destruct (JNI.GetMethodID _ _ _ w1) as [[mid|?|?] w2]; [|discriminate..].
  rewrite bind_unfold. destruct (check w2) as [[[]|?|?] w3]; [|discriminate..].
  destruct mid; [discriminate|..]; intros [= <- _]; by repeat split.
Qed.

(** X5. A method info that a resolver returns never holds a null method
    token; the two resolvers that look the class up by name return a
    non-null class reference that the info owns, and the resolver that is
    given the class returns that class, marked as not owned. *)
Theorem resolved_method_info_is_never_null (className methodName signature : string)
    (cls : jobject) (w w' : World) (mi : JNIMethodInfo) :
  (Tools.getMethodInfo className methodName signature w = (Ok mi, w') ->
   classId mi <> NULL /\ methodId mi <> MNull /\ weak_ mi = false) /\
  (Tools.getStaticMethodInfo className methodName signature w = (Ok mi, w') ->
   classId mi <> NULL /\ methodId mi <> MNull /\ weak_ mi = false) /\
  (Tools.getMethodInfo_class cls methodName signature w = (Ok mi, w') ->
   classId mi = cls /\ methodId mi <> MNull /\ weak_ mi = true).
Proof.
  split; [apply getMethodInfo_rec_nonnull|].
  split; [apply getStaticMethodInfo_rec_nonnull|].
  apply getMethodInfo_class_rec_nonnull.
Qed.

Lemma resolved_method_info_is_never_null_witness :
  exists mi w',
    Tools.getMethodInfo Sample.Foo "ping" "()V" Sample.world = (Ok mi, w') /\
    classId mi <> NULL /\ methodId mi <> MNull /\ weak_ mi = false.
Proof.
  eexists _, _. split; [vm_compute; reflexivity|].
  refine (proj1 (resolved_method_info_is_never_null Sample.Foo "ping" "()V"
                   NULL Sample.world _ _) _).
  vm_compute. reflexivity.
Defined.

(** X6. The method info that [getMethodInfo] returns for a class name owns
    a class reference made during the lookup, and its destructor deletes
    that reference, once; the info that the overload taking a class returns
    leaves the caller's class reference alone when it is destroyed. *)
Theorem method_info_releases_what_it_owns (className methodName signature : string)
    (cls : jobject) (w w' : World) (mi : JNIMethodInfo) :
  healthy w ->
  (Tools.getMethodInfo className methodName signature w = (Ok mi, w') ->
   (length (refs w) < classId mi <= length (refs w') /\
    local_live w' (classId mi) = true) /\
   exists w'',
     Tools.JNIMethodInfo_destructor mi w' = (Ok tt, w'') /\
     trace w'' = trace w' ++ [EvDeleteLocalRef (classId mi)] /\
     local_live w'' (classId mi) = false) /\
  (Tools.getMethodInfo_class cls methodName signature w = (Ok mi, w') ->
   Tools.JNIMethodInfo_destructor mi w' = (Ok tt, w')).
Proof.
  intros Hh. split.
  - intros E. destruct (getMethodInfo_rec_nonnull _ _ _ _ _ _ _ E) as (Hc & _ & Hw).
    destruct (getMethodInfo_framed className methodName signature w) as (F & _ & HQ).
    rewrite E in F, HQ. cbn [fst snd] in F, HQ.
    destruct (HQ mi eq_refl) as [_ [?|Hfresh]]; [done|].
    split; [exact Hfresh|].
    assert (Hh' : healthy w') by exact (frame_healthy _ _ _ _ F Hh).
    unfold Tools.JNIMethodInfo_destructor. rewrite Hw.
    destruct (classId mi) as [|c] eqn:Ec; [done|].
    attach. eexists. split; [reflexivity|]. split.
    + unfold JNI.DeleteLocalRef. cbn [snd].
      by destruct (kill_ref_fields false (S c)
                  (set_trace w' (trace w' ++ [EvDeleteLocalRef (S c)])))
        as (_ & _ & _ & _ & _ & -> & _).
    + exact (local_live_after_delete (S c) w').
  - intros E.
    destruct (getMethodInfo_class_rec_nonnull _ _ _ _ _ _ _ E) as (_ & _ & Hw).
    unfold Tools.JNIMethodInfo_destructor. by rewrite Hw.
Qed.

Lemma method_info_releases_what_it_owns_witness :
  exists mi w',
    Tools.getMethodInfo Sample.Foo "ping" "()V" Sample.world = (Ok mi, w') /\
    (length (refs Sample.world) < classId mi <= length (refs w') /\
     local_live w' (classId mi) = true) /\
    exists w'',
      Tools.JNIMethodInfo_destructor mi w' = (Ok tt, w'') /\
      trace w'' = trace w' ++ [EvDeleteLocalRef (classId mi)] /\
      local_live w'' (classId mi) = false.
Proof.
  eexists _, _. split; [vm_compute; reflexivity|].
  refine (proj1 (method_info_releases_what_it_owns Sample.Foo "ping" "()V"
                   NULL Sample.world _ _ _) _).
  - split; [reflexivity | simpl; lia].
  - vm_compute. reflexivity.
Defined.

(** ** The public calls *)

Lemma GetMethodID_then {B} (cls : jobject) (name sig : string)
    (k : jmethodID -> M World B) (w : World) :
  bind (JNI.GetMethodID cls name sig) k w =
  bind (JNI.get_method false cls name sig) k
    (emit (EvGetMethodID (default "" (JNI.class_name w cls)) name sig) w).2.
Proof. reflexivity. Qed.

Lemma lookup_rest_framed (cls : jobject) (name sig msg : string) :
  framed True
    (let! methodId := JNI.get_method false cls name sig in
     Tools.checkException ;;;
     match methodId with
     | MNull => throw_JNIException msg
     | _ => ret {| classId := cls; methodId := methodId; weak_ := true |}
     end) any_ret.
Proof.
  intros w.
  step (get_method_framed false cls name sig) as mid w1 E F H.
  step checkException_framed as u w2 E2 F2 H2.
  destruct mid; first [apply throw_framed | by apply runs_ret].
Qed.

(** The first thing the resolver of [Call] does with a class at hand and
    nothing pending is to ask the runtime for the method. *)
Lemma getMethodInfo_class_first_event (cls : jobject) (c name sig : string)
    (w : World) :
  pending w = None -> JNI.class_name w cls = Some c ->
  exists evs,
    trace (Tools.getMethodInfo_class cls name sig w).2 =
      trace w ++ EvGetMethodID c (c_str name) sig :: evs.
Proof.
  intros Hp Hc. unfold Tools.getMethodInfo_class, Tools.getMethodInfo_class_rec.
  rewrite bind_unfold, (checkException_none w Hp), GetMethodID_then, Hc.
  cbn [default]. set (w1 := (emit _ w).2).
  destruct (lookup_rest_framed cls (c_str name) sig
              ("Could not find the given '" +:+ name +:+
               "' static method in the given classId'" +:+
               "' class using the '" +:+ sig +:+ "' signature.") w1) as [F _].
  destruct (fr_trace _ _ _ _ F) as (evs & Tr & _).
  exists evs. rewrite Tr. subst w1. simpl. by rewrite <- app_assoc.
Qed.

(** What follows the resolution in a call only adds to the trace, and
    deletes only references made since the call began. *)
Lemma resolved_call_deletes_fresh (okR okI : Prop)
    (resolve : M World JNIMethodInfo)
    (invoke : JNIMethodInfo -> list jvalue -> M World cvalue)
    (v : list cvalue) (w : World) :
  framed okR resolve resolved ->
  (forall mi js, framed okI (invoke mi js) any_ret) ->
  exists evs,
    trace (resolved_call resolve invoke v w).2 = trace w ++ evs /\
    (forall h, In h (dels evs) -> h = NULL \/ length (refs w) < h) /\
    (healthy w ->
     exists eT, evs = (* what the resolver added, then the rest *)
       drop (length (trace w)) (trace (resolve w).2) ++ eT).
Proof.
  intros HR HI. unfold resolved_call. rewrite bind_unfold.
  unfold Tools.attachJniEnv.
  destruct (javaVM w) eqn:Hvm.
  2:{ exists []. cbn. rewrite app_nil_r. split; [done|]. split; [done|].
      intros [Hv _]. congruence. }
  destruct (Z.ltb_spec (attach_status w) 0) as [Hst|Hst].
  { eexists [_]. cbn. split; [reflexivity|]. split; [by intros h []|].
    intros [_ Hs]. lia. }
  rewrite through_attached, bind_ret, bind_unfold.
  destruct (HR w) as (FA & _ & HA).
  destruct (resolve w) as [r1 wB] eqn:EA. cbn [fst snd] in *.
  pose proof FA as [VA SA LA _ (eA & TA & GA & DA)].
  assert (HdA : forall h, In h (dels eA) -> h = NULL \/ length (refs w) < h).
  { intros h Hd. destruct (DA h Hd) as [->|[? _]]; [by left|right; lia]. }
  assert (Hdrop : drop (length (trace w)) (trace wB) = eA).
  { rewrite TA. by rewrite drop_app_length. }
  destruct r1 as [mi|e|a].
  2,3: exists eA; split; [done|]; split; [done|];
       intros _; exists []; by rewrite Hdrop, app_nil_r.
  specialize (HA mi eq_refl).
  unfold with_methodInfo, unwind.
  destruct (with_paramDestructor_spec okI (nargs v) v (invoke mi) wB (HI mi))
    as (eT & TT & VT & ST & LT & DT & GT & RT & CT).
  destruct (with_paramDestructor (nargs v) _ wB) as [r2 wC] eqn:EC.
  cbn [fst snd] in *.
  assert (HdT : forall h, In h (dels (eA ++ eT)) -> h = NULL \/ length (refs w) < h).
  { intros h. rewrite dels_app, in_app_iff. intros [Hd|Hd]; [by apply HdA|].
    destruct (DT h Hd) as [->|?]; [by left|right; lia]. }
  destruct (JNIMethodInfo_destructor_trace mi wC) as (eD & TD & _ & DD).
  assert (HdD : forall h, In h (dels eD) -> h = NULL \/ length (refs w) < h).
  { intros h Hd. destruct (DD h Hd) as [Hw ->].
    destruct HA as [Hw'|[_ [->|[? _]]]]; [congruence|by left|right; lia]. }
  assert (Hall : forall h, In h (dels ((eA ++ eT) ++ eD)) ->
                           h = NULL \/ length (refs w) < h).
  { intros h. rewrite dels_app, in_app_iff. intros [Hd|Hd]; auto. }
  destruct r2 as [a|e|a].
  3:{ exists (eA ++ eT). cbn [fst snd].
      split; [by rewrite TT, TA, app_assoc|]. split; [exact HdT|].
      intros _. exists eT. by rewrite Hdrop. }
  all: destruct (Tools.JNIMethodInfo_destructor mi wC) as [[[]|e'|a'] wD];
    cbn [fst snd] in *;
    exists ((eA ++ eT) ++ eD);
    (split; [by rewrite TD, TT, TA, !app_assoc|]);
    (split; [exact Hall|]);
    intros _; exists (eT ++ eD); by rewrite Hdrop, app_assoc.
Qed.

Lemma Call_is_resolved_call (T : ctype) (instance classId : jobject)
    (methodName signature : string) (v : list cvalue) :
  Call T instance classId methodName signature v =
  resolved_call
    (Tools.getMethodInfo_class classId methodName
       (if empty signature then getJNISignature T (map type_of v)
        else c_str signature))
    (fun mi js => JNICaller.callInstance T instance (methodId mi) js) v.
Proof. reflexivity. Qed.

Lemma CallStatic_is_resolved_call (T : ctype)
    (className methodName signature : string) (v : list cvalue) :
  CallStatic T className methodName signature v =
  resolved_call
    (Tools.getStaticMethodInfo className methodName (c_str signature))
    (fun mi js => JNICaller.callStatic T (classId mi) (methodId mi) js) v.
Proof. reflexivity. Qed.

Lemma callRawNonVirtual_is_resolved_call (T : ctype) (instance : jobject)
    (className methodName signature : string) (v : list cvalue) :
  callRawNonVirtual T instance className methodName signature v =
  resolved_call
    (Tools.getMethodInfo className methodName (c_str signature))
    (fun mi js => JNICaller.callNonVirtual T instance (classId mi)
                    (methodId mi) js) v.
Proof. reflexivity. Qed.

Lemma getMethodInfo_class_resolved (cls : jobject) (name sig : string) :
  framed True (Tools.getMethodInfo_class cls name sig) resolved.
Proof.
  eapply framed_conseq; [apply getMethodInfo_class_framed|].
  intros ? ? ? H. by left.
Qed.

Lemma getStaticMethodInfo_resolved (cls name sig : string) :
  framed True (Tools.getStaticMethodInfo cls name sig) resolved.
Proof.
  eapply framed_conseq; [apply getStaticMethodInfo_framed|].
  intros ? ? ? H. by right.
Qed.

Lemma getMethodInfo_resolved (cls name sig : string) :
  framed True (Tools.getMethodInfo cls name sig) resolved.
Proof.
  eapply framed_conseq; [apply getMethodInfo_framed|].
  intros ? ? ? H. by right.
Qed.

(** X7. [Call], [CallStatic] and [callRawNonVirtual] pass to
    [DeleteLocalRef] only references that were made during the call (or
    null): a reference the caller held before the call, the instance, the
    class or the reference of a proxy argument, is never deleted by it. *)
Theorem calls_delete_only_their_own_references (T : ctype)
    (inst cls : jobject) (className methodName signature : string)
    (v : list cvalue) (w : World) :
  (exists evs,
     trace (Call T inst cls methodName signature v w).2 =
       trace w ++ evs /\
     forall h, In h (dels evs) -> h = NULL \/ length (refs w) < h) /\
  (exists evs,
     trace (CallStatic T className methodName signature v w).2 =
       trace w ++ evs /\
     forall h, In h (dels evs) -> h = NULL \/ length (refs w) < h) /\
  (exists evs,
     trace (callRawNonVirtual T inst className methodName signature v w).2 =
       trace w ++ evs /\
     forall h, In h (dels evs) -> h = NULL \/ length (refs w) < h).
Proof.
  split; [|split].
  - rewrite Call_is_resolved_call.
    destruct (resolved_call_deletes_fresh True (callable T)
                (Tools.getMethodInfo_class cls methodName
                   (if empty signature then getJNISignature T (map type_of v)
                    else c_str signature))
                (fun mi js => JNICaller.callInstance T inst (methodId mi) js)
                v w (getMethodInfo_class_resolved _ _ _)
                (fun mi js => call_framed T inst (methodId mi) js))
      as (evs & Tr & Hd & _).
    by exists evs.
  - rewrite CallStatic_is_resolved_call.
    destruct (resolved_call_deletes_fresh True (callable T)
                (Tools.getStaticMethodInfo className methodName (c_str signature))
                (fun mi js => JNICaller.callStatic T (classId mi) (methodId mi) js)
                v w (getStaticMethodInfo_resolved _ _ _)
                (fun mi js => call_framed T (classId mi) (methodId mi) js))
      as (evs & Tr & Hd & _).
    by exists evs.
  - rewrite callRawNonVirtual_is_resolved_call.
    destruct (resolved_call_deletes_fresh True (T = TVoid)
                (Tools.getMethodInfo className methodName (c_str signature))
                (fun mi js => JNICaller.callNonVirtual T inst (classId mi)
                                (methodId mi) js)
                v w (getMethodInfo_resolved _ _ _)
                (fun mi js => callNonVirtual_framed T inst (classId mi)
                                (methodId mi) js))
      as (evs & Tr & Hd & _).
    by exists evs.
Qed.

(** The first event of a [Call] on an attached thread with a class at hand
    and nothing pending. *)
Lemma Call_resolves_first (cls : jobject) (T : ctype) (inst : jobject)
    (c methodName signature : string) (v : list cvalue) (w : World) :
  healthy w -> pending w = None -> JNI.class_name w cls = Some c ->
  exists evs,
    trace (Call T inst cls methodName signature v w).2 =
      trace w ++
      EvGetMethodID c (c_str methodName)
        (if empty signature then getJNISignature T (map type_of v)
         else c_str signature) :: evs.
Proof.
  intros Hh Hp Hc. rewrite Call_is_resolved_call.
  set (sig := if empty signature then _ else _).
  destruct (resolved_call_deletes_fresh True (callable T)
              (Tools.getMethodInfo_class cls methodName sig)
              (fun mi js => JNICaller.callInstance T inst (methodId mi) js)
              v w (getMethodInfo_class_resolved _ _ _)
              (fun mi js => call_framed T inst (methodId mi) js))
    as (evs & Tr & _ & Hs).
  destruct (Hs Hh) as (eT & ->).
  destruct (getMethodInfo_class_first_event cls c methodName sig w Hp Hc)
    as (eA & TA).
  exists (eA ++ eT). rewrite Tr, TA, drop_app_length. reflexivity.
Qed.


(** X8. [Call] asks the runtime for the method with the signature derived
    from the return type and the argument types when the given signature is
    empty, and with the given signature otherwise. *)
Theorem Call_resolves_with_derived_signature (T : ctype)
    (instance classId : jobject) (c methodName signature : string)
    (v : list cvalue) (w : World) :
  healthy w -> pending w = None -> JNI.class_name w classId = Some c ->
  exists evs,
    trace (Call T instance classId methodName signature v w).2 =
      trace w ++
      EvGetMethodID c (c_str methodName)
        (if empty signature then getJNISignature T (map type_of v)
         else c_str signature) :: evs.
Proof.
  intros Hh Hp Hc.
  exact (Call_resolves_first classId T instance c methodName signature v w
           Hh Hp Hc).
Qed.

Lemma Call_resolves_with_derived_signature_witness :
  exists evs,
    trace (Call TVoid 1 2 "ping" "" []
             (JNI.FindClass Sample.Foo Sample.world).2).2 =
      trace (JNI.FindClass Sample.Foo Sample.world).2 ++
      EvGetMethodID Sample.Foo (c_str "ping")
        (if empty "" then getJNISignature TVoid (map type_of [])
         else c_str "") :: evs.
Proof.
  apply (Call_resolves_with_derived_signature TVoid 1 2 Sample.Foo "ping" "" []
           (JNI.FindClass Sample.Foo Sample.world).2).
  - split; [reflexivity | simpl; lia].
  - reflexivity.
  - reflexivity.
Defined.

Lemma getMethodInfo_class_missing (cls : jobject) (c name sig : string)
    (w : World) :
  healthy w -> pending w = None -> JNI.class_name w cls = Some c ->
  JNI.lookup_method w false c (c_str name) sig = MNull ->
  exists e w',
    Tools.getMethodInfo_class cls name sig w = (Throw e, w') /\
    pending w' = None.
Proof.
  intros Hh Hp Hc Hl.
  unfold Tools.getMethodInfo_class, Tools.getMethodInfo_class_rec.
  rewrite bind_unfold, (checkException_none w Hp), GetMethodID_then, Hc.
  cbn [default]. set (w1 := (emit _ w).2).
  rewrite bind_unfold. unfold JNI.get_method.
  change (JNI.class_name w1 cls) with (JNI.class_name w cls). rewrite Hc.
  change (JNI.lookup_method w1 false c (c_str name) sig) with
    (JNI.lookup_method w false c (c_str name) sig). rewrite Hl.
  set (w2 := set_pending w1 _).
  assert (Hh2 : healthy w2) by exact Hh.
  destruct (checkException_pending w2 (Throwable (Some (c_str name))) Hh2 eq_refl)
    as (w' & E & P & _).
  rewrite bind_unfold, E. by eexists _, _.
Qed.

(** X9. A [Call] of a method that the class of the receiver does not have
    (under the signature the call resolves with) throws a [JNIException],
    before any argument is converted, and leaves no failure pending in the
    runtime. *)
Theorem Call_of_missing_method_throws (T : ctype) (inst cls : jobject)
    (c methodName signature : string) (v : list cvalue) (w : World) :
  healthy w -> pending w = None -> JNI.class_name w cls = Some c ->
  JNI.lookup_method w false c (c_str methodName)
    (if empty signature then getJNISignature T (map type_of v)
     else c_str signature) = MNull ->
  exists e w',
    Call T inst cls methodName signature v w = (Throw e, w') /\
    pending w' = None /\ regs (trace w') = regs (trace w).
Proof.
  intros Hh Hp Hc Hl. unfold Call. attach.
  destruct (getMethodInfo_class_missing cls c methodName _ w Hh Hp Hc Hl)
    as (e & w' & E & P).
  destruct (getMethodInfo_class_framed cls methodName
              (if empty signature then getJNISignature T (map type_of v)
               else c_str signature) w) as [F _].
  rewrite E in F. cbn [snd] in F.
  destruct (fr_trace _ _ _ _ F) as (evs & Tr & Hr & _).
  rewrite bind_unfold, E. exists e, w'. split; [done|]. split; [done|].
  by rewrite Tr, regs_app, Hr, app_nil_r.
Qed.

Lemma Call_of_missing_method_throws_witness :
  exists e w',
    Call TInt32 1 2 "size" "" [] (JNI.FindClass Sample.Foo Sample.world).2 =
      (Throw e, w') /\
    pending w' = None /\
    regs (trace w') = regs (trace (JNI.FindClass Sample.Foo Sample.world).2).
Proof.
  apply (Call_of_missing_method_throws TInt32 1 2 Sample.Foo "size" "" []
           (JNI.FindClass Sample.Foo Sample.world).2).
  - split; [reflexivity | simpl; lia].
  - reflexivity.
  - reflexivity.
  - reflexivity.
Defined.

(** ** The proxy *)



(** ** Conversions on the way in *)

Lemma news_app (a b : list event) : news (a ++ b) = news a ++ news b.
Proof. induction a as [|[] a IH]; simpl; by rewrite ?IH. Qed.






Lemma denotes_new_ref (g : bool) (oid : nat) (w : World) (h : jobject) (o : nat) :
  denotes w h o -> denotes (new_ref g oid w).2 h o.
Proof.
  intros [[-> ->]|R]; [by left|right].
  exact (st_refs _ _ (stable_new_ref g oid w) _ _ R).
Qed.

(** The loop of [toVectorJObject]: one reference per element, none
    deleted. *)
Lemma toVectorJObject_loop_denotes (h : jobject) (j : nat) (es : list nat) :
  forall (n i : nat) (acc : list jobject) (w : World),
    resolve w h = Some (S j) -> objs w !! j = Some (JObjectArray es) ->
    i + n <= length es ->
    Forall2 (denotes w) acc (take i es) ->
    exists w' hs evs,
      Tools.toVectorJObject_loop h i n acc w = (Ok hs, w') /\
      Forall2 (denotes w') hs (take (i + n) es) /\
      pending w' = pending w /\ objs w' = objs w /\
      trace w' = trace w ++ evs /\ dels evs = [].
Proof.
  induction n as [|n IH]; intros i acc w R Hj Hlen Hacc.
  - exists w, acc, []. simpl. rewrite Nat.add_0_r, app_nil_r. by repeat split.
  - destruct (lookup_lt_is_Some_2 es i) as [oid He]; [lia|].
    cbn [Tools.toVectorJObject_loop].
    rewrite bind_unfold. unfold JNI.GetObjectArrayElement at 1.
    assert (D : deref w h = Some (JObjectArray es)).
    { unfold deref. by rewrite R. }
    rewrite D, He.
    assert (Hstep : exists hv w1 e1,
              (match oid with
               | 0 => (Ok NULL, w)
               | S _ => new_ref false oid w
               end) = (Ok hv, w1) /\
              denotes w1 hv oid /\
              (forall a o, denotes w a o -> denotes w1 a o) /\
              resolve w1 h = Some (S j) /\ objs w1 = objs w /\
              pending w1 = pending w /\
              trace w1 = trace w ++ e1 /\ dels e1 = []).
    { destruct oid as [|o].
      - exists NULL, w, []. rewrite app_nil_r. repeat split; try done. by left.
      - exists (S (length (refs w))), (new_ref false (S o) w).2,
          [EvNewLocalRef (S (length (refs w)))].
        split; [reflexivity|]. split; [right; apply resolve_new_ref|].
        split; [intros a o'; apply denotes_new_ref|].
        split; [exact (st_refs _ _ (stable_new_ref false (S o) w) _ _ R)|].
        by repeat split. }
    destruct Hstep as (hv & w1 & e1 & Es & Hd & Hk & R1 & O1 & P1 & T1 & D1).
    replace (match oid with
             | 0 => (Ok NULL, w)
             | S _ => new_ref false oid w
             end) with (Ok hv, w1).
    cbv iota beta.
    destruct (IH (S i) (acc ++ [hv]) w1) as (w' & hs & evs & E & Hf & P & O & Tr & Dl).
    + exact R1.
    + by rewrite O1.
    + lia.
    + rewrite (take_S_r _ _ _ He). apply Forall2_app.
      * eapply Forall2_impl; [exact Hacc|]. intros a o'. apply Hk.
      * by constructor.
    + exists w', hs, (e1 ++ evs). rewrite E.
      split; [done|].
      split; [by replace (i + S n) with (S i + n) by lia|].
      split; [congruence|]. split; [congruence|].
      split; [by rewrite Tr, T1, <- app_assoc|].
      by rewrite dels_app, D1, Dl.
Qed.

(** X13. [toVectorJObject] on an object array returns one reference per
    element, in order: the k-th reference denotes the k-th element, and a
    null element comes back as the null reference. It deletes nothing and
    leaves the heap and the failure state as they were. *)
Theorem toVectorJObject_returns_element_references (w : World) (h : jobject)
    (es : list nat) :
  deref w h = Some (JObjectArray es) ->
  exists w' hs evs,
    Tools.toVectorJObject h w = (Ok hs, w') /\
    Forall2 (denotes w') hs es /\
    pending w' = pending w /\ objs w' = objs w /\
    trace w' = trace w ++ evs /\ dels evs = [].
Proof.
  intros D. destruct h as [|h]; [done|].
  assert (exists j, resolve w (S h) = Some (S j) /\
                    objs w !! j = Some (JObjectArray es)) as (j & R & Hj).
  { unfold deref in D. destruct (resolve w (S h)) as [[|j]|] eqn:R; try done.
    by exists j. }
  unfold Tools.toVectorJObject. rewrite bind_unfold.
  unfold JNI.GetArrayLength at 1. rewrite D. cbv iota beta.
  destruct (toVectorJObject_loop_denotes (S h) j es (length es) 0 [] w R Hj)
    as (w' & hs & evs & E & Hf & P & O & Tr & Dl); [simpl; lia|constructor|].
  exists w', hs, evs. rewrite E. simpl in Hf. rewrite firstn_all in Hf.
  by repeat split.
Qed.

Lemma toVectorJObject_returns_element_references_witness :
  exists w' hs evs,
    Tools.toVectorJObject 3 (Tools.toJObjectArray ["a"; "b"] Sample.world).2 =
      (Ok hs, w') /\
    Forall2 (denotes w') hs [4; 5] /\
    pending w' = pending (Tools.toJObjectArray ["a"; "b"] Sample.world).2 /\
    objs w' = objs (Tools.toJObjectArray ["a"; "b"] Sample.world).2 /\
    trace w' = trace (Tools.toJObjectArray ["a"; "b"] Sample.world).2 ++ evs /\
    dels evs = [].
Proof.
  apply (toVectorJObject_returns_element_references
           (Tools.toJObjectArray ["a"; "b"] Sample.world).2 3 [4; 5]).
  reflexivity.
Defined.

(** ** Conversions on the way out *)

Lemma SetObjectArrayElement_quiet (arr : jobject) (i : nat) (v : jobject)
    (w : World) :
  exists w', JNI.SetObjectArrayElement arr i v w = (Ok tt, w') /\
             trace w' = trace w /\ alloc_faults w' = alloc_faults w.
Proof.
  unfold JNI.SetObjectArrayElement, raise.
  repeat case_match; by eexists.
Qed.

(** The loop of [toJObjectArray] makes one reference per element and
    deletes none. *)
Lemma toJObjectArray_loop_trace (joa : jobject) (data : list string) :
  forall (i : nat) (w : World),
    alloc_faults w = [] ->
    exists evs,
      trace (Tools.toJObjectArray_loop joa i data w).2 = trace w ++ evs /\
      dels evs = [] /\ length (news evs) = length data.
Proof.
  induction data as [|s rest IH]; intros i w Hf.
  - exists []. simpl. by rewrite app_nil_r.
  - cbn [Tools.toJObjectArray_loop].
    unfold Tools.toJString, Tools.toJString_chars, JNI.NewStringUTF.
    rewrite bind_unfold, (New_no_fault _ _ Hf), local_ref_to_eq.
    set (w1 := (local_ref_to _ w).2).
    assert (T1 : trace w1 = trace w ++ [EvNewLocalRef (S (length (refs w)))])
      by reflexivity.
    assert (F1 : alloc_faults w1 = []) by exact Hf.
    rewrite bind_unfold.
    destruct (SetObjectArrayElement_quiet joa i (S (length (refs w))) w1)
      as (w2 & -> & T2 & F2).
    destruct (IH (S i) w2) as (evs & Tr & Hd & Hn); [congruence|].
    exists (EvNewLocalRef (S (length (refs w))) :: evs).
    rewrite Tr, T2, T1, <- app_assoc. simpl. by rewrite Hd, Hn.
Qed.

(** X14. On a runtime with nothing pending and no allocation fault,
    [toJObjectArray] returns a live reference to an array that holds the
    given strings in order, each up to its first NUL. It makes one
    reference for the class, one for the array and one per element, and
    deletes the class reference and no other: the element references stay
    with the caller's frame. *)
Theorem toJObjectArray_builds_and_keeps_element_references
    (data : list string) (w : World) :
  pending w = None -> alloc_faults w = [] ->
  exists h w' evs,
    Tools.toJObjectArray data w = (Ok h, w') /\
    holds_strings w' h (map c_str data) /\ local_live w' h = true /\
    trace w' = trace w ++ evs /\
    length (news evs) = length data + 2 /\
    dels evs = [S (length (refs w))].
Proof.
  intros Hp Hf.
  assert (exists h w' evs,
            Tools.toJObjectArray data w = (Ok h, w') /\
            holds_strings w' h (map c_str data) /\
            trace w' = trace w ++ evs /\
            length (news evs) = length data + 2 /\
            dels evs = [S (length (refs w))])
    as (h & w' & evs & Eq & Hs & Tr & Hn & Hd).
  { unfold Tools.toJObjectArray.
    rewrite bind_unfold, FindClass_String, local_ref_to_eq.
    destruct (local_ref_to_shape (JClass "java/lang/String") w)
      as (_ & _ & L1 & P1 & F1 & _).
    assert (T1 : trace (local_ref_to (JClass "java/lang/String") w).2 =
                 trace w ++ [EvNewLocalRef (S (length (refs w)))])
      by reflexivity.
    set (w1 := (local_ref_to _ w).2) in *.
    rewrite bind_unfold. unfold JNI.NewObjectArray at 1.
    rewrite New_no_fault by congruence. rewrite local_ref_to_eq.
    change (target w1 NULL) with 0.
    destruct (local_ref_to_shape (JObjectArray (replicate (length data) 0)) w1)
      as (R2 & O2 & L2 & P2 & F2 & _).
    assert (T2 : trace (local_ref_to
                          (JObjectArray (replicate (length data) 0)) w1).2 =
                 trace w1 ++ [EvNewLocalRef (S (length (refs w1)))])
      by reflexivity.
    set (w2 := (local_ref_to _ w1).2) in *.
    destruct (toJObjectArray_loop_fills (S (length (refs w1))) (length (objs w1))
                data 0 w2 (replicate (length data) 0))
      as (w3 & es & E & Hp3 & Hf3 & R3 & Hj3 & L3 & _ & New3 & _).
    { congruence. } { congruence. } { exact R2. }
    { rewrite O2. by rewrite list_lookup_middle. }
    { rewrite length_replicate. lia. }
    destruct (toJObjectArray_loop_trace (S (length (refs w1))) data 0 w2)
      as (el & Tl & Dl & Nl); [congruence|].
    rewrite E in Tl. cbn [snd] in Tl.
    rewrite bind_unfold, E. cbv iota beta.
    rewrite bind_unfold.
    destruct (DeleteLocalRef_other (S (length (refs w))) (S (length (refs w1))) w3)
      as (R4 & O4 & P4 & F4); [lia|].
    assert (T4 : trace (JNI.DeleteLocalRef (S (length (refs w))) w3).2 =
                 trace w3 ++ [EvDeleteLocalRef (S (length (refs w)))]).
    { unfold JNI.DeleteLocalRef. cbn [snd].
      by destruct (kill_ref_fields false (S (length (refs w)))
                  (set_trace w3 (trace w3 ++
                     [EvDeleteLocalRef (S (length (refs w)))])))
        as (_ & _ & _ & _ & _ & -> & _). }
    change (JNI.DeleteLocalRef (S (length (refs w))) w3) with
      (Ok tt, (JNI.DeleteLocalRef (S (length (refs w))) w3).2).
    set (w4 := (JNI.DeleteLocalRef _ w3).2) in *. cbv iota beta.
    assert (Hp4 : pending w4 = None) by congruence.
    rewrite bind_unfold, (checkException_none w4 Hp4).
    exists (S (length (refs w1))), w4,
      ([EvNewLocalRef (S (length (refs w)))] ++
       [EvNewLocalRef (S (length (refs w1)))] ++ el ++
       [EvDeleteLocalRef (S (length (refs w)))]).
    split; [reflexivity|]. split; [|split; [|split]].
    - exists (length (objs w1)), es. rewrite R4, O4.
      split; [done|]. split; [done|].
      split; [by rewrite L3, length_replicate, length_map|].
      intros k s Hs. apply list_lookup_fmap_Some in Hs as (s0 & -> & Hs0).
      destruct (New3 k s0 Hs0) as (o & _ & He & Ho). exists o. done.
    - rewrite T4, Tl, T2, T1, <- !app_assoc. reflexivity.
    - rewrite !news_app. simpl. rewrite !length_app, Nl. simpl. lia.
    - rewrite !dels_app, Dl. reflexivity. }
  exists h, w', evs. repeat (split; [done|]). split; [|done].
  destruct (toJObjectArray_framed data w) as (_ & _ & Hfresh).
  rewrite Eq in Hfresh. destruct (Hfresh h eq_refl) as [->|[_ Hlive]]; [|done].
  destruct Hs as (j & es & R & _). discriminate R.
Qed.

Lemma toJObjectArray_builds_and_keeps_element_references_witness :
  exists h w' evs,
    Tools.toJObjectArray ["a"; "b"] Sample.world = (Ok h, w') /\
    holds_strings w' h (map c_str ["a"; "b"]) /\ local_live w' h = true /\
    trace w' = trace Sample.world ++ evs /\
    length (news evs) = length ["a"; "b"] + 2 /\
    dels evs = [S (length (refs Sample.world))].
Proof.
  apply (toJObjectArray_builds_and_keeps_element_references ["a"; "b"]
           Sample.world); reflexivity.
Defined.

Lemma DeleteLocalRef_trace (h : jobject) (w : World) :
  trace (JNI.DeleteLocalRef h w).2 = trace w ++ [EvDeleteLocalRef h].
Proof.
  unfold JNI.DeleteLocalRef. cbn [snd].
  by destruct (kill_ref_fields false h
                 (set_trace w (trace w ++ [EvDeleteLocalRef h])))
    as (_ & _ & _ & _ & _ & -> & _).
Qed.

Lemma DeleteLocalRef_eq (h : jobject) (w : World) :
  JNI.DeleteLocalRef h w = (Ok tt, (JNI.DeleteLocalRef h w).2).
Proof. reflexivity. Qed.

Lemma entry_of_keep (w w' : World) (j : nat) (e : nat * nat)
    (kv : string * string) :
  (forall o x, o <> j -> objs w !! o = Some x -> objs w' !! o = Some x) ->
  (forall ok ov, e = (S ok, S ov) -> ok <> j /\ ov <> j) ->
  entry_of w e kv -> entry_of w' e kv.
Proof.
  intros Keep Hne (ok & ov & -> & Hk & Hv).
  destruct (Hne ok ov eq_refl) as [? ?].
  exists ok, ov. split; [done|]. split; by apply Keep.
Qed.

(** A key that equals none of the keys of a map is added to it, and there
    is no previous value. *)
Lemma put_entry_new (w : World) (k v : nat) (es : list (nat * nat)) :
  Forall (fun e => JNI.same_key w e.1 k = false) es ->
  JNI.put_entry w k v es = (es ++ [(k, v)], 0).
Proof.
  induction es as [|[k0 v0] es IH]; [done|].
  intros H. apply Forall_cons in H as [H0 H]. cbn [JNI.put_entry fst] in *.
  by rewrite H0, (IH H).
Qed.

(** The loop of [toHashMap] on entries whose keys, cut at their first NUL,
    differ from each other and from the keys of the map: every entry is
    put, and the key and value references made for it are deleted. *)
Lemma toHashMap_loop_puts (hm : jobject) (j : nat) (data : list (string * string)) :
  forall (w : World) (es : list (nat * nat)),
    pending w = None -> alloc_faults w = [] ->
    resolve w hm = Some (S j) -> objs w !! j = Some (JHashMap es) ->
    NoDup (map (fun kv => c_str kv.1) data) ->
    Forall (fun e => exists ok s,
              e.1 = S ok /\ objs w !! ok = Some (JString s) /\
              s ∉ map (fun kv => c_str kv.1) data) es ->
    exists w' es' evs,
      Tools.toHashMap_loop hm MHashMapPut data w = (Ok tt, w') /\
      pending w' = None /\ alloc_faults w' = [] /\
      resolve w' hm = Some (S j) /\
      objs w' !! j = Some (JHashMap (es ++ es')) /\
      Forall2 (entry_of w') es' data /\
      (forall o x, o <> j -> objs w !! o = Some x -> objs w' !! o = Some x) /\
      trace w' = trace w ++ evs /\
      news evs = dels evs /\ length (dels evs) = 2 * length data.
Proof.
  induction data as [|[k v] rest IH]; intros w es Hp Hf R Hj Hnd Hes.
  - exists w, [], []. simpl. rewrite !app_nil_r. by repeat split.
  - cbn [Tools.toHashMap_loop fst snd].
    unfold JNI.NewStringUTF. rewrite !c_str_idem.
    rewrite bind_unfold, (New_no_fault _ _ Hf), local_ref_to_eq.
    destruct (local_ref_to_shape (JString (c_str k)) w)
      as (R1 & O1 & L1 & P1 & F1 & K1).
    assert (T1 : trace (local_ref_to (JString (c_str k)) w).2 =
                 trace w ++ [EvNewLocalRef (S (length (refs w)))]) by reflexivity.
    set (w1 := (local_ref_to _ w).2) in *.
    rewrite bind_unfold, New_no_fault by congruence. rewrite local_ref_to_eq.
    destruct (local_ref_to_shape (JString (c_str v)) w1)
      as (R2 & O2 & L2 & P2 & F2 & K2).
    assert (T2 : trace (local_ref_to (JString (c_str v)) w1).2 =
                 trace w1 ++ [EvNewLocalRef (S (length (refs w1)))]) by reflexivity.
    set (w2 := (local_ref_to _ w1).2) in *.
    assert (Hjlt : j < length (objs w)) by (by apply lookup_lt_Some in Hj).
    assert (Hj2 : objs w2 !! j = Some (JHashMap es)).
    { rewrite O2, O1. apply lookup_app_l_Some. by apply lookup_app_l_Some. }
    assert (Rh2 : resolve w2 hm = Some (S j)) by (by apply K2, K1).
    assert (Rk2 : target w2 (S (length (refs w))) = S (length (objs w))).
    { unfold target. by rewrite (K2 _ _ R1). }
    assert (Rv2 : target w2 (S (length (refs w1))) = S (length (objs w1))).
    { unfold target. by rewrite R2. }
    assert (Hk2 : objs w2 !! length (objs w) = Some (JString (c_str k))).
    { rewrite O2, O1. apply lookup_app_l_Some. by rewrite list_lookup_middle. }
    apply NoDup_cons in Hnd as [Hk Hnd]. cbn [map fst] in Hes.
    set (e := (S (length (objs w)), S (length (objs w1)))).
    assert (Hput : JNI.put_entry w2 (S (length (objs w))) (S (length (objs w1))) es
                   = (es ++ [e], 0)).
    { apply put_entry_new. eapply Forall_impl; [exact Hes|].
      intros e0 (ok & s & Hk0 & Hs & Hin). rewrite Hk0.
      unfold JNI.same_key, heap_at. rewrite Hk2.
      assert (objs w2 !! ok = Some (JString s)) as ->.
      { rewrite O2, O1. apply lookup_app_l_Some. by apply lookup_app_l_Some. }
      apply String.eqb_neq. intros ->. apply Hin. by left. }
    rewrite bind_unfold. unfold JNI.CallObjectMethod at 1.
    rewrite bind_unfold. unfold JNI.run_method at 1.
    rewrite Rh2, Hj2, Rk2, Rv2, Hput. cbn [fst snd]. cbv iota beta.
    set (w3 := set_objs w2 _).
    unfold ret at 1. cbv iota beta.
    assert (O3 : objs w3 = <[j := JHashMap (es ++ [e])]> (objs w2)) by reflexivity.
    destruct (resolve_in_range _ _ _ R) as [_ Hh].
    rewrite bind_unfold, DeleteLocalRef_eq. cbv iota beta.
    destruct (DeleteLocalRef_other (S (length (refs w))) hm w3)
      as (R4 & O4 & P4 & F4); [lia|].
    pose proof (DeleteLocalRef_trace (S (length (refs w))) w3) as T4.
    set (w4 := (JNI.DeleteLocalRef _ w3).2) in *.
    rewrite bind_unfold, DeleteLocalRef_eq. cbv iota beta.
    destruct (DeleteLocalRef_other (S (length (refs w1))) hm w4)
      as (R5 & O5 & P5 & F5); [lia|].
    pose proof (DeleteLocalRef_trace (S (length (refs w1))) w4) as T5.
    set (w5 := (JNI.DeleteLocalRef _ w4).2) in *.
    assert (O5' : objs w5 = <[j := JHashMap (es ++ [e])]> (objs w2)) by congruence.
    assert (Hlen2 : length (objs w2) = S (S (length (objs w)))).
    { rewrite O2, O1, !length_app. simpl. lia. }
    assert (Hlen1 : length (objs w1) = S (length (objs w))).
    { rewrite O1, length_app. simpl. lia. }
    assert (Keep5 : forall o x, o <> j -> objs w !! o = Some x ->
                                objs w5 !! o = Some x).
    { intros o x Ho Hx. rewrite O5', list_lookup_insert_ne by done.
      rewrite O2, O1. apply lookup_app_l_Some. by apply lookup_app_l_Some. }
    destruct (IH w5 (es ++ [e]))
      as (w' & es' & evs & E & Hp' & Hf' & R' & Hj' & Hent & Keep & Tr & Hnews & Hl).
    + rewrite P5, P4. exact Hp.
    + rewrite F5, F4. exact Hf.
    + rewrite R5, R4. exact Rh2.
    + rewrite O5'. apply list_lookup_insert_eq. lia.
    + exact Hnd.
    + apply Forall_app. split.
      * eapply Forall_impl; [exact Hes|].
        intros e0 (ok & s & Hk0 & Hs & Hin). exists ok, s.
        split; [done|]. split.
        -- apply Keep5; [|done]. intros ->. congruence.
        -- intros Hin'. apply Hin. by right.
      * constructor; [|constructor]. exists (length (objs w)), (c_str k).
        split; [done|]. split; [|done].
        rewrite O5', list_lookup_insert_ne by lia. exact Hk2.
    + exists w', (e :: es'),
        ([EvNewLocalRef (S (length (refs w))); EvNewLocalRef (S (length (refs w1)));
          EvDeleteLocalRef (S (length (refs w)));
          EvDeleteLocalRef (S (length (refs w1)))] ++ evs).
      rewrite E. split; [done|]. split; [done|]. split; [done|].
      split; [done|]. split; [by rewrite <- app_assoc in Hj'|].
      split; [|split; [|split; [|split]]].
      * constructor; [|exact Hent].
        exists (length (objs w)), (length (objs w1)). split; [done|].
        split; apply Keep; try lia; rewrite O5';
          rewrite list_lookup_insert_ne by lia; [exact Hk2|].
        rewrite O2. by rewrite list_lookup_middle.
      * intros o x Ho Hx. apply Keep; [done|]. by apply Keep5.
      * rewrite Tr, T5, T4. change (trace w3) with (trace w2).
        rewrite T2, T1, <- !app_assoc. reflexivity.
      * simpl. by rewrite Hnews.
      * simpl. rewrite Hl. lia.
Qed.

Lemma FindClass_HashMap (w : World) :
  JNI.FindClass "java/util/HashMap" w = local_ref_to (JClass "java/util/HashMap") w.
Proof. reflexivity. Qed.

Lemma GetMethodID_of_HashMap (cls : jobject) (name sig : string)
    (mid : jmethodID) (w : World) :
  JNI.class_name w cls = Some "java/util/HashMap" ->
  JNI.lookup_method w false "java/util/HashMap" name sig = mid ->
  mid <> MNull ->
  JNI.GetMethodID cls name sig w =
    (Ok mid, (emit (EvGetMethodID "java/util/HashMap" name sig) w).2).
Proof.
  intros Hc Hl Hn. unfold JNI.GetMethodID. rewrite Hc. cbn [default].
  rewrite bind_unfold. unfold emit at 1. cbv iota beta.
  unfold JNI.get_method.
  change (JNI.class_name (set_trace w _) cls) with (JNI.class_name w cls).
  rewrite Hc.
  change (JNI.lookup_method (set_trace w _) false "java/util/HashMap" name sig)
    with (JNI.lookup_method w false "java/util/HashMap" name sig).
  rewrite Hl. by destruct mid.
Qed.

(** X15. On a runtime with nothing pending and no allocation fault, for a
    native map whose keys stay distinct when cut at their first NUL,
    [toHashMap] returns a live reference to a new map that holds exactly
    one entry per entry of the native map, key and value as strings up to
    their first NUL. Of the references it makes, it deletes the class
    reference and every key and value reference; the reference to the map
    is the only one left. *)
Theorem toHashMap_puts_entries_and_releases_references
    (data : list (string * string)) (w : World) :
  pending w = None -> alloc_faults w = [] ->
  NoDup (map (fun kv => c_str kv.1) data) ->
  exists h w' evs kvs,
    Tools.toHashMap data w = (Ok h, w') /\
    holds_entries w' h data /\ local_live w' h = true /\
    pending w' = None /\
    trace w' = trace w ++ evs /\
    news evs = S (length (refs w)) :: h :: kvs /\
    dels evs = kvs ++ [S (length (refs w))] /\
    length kvs = 2 * length data.
Proof.
  intros Hp Hf Hnd.
  assert (exists h w' evs kvs,
            Tools.toHashMap data w = (Ok h, w') /\
            holds_entries w' h data /\ pending w' = None /\
            trace w' = trace w ++ evs /\
            news evs = S (length (refs w)) :: h :: kvs /\
            dels evs = kvs ++ [S (length (refs w))] /\
            length kvs = 2 * length data)
    as (h & w' & evs & kvs & Eq & Hs & Hp' & Tr & Hn & Hd & Hl).
  { unfold Tools.toHashMap.
    rewrite bind_unfold, FindClass_HashMap, local_ref_to_eq.
    destruct (local_ref_to_shape (JClass "java/util/HashMap") w)
      as (_ & _ & L1 & P1 & F1 & _).
    pose proof (deref_local_ref_to (JClass "java/util/HashMap") w) as D1.
    assert (T1 : trace (local_ref_to (JClass "java/util/HashMap") w).2 =
                 trace w ++ [EvNewLocalRef (S (length (refs w)))])
      by reflexivity.
    set (w1 := (local_ref_to _ w).2) in *.
    set (cls := S (length (refs w))) in *.
    assert (C1 : JNI.class_name w1 cls = Some "java/util/HashMap").
    { unfold JNI.class_name. by rewrite D1. }
    rewrite bind_unfold.
    rewrite (GetMethodID_of_HashMap cls "<init>" "()V" MHashMapInit w1 C1
               eq_refl) by discriminate.
    set (w2 := (emit _ w1).2).
    rewrite bind_unfold. unfold JNI.NewObject at 1.
    rewrite New_no_fault by (subst w2; simpl; congruence).
    rewrite local_ref_to_eq.
    destruct (local_ref_to_shape (JHashMap []) w2)
      as (R3 & O3 & L3 & P3 & F3 & K3).
    assert (T3 : trace (local_ref_to (JHashMap []) w2).2 =
                 trace w2 ++ [EvNewLocalRef (S (length (refs w2)))])
      by reflexivity.
    set (w3 := (local_ref_to _ w2).2) in *.
    assert (C3 : JNI.class_name w3 cls = Some "java/util/HashMap").
    { unfold JNI.class_name, deref.
      assert (resolve w1 cls = Some (S (length (objs w)))) as Rc.
      { subst cls w1. apply (proj1 (local_ref_to_shape _ w)). }
      rewrite (K3 cls _ Rc). subst w3. simpl.
      rewrite lookup_app_l_Some with (x := JClass "java/util/HashMap"); [done|].
      subst w2 w1. simpl. by rewrite list_lookup_middle. }
    rewrite bind_unfold.
    rewrite (GetMethodID_of_HashMap cls "put"
               "(Ljava/lang/Object;Ljava/lang/Object;)Ljava/lang/Object;"
               MHashMapPut w3 C3 eq_refl) by discriminate.
    set (w4 := (emit _ w3).2).
    assert (L2 : length (refs w2) = S (length (refs w))) by exact L1.
    set (hm := S (length (refs w2))) in *.
    destruct (toHashMap_loop_puts hm (length (objs w2)) data w4 [])
      as (w5 & es & el & E & Hp5 & Hf5 & R5 & Hj5 & Hent & _ & Tl & Nl & Ll).
    { subst w4 w2. simpl. congruence. }
    { subst w4 w2. simpl. congruence. }
    { exact R3. }
    { change (objs w4) with (objs w3). rewrite O3.
      by rewrite list_lookup_middle. }
    { exact Hnd. }
    { constructor. }
    rewrite bind_unfold, E. cbv iota beta.
    rewrite bind_unfold, DeleteLocalRef_eq. cbv iota beta.
    destruct (DeleteLocalRef_other cls hm w5) as (R6 & O6 & P6 & F6);
      [subst cls hm; lia|].
    pose proof (DeleteLocalRef_trace cls w5) as T6.
    set (w6 := (JNI.DeleteLocalRef cls w5).2) in *.
    assert (Hp6 : pending w6 = None) by congruence.
    rewrite bind_unfold, (checkException_none w6 Hp6).
    exists hm, w6,
      ([EvNewLocalRef cls] ++
       [EvGetMethodID "java/util/HashMap" "<init>" "()V"] ++
       [EvNewLocalRef hm] ++
       [EvGetMethodID "java/util/HashMap" "put"
          "(Ljava/lang/Object;Ljava/lang/Object;)Ljava/lang/Object;"] ++
       el ++ [EvDeleteLocalRef cls]), (dels el).
    split; [reflexivity|]. split; [|split; [done|split; [|split; [|split]]]].
    - exists (length (objs w2)), es. rewrite R6, O6.
      split; [done|]. cbn [app] in Hj5. split; [done|].
      eapply Forall2_impl; [exact Hent|].
      intros e kv (ok & ov & -> & Hk & Hv). exists ok, ov.
      by rewrite O6.
    - rewrite T6, Tl. subst w4 w2. cbn [trace emit set_trace snd].
      rewrite T3. cbn [trace emit set_trace snd]. rewrite T1.
      rewrite <- !app_assoc. reflexivity.
    - rewrite !news_app. simpl. rewrite app_nil_r. by rewrite Nl.
    - rewrite !dels_app. reflexivity.
    - exact Ll. }
  exists h, w', evs, kvs. split; [done|]. split; [done|].
  split; [|by repeat split].
  destruct (toHashMap_framed data w) as (_ & _ & Hfresh).
  rewrite Eq in Hfresh. destruct (Hfresh h eq_refl) as [->|[_ Hlive]]; [|done].
  destruct Hs as (j & es & R & _). discriminate R.
Qed.

Lemma toHashMap_puts_entries_and_releases_references_witness :
  exists h w' evs kvs,
    Tools.toHashMap [("a", "1"); ("b", "2")] Sample.world = (Ok h, w') /\
    holds_entries w' h [("a", "1"); ("b", "2")] /\ local_live w' h = true /\
    pending w' = None /\
    trace w' = trace Sample.world ++ evs /\
    news evs = S (length (refs Sample.world)) :: h :: kvs /\
    dels evs = kvs ++ [S (length (refs Sample.world))] /\
    length kvs = 2 * length [("a", "1"); ("b", "2")].
Proof.
  apply (toHashMap_puts_entries_and_releases_references
           [("a", "1"); ("b", "2")] Sample.world);
    [reflexivity | reflexivity |].
  simpl. apply NoDup_cons. split; [|apply NoDup_singleton].
  intros H. apply list_elem_of_singleton in H. discriminate H.
Defined.

(** Two keys of the native map that are equal up to their first NUL make
    one entry of the managed map, with the value that was put last; the
    local reference that [put] returns to the value it replaced is left in
    the frame of the caller. *)
Example toHashMap_keys_equal_up_to_NUL :
  let data := [(String "a"%char (String Ascii.zero "x"), "1");
               (String "a"%char (String Ascii.zero "y"), "2")] in
  let r := Tools.toHashMap data Sample.world in
  r.1 = Ok 3 /\ objs r.2 !! 2 = Some (JHashMap [(4, 7)]) /\
  objs r.2 !! 3 = Some (JString "a") /\ objs r.2 !! 6 = Some (JString "2") /\
  local_live r.2 8 = true /\ deref r.2 8 = Some (JString "1").
Proof. vm_compute. repeat split; reflexivity. Qed.

(** ** The life of a proxy *)

(** X16. What destroying a proxy does on an attached thread, by how the
    proxy was made: a weak proxy leaves the runtime untouched; a shared
    proxy deletes the local reference it was given; a proxy made by
    [CreateLocal] holds a new local reference to the same object and
    deletes that one, leaving the caller's reference in place. *)
Theorem proxy_destruction_by_kind (w : World) (obj : jobject) :
  healthy w ->
  JNIObject_destructor (CreateWeak obj) w = (Ok tt, w) /\
  (obj <> NULL ->
   exists w',
     JNIObject_destructor (CreateShared obj) w = (Ok tt, w') /\
     trace w' = trace w ++ [EvDeleteLocalRef obj] /\
     local_live w' obj = false) /\
  (forall oid, resolve w obj = Some oid ->
   exists o w1 w2,
     CreateLocal obj w = (Ok o, w1) /\
     instance o = S (length (refs w)) /\
     resolve w1 (instance o) = Some oid /\
     JNIObject_destructor o w1 = (Ok tt, w2) /\
     trace w2 =
       trace w ++ [EvNewLocalRef (instance o); EvDeleteLocalRef (instance o)] /\
     local_live w2 (instance o) = false /\
     resolve w2 obj = Some oid).
Proof.
  intros Hh. split; [reflexivity|]. split.
  - intros Hn. unfold JNIObject_destructor, noexcept, CreateShared.
    cbn [weak instance globalRef with_instance JNIObject_new].
    destruct obj as [|i]; [done|]. attach.
    exists (JNI.DeleteLocalRef (S i) w).2. split; [reflexivity|].
    split; [exact (DeleteLocalRef_trace (S i) w)
           |exact (local_live_after_delete (S i) w)].
  - intros oid R. unfold CreateLocal. attach. cbv zeta.
    unfold JNI.NewLocalRef. rewrite bind_unfold, R.
    change (new_ref false oid w) with
      (Ok (S (length (refs w))), (new_ref false oid w).2).
    set (w1 := (new_ref false oid w).2). cbv iota beta.
    exists (with_instance JNIObject_new (S (length (refs w)))), w1.
    assert (Hh1 : healthy w1) by exact Hh.
    unfold JNIObject_destructor, noexcept.
    cbn [weak instance globalRef with_instance JNIObject_new]. attach.
    exists (JNI.DeleteLocalRef (S (length (refs w))) w1).2.
    split; [reflexivity|]. split; [reflexivity|].
    split; [apply resolve_new_ref|]. split; [reflexivity|].
    cbn [instance with_instance JNIObject_new].
    split; [|split].
    + rewrite DeleteLocalRef_trace. subst w1. simpl.
      by rewrite <- app_assoc.
    + apply local_live_after_delete.
    + destruct (resolve_in_range _ _ _ R) as [_ Hle].
      destruct (DeleteLocalRef_other (S (length (refs w))) obj w1) as (-> & _);
        [lia|].
      exact (st_refs _ _ (stable_new_ref false oid w) _ _ R).
Qed.

Lemma proxy_destruction_by_kind_witness :
  exists o w1 w2,
    CreateLocal 1 Sample.world = (Ok o, w1) /\
    instance o = S (length (refs Sample.world)) /\
    resolve w1 (instance o) = Some 1 /\
    JNIObject_destructor o w1 = (Ok tt, w2) /\
    trace w2 =
      trace Sample.world ++
      [EvNewLocalRef (instance o); EvDeleteLocalRef (instance o)] /\
    local_live w2 (instance o) = false /\
    resolve w2 1 = Some 1.
Proof.
  refine (proj2 (proj2 (proxy_destruction_by_kind Sample.world 1 _)) 1 _).
  - split; [reflexivity | simpl; lia].
  - reflexivity.
Defined.

(** On a thread that the runtime refuses to attach, the destructor of a
    proxy that owns a reference throws inside [attachJniEnv]: the exception
    leaves a destructor and the program ends. A weak proxy is destroyed
    without asking for the environment. *)
Example proxy_destruction_on_a_refused_thread :
  (JNIObject_destructor (CreateShared 1) Sample.world_refusing).1 =
    Abort Terminate /\
  JNIObject_destructor (CreateWeak 1) Sample.world_refusing =
    (Ok tt, Sample.world_refusing).
Proof. vm_compute. split; reflexivity. Qed.

(** X17. [makeGlobalRef] is idempotent: after a call that returned, the
    proxy is marked global, and a second call makes no reference and
    changes nothing. *)
Theorem makeGlobalRef_is_idempotent (this o1 : JNIObject) (w w1 : World) :
  makeGlobalRef this w = (Ok o1, w1) ->
  globalRef o1 = true /\ makeGlobalRef o1 w1 = (Ok o1, w1).
Proof.
  unfold makeGlobalRef at 1. destruct (globalRef this) eqn:G.
  - intros [= <- <-]. split; [exact G|]. unfold makeGlobalRef. by rewrite G.
  - rewrite bind_unfold.
    destruct (Tools.attachJniEnv w) as [[env|?|?] w0]; [|discriminate..].
    rewrite bind_unfold.
    destruct (through env w0) as [[[]|?|?] w0']; [|discriminate..].
    rewrite bind_unfold.
    destruct (JNI.NewGlobalRef (instance this) w0') as [[g|?|?] w2];
      [|discriminate..].
    intros [= <- <-]. split; reflexivity.
Qed.

Lemma makeGlobalRef_is_idempotent_witness :
  exists o1 w1,
    makeGlobalRef (CreateShared 1) Sample.world = (Ok o1, w1) /\
    globalRef o1 = true /\ makeGlobalRef o1 w1 = (Ok o1, w1).
Proof.
  eexists _, _. split; [vm_compute; reflexivity|].
  apply (makeGlobalRef_is_idempotent (CreateShared 1) _ Sample.world).
  vm_compute. reflexivity.
Defined.

(** The guard of a proxy operation leaves the instance of the proxy as
    the body left it. *)
Lemma with_clear_instance {A} (body : M (JNIObject * World) A)
    (s : JNIObject * World) :
  instance (with_clear body s).2.1 = instance (body s).2.1.
Proof.
  unfold with_clear, unwind, NameAndSignatureClear_destructor.
  destruct (body s) as [[a|e|r] s']; reflexivity.
Qed.

(** X18. [JNIObject::Get] and [JNIObject::Set] clear both overrides on
    every way back to the caller, by return or by exception and whatever
    the state of the runtime, and leave the instance of the proxy as it
    was. *)
Theorem proxy_Get_and_Set_always_clear_overrides (T : ctype)
    (propertyName : string) (value : cvalue) (this : JNIObject) (w : World) :
  (came_back (JNIObject_Get T propertyName (this, w)).1 = true ->
   overrides_cleared (JNIObject_Get T propertyName (this, w)).2.1) /\
  instance (JNIObject_Get T propertyName (this, w)).2.1 = instance this /\
  (came_back (JNIObject_Set propertyName value (this, w)).1 = true ->
   overrides_cleared (JNIObject_Set propertyName value (this, w)).2.1) /\
  instance (JNIObject_Set propertyName value (this, w)).2.1 = instance this.
Proof.
  split; [apply with_clear_clears|]. split; [|split; [apply with_clear_clears|]].
  - unfold JNIObject_Get. rewrite with_clear_instance.
    unfold this_. rewrite !bind_unfold. cbn [fst snd].
    by rewrite lift_unfold.
  - unfold JNIObject_Set. rewrite with_clear_instance.
    unfold this_. rewrite !bind_unfold. cbn [fst snd].
    by rewrite lift_unfold.
Qed.

Lemma proxy_Get_and_Set_always_clear_overrides_witness :
  overrides_cleared
    (JNIObject_Get TInt32 "count" (Sample.proxy, Sample.world_refusing)).2.1.
Proof.
  apply (proj1 (proxy_Get_and_Set_always_clear_overrides TInt32 "count"
                  CVoid Sample.proxy Sample.world_refusing)).
  reflexivity.
Defined.

(** ** Compile-time strings *)

(** X19. [Concatenate] of any number of packs is their flattening: the
    specialisations for one and for two packs agree with the recursive
    one, so concatenating two lists of packs one after the other is
    [Concatenate2] of their concatenations. *)
Theorem Concatenate_app (xs ys : list CompileTimeString) :
  Concatenate (xs ++ ys) = Concatenate2 (Concatenate xs) (Concatenate ys).
Proof.
  rewrite !Concatenate_concat. unfold Concatenate2. apply concat_app.
Qed.

(** ** Fields *)

Lemma kill_ref_program (g : bool) (h : jobject) (w : World) :
  fields (kill_ref g h w) = fields w /\
  fieldvals (kill_ref g h w) = fieldvals w /\
  methods (kill_ref g h w) = methods w /\
  classes (kill_ref g h w) = classes w.
Proof.
  unfold kill_ref. destruct h as [|i]; [done|].
  destruct (refs w !! i) as [r|]; [|done].
  by destruct (Bool.eqb _ _).
Qed.

(** What [Get] and [Set] do before they touch the field, on an attached
    thread, for an instance whose class declares the field: the class is
    looked up, the field is found, and the class reference is deleted. *)
Lemma field_access_prelude {A} (k : jfieldID -> M World A) (inst : jobject)
    (name sig : string) (o : jobj) (i : nat) (w : World) :
  healthy w -> deref w inst = Some o ->
  JNI.find_index (JNI.is_field false (JNI.class_of o) name sig) (fields w) 0
    = Some i ->
  (let! jniEnv := Tools.attachJniEnv in
   through jniEnv ;;;
   let! clazz := JNI.GetObjectClass inst in
   let! fid := JNI.GetFieldID clazz name sig in
   match clazz with
   | 0 => ret tt
   | _ => JNI.DeleteLocalRef clazz
   end ;;;
   k fid) w =
  k (S i) (JNI.DeleteLocalRef (S (length (refs w)))
             (local_ref_to (JClass (JNI.class_of o)) w).2).2.
Proof.
  intros Hh D Hf. attach.
  rewrite bind_unfold. unfold JNI.GetObjectClass at 1. rewrite D.
  rewrite local_ref_to_eq.
  pose proof (deref_local_ref_to (JClass (JNI.class_of o)) w) as D1.
  set (w1 := (local_ref_to _ w).2) in *.
  rewrite bind_unfold. unfold JNI.GetFieldID, JNI.get_field_id, JNI.class_name.
  rewrite D1. change (fields w1) with (fields w). rewrite Hf.
  rewrite bind_unfold, DeleteLocalRef_eq. reflexivity.
Qed.

Lemma field_access_state (inst : jobject) (o : jobj) (w : World) :
  deref w inst = Some o ->
  let wp := (JNI.DeleteLocalRef (S (length (refs w)))
               (local_ref_to (JClass (JNI.class_of o)) w).2).2 in
  (healthy w -> healthy wp) /\
  pending wp = pending w /\ alloc_faults wp = alloc_faults w /\
  fields wp = fields w /\ fieldvals wp = fieldvals w /\
  target wp inst = target w inst /\ deref wp inst = Some o /\
  trace wp = trace w ++ [EvNewLocalRef (S (length (refs w)));
                         EvDeleteLocalRef (S (length (refs w)))].
Proof.
  intros D wp.
  assert (exists oid, resolve w inst = Some oid /\ heap_at w oid = Some o)
    as (oid & R & Ho).
  { unfold deref in D. destruct (resolve w inst) as [oid|]; [|done]. by exists oid. }
  destruct (resolve_in_range _ _ _ R) as [_ Hle].
  destruct (local_ref_to_run (JClass (JNI.class_of o)) w) as (w1 & E & St & _).
  assert (Ew : (local_ref_to (JClass (JNI.class_of o)) w).2 = w1) by (by rewrite E).
  subst wp. rewrite Ew.
  destruct (DeleteLocalRef_other (S (length (refs w))) inst w1)
    as (R2 & O2 & P2 & F2); [lia|].
  unfold JNI.DeleteLocalRef in *. cbn [snd] in *.
  destruct (kill_ref_fields false (S (length (refs w)))
              (set_trace w1 (trace w1 ++ [EvDeleteLocalRef (S (length (refs w)))])))
    as (_ & V & A & _ & _ & T & _).
  destruct (kill_ref_program false (S (length (refs w)))
              (set_trace w1 (trace w1 ++ [EvDeleteLocalRef (S (length (refs w)))])))
    as (Fi & Fv & _).
  assert (R1 : resolve w1 inst = Some oid) by exact (st_refs _ _ St _ _ R).
  split; [|split; [|split; [|split; [|split; [|split; [|split]]]]]].
  - intros [Hv Hs]. split.
    + rewrite V. cbn [javaVM set_trace]. by rewrite (st_vm _ _ St).
    + rewrite A. cbn [attach_status set_trace]. by rewrite (st_status _ _ St).
  - rewrite P2. exact (st_pending _ _ St).
  - rewrite F2. exact (st_faults _ _ St).
  - rewrite Fi. cbn [fields set_trace]. by rewrite <- Ew.
  - rewrite Fv. cbn [fieldvals set_trace]. by rewrite <- Ew.
  - unfold target. by rewrite R2, R1, R.
  - unfold deref. rewrite R2, R1. unfold heap_at. rewrite O2.
    exact (st_heap _ _ St _ _ Ho).
  - rewrite T. cbn [trace set_trace]. rewrite <- Ew. simpl.
    by rewrite <- app_assoc.
Qed.

Lemma written_head (vals : list (nat * jfieldID * slot)) (owner : nat)
    (fid : jfieldID) (v : slot) :
  JNI.written ((owner, fid, v) :: vals) owner fid = Some v.
Proof. simpl. by rewrite !Nat.eqb_refl. Qed.

(** X20. A [boolean] field written with [Set] reads back with [Get]: on
    an attached thread, for an instance whose class declares the field
    with descriptor [Z], [Set] returns, the following [Get] returns the
    value that was set, and each of the two deletes the class reference
    it looked up. *)
Theorem Set_then_Get_bool_field (inst : jobject) (o : jobj) (name : string)
    (i : nat) (b : bool) (w : World) :
  healthy w -> deref w inst = Some o ->
  JNI.find_index (JNI.is_field false (JNI.class_of o) (c_str name) "Z")
    (fields w) 0 = Some i ->
  exists w1 w2 c1 c2,
    Set_ inst name "" (CBool b) w = (Ok tt, w1) /\
    Get TBool inst name "" w1 = (Ok (CBool b), w2) /\
    trace w2 = trace w ++ [EvNewLocalRef c1; EvDeleteLocalRef c1;
                           EvNewLocalRef c2; EvDeleteLocalRef c2].
Proof.
  intros Hh D Hf.
  destruct (field_access_state inst o w D)
    as (Hhp & Pp & Fp & Fip & Fvp & Tp & Dp & Trp).
  set (wp := (JNI.DeleteLocalRef _ _).2) in *.
  set (z := if b then 1%Z else 0%Z).
  set (w1 := set_fieldvals wp ((target wp inst, S i, SlotPrim z) :: fieldvals wp)).
  assert (ESet : Set_ inst name "" (CBool b) w = (Ok tt, w1)).
  { unfold Set_. cbv zeta. cbn [type_of].
    change (field_signature TBool "") with "Z".
    by rewrite (field_access_prelude _ inst (c_str name) "Z" o i w Hh D Hf). }
  assert (Hh1 : healthy w1) by (apply Hhp, Hh).
  assert (D1 : deref w1 inst = Some o) by exact Dp.
  assert (Hf1 : JNI.find_index (JNI.is_field false (JNI.class_of o) (c_str name) "Z")
                  (fields w1) 0 = Some i).
  { change (fields w1) with (fields wp). by rewrite Fip. }
  destruct (field_access_state inst o w1 D1)
    as (_ & _ & _ & _ & Fvq & Tq & _ & Trq).
  set (wq := (JNI.DeleteLocalRef (S (length (refs w1)))
                (local_ref_to (JClass (JNI.class_of o)) w1).2).2) in *.
  assert (EGet : Get TBool inst name "" w1 = (Ok (CBool b), wq)).
  { unfold Get. cbv zeta. change (field_signature TBool "") with "Z".
    rewrite (field_access_prelude _ inst (c_str name) "Z" o i w1 Hh1 D1 Hf1).
    fold wq. unfold JNICaller.getField. cbn [caller_of].
    unfold JNI.GetPrimitiveField. rewrite !bind_unfold.
    unfold JNI.read_field. rewrite Fvq, Tq.
    change (fieldvals w1) with ((target wp inst, S i, SlotPrim z) :: fieldvals wp).
    change (target w1 inst) with (target wp inst).
    rewrite written_head. cbv iota beta. unfold ret.
    cbn [JNI.prim_of_slot primitive_result]. subst z. by destruct b. }
  exists w1, wq, (S (length (refs w))), (S (length (refs w1))).
  split; [exact ESet|]. split; [exact EGet|].
  rewrite Trq. change (trace w1) with (trace wp). rewrite Trp.
  by rewrite <- app_assoc.
Qed.

Lemma Set_then_Get_bool_field_witness :
  exists w1 w2 c1 c2,
    Set_ 1 "ready" "" (CBool true) world_with_fields = (Ok tt, w1) /\
    Get TBool 1 "ready" "" w1 = (Ok (CBool true), w2) /\
    trace w2 = trace world_with_fields ++
               [EvNewLocalRef c1; EvDeleteLocalRef c1;
                EvNewLocalRef c2; EvDeleteLocalRef c2].
Proof.
  apply (Set_then_Get_bool_field 1 (JInstance Sample.Foo) "ready" 0 true
           world_with_fields).
  - split; [reflexivity | simpl; lia].
  - reflexivity.
  - reflexivity.
Defined.

Lemma field_access_heap (o : jobj) (w : World) (oid : nat) (x : jobj) :
  heap_at w oid = Some x ->
  heap_at (JNI.DeleteLocalRef (S (length (refs w)))
             (local_ref_to (JClass (JNI.class_of o)) w).2).2 oid = Some x.
Proof.
  intros H.
  destruct (local_ref_to_run (JClass (JNI.class_of o)) w) as (w1 & E & St & _).
  rewrite E. cbn [snd].
  unfold JNI.DeleteLocalRef. cbn [snd]. unfold heap_at.
  destruct (kill_ref_fields false (S (length (refs w)))
              (set_trace w1 (trace w1 ++ [EvDeleteLocalRef (S (length (refs w)))])))
    as (_ & _ & _ & _ & -> & _).
  exact (st_heap _ _ St _ _ H).
Qed.

Lemma Set_reduces (inst : jobject) (name sig : string) (value : cvalue)
    (o : jobj) (i : nat) (w : World) :
  healthy w -> deref w inst = Some o ->
  field_signature (type_of value) "" = sig ->
  JNI.find_index (JNI.is_field false (JNI.class_of o) (c_str name) sig)
    (fields w) 0 = Some i ->
  Set_ inst name "" value w =
    JNICaller.setField inst (S i) value
      (JNI.DeleteLocalRef (S (length (refs w)))
         (local_ref_to (JClass (JNI.class_of o)) w).2).2.
Proof.
  intros Hh D Hs Hf. unfold Set_. cbv zeta. rewrite Hs.
  exact (field_access_prelude _ inst (c_str name) sig o i w Hh D Hf).
Qed.

Lemma Get_reduces (T : ctype) (inst : jobject) (name sig : string)
    (o : jobj) (i : nat) (w : World) :
  healthy w -> deref w inst = Some o ->
  field_signature T "" = sig ->
  JNI.find_index (JNI.is_field false (JNI.class_of o) (c_str name) sig)
    (fields w) 0 = Some i ->
  Get T inst name "" w =
    JNICaller.getField T inst (S i)
      (JNI.DeleteLocalRef (S (length (refs w)))
         (local_ref_to (JClass (JNI.class_of o)) w).2).2.
Proof.
  intros Hh D Hs Hf. unfold Get. cbv zeta. rewrite Hs.
  exact (field_access_prelude _ inst (c_str name) sig o i w Hh D Hf).
Qed.

(** Storing a string: a new string object is made and written to the
    field. *)
Lemma setField_string_run (inst : jobject) (fid : jfieldID) (s : string)
    (w : World) :
  alloc_faults w = [] ->
  exists w1,
    JNICaller.setField inst fid (CString s) w = (Ok tt, w1) /\
    stable w w1 /\ fields w1 = fields w /\
    JNI.written (fieldvals w1) (target w1 inst) fid =
      Some (SlotObj (S (length (objs w)))) /\
    heap_at w1 (S (length (objs w))) = Some (JString (c_str s)).
Proof.
  intros Hf.
  cbn [JNICaller.setField CPPToJNIConversor_convert].
  unfold Tools.toJString, Tools.toJString_chars, JNI.NewStringUTF.
  rewrite c_str_idem, !bind_unfold, (New_no_fault _ _ Hf).
  destruct (local_ref_to_run (JString (c_str s)) w) as (wq & Eq & Stq & _).
  destruct (local_ref_to_shape (JString (c_str s)) w) as (Rq & Oq & _).
  rewrite Eq in Rq, Oq |- *. cbn [snd] in Rq, Oq.
  unfold ret at 1. cbv iota beta.
  unfold JNI.SetObjectField, JNI.write_field.
  eexists. split; [reflexivity|].
  split; [|split; [|split]].
  - destruct Stq as [a1 a2 a3 a4 a5 a6]. by constructor.
  - cbn [fields set_fieldvals].
    assert (fields (local_ref_to (JString (c_str s)) w).2 = fields w)
      by reflexivity.
    by rewrite Eq in H.
  - cbn [fieldvals set_fieldvals].
    change (target (set_fieldvals wq _) inst) with (target wq inst).
    unfold target at 2. rewrite Rq. cbn [default]. apply written_head.
  - unfold heap_at. cbn [objs set_fieldvals]. rewrite Oq.
    by rewrite list_lookup_middle.
Qed.

(** Reading a field that holds a string object. *)
Lemma getField_string_run (inst : jobject) (fid : jfieldID) (n : nat)
    (s : string) (w : World) :
  JNI.written (fieldvals w) (target w inst) fid = Some (SlotObj (S n)) ->
  heap_at w (S n) = Some (JString s) -> pending w = None ->
  exists w', JNICaller.getField TString inst fid w = (Ok (CString (c_str s)), w').
Proof.
  intros Hw Hs Hp.
  unfold JNICaller.getField. cbn [caller_of].
  rewrite bind_unfold. unfold JNI.GetObjectField at 1.
  rewrite bind_unfold. unfold JNI.read_field. rewrite Hw.
  cbv iota beta. cbn [JNI.ref_of_slot].
  pose proof (st_heap _ _ (stable_new_ref false (S n) w) _ _ Hs) as Hss.
  pose proof (resolve_new_ref false (S n) w) as Rs.
  assert (Ps : pending (new_ref false (S n) w).2 = None) by exact Hp.
  assert (Es : new_ref false (S n) w =
               (Ok (S (length (refs w))), (new_ref false (S n) w).2))
    by reflexivity.
  rewrite Es. clear Es.
  generalize dependent (new_ref false (S n) w).2. intros ws Hss Rs Ps.
  assert (Ds : deref ws (S (length (refs w))) = Some (JString s)).
  { unfold deref. by rewrite Rs. }
  cbv iota beta.
  unfold JNICaller.convert_and_delete, JNIToCPPConversor_convert.
  rewrite !bind_unfold.
  rewrite (toString_of_string ws _ _ Ds Ps). unfold ret at 1.
  cbv iota beta. rewrite bind_unfold, DeleteLocalRef_eq. cbv iota beta.
  by eexists.
Qed.

(** X21. A string field written with [Set] reads back with [Get]: on an
    attached thread with nothing pending and no allocation fault, for an
    instance whose class declares the field as a string, [Set] returns
    and the following [Get] returns the string that was set, up to its
    first NUL. *)
Theorem Set_then_Get_string_field (inst : jobject) (o : jobj) (name s : string)
    (i : nat) (w : World) :
  healthy w -> pending w = None -> alloc_faults w = [] ->
  deref w inst = Some o ->
  JNI.find_index
    (JNI.is_field false (JNI.class_of o) (c_str name) "Ljava/lang/String;")
    (fields w) 0 = Some i ->
  exists w1 w2,
    Set_ inst name "" (CString s) w = (Ok tt, w1) /\
    Get TString inst name "" w1 = (Ok (CString (c_str s)), w2).
Proof.
  intros Hh Hp Hfl D Hf.
  rewrite (Set_reduces inst name "Ljava/lang/String;" (CString s) o i w
             Hh D eq_refl Hf).
  destruct (field_access_state inst o w D)
    as (Hhp & Pp & Fp & Fip & _ & _ & Dp & _).
  generalize dependent
    (JNI.DeleteLocalRef (S (length (refs w)))
       (local_ref_to (JClass (JNI.class_of o)) w).2).2.
  intros wp Hhp Pp Fp Fip Dp.
  destruct (setField_string_run inst (S i) s wp) as (w1 & E1 & St1 & Fi1 & W1 & H1);
    [congruence|].
  exists w1. rewrite E1.
  assert (Hh1 : healthy w1) by exact (stable_healthy wp w1 St1 (Hhp Hh)).
  assert (D1 : deref w1 inst = Some o)
    by exact (stable_deref wp w1 inst o St1 Dp).
  assert (Hf1 : JNI.find_index
                  (JNI.is_field false (JNI.class_of o) (c_str name)
                     "Ljava/lang/String;") (fields w1) 0 = Some i)
    by (by rewrite Fi1, Fip).
  assert (P1 : pending w1 = None).
  { rewrite (st_pending _ _ St1). congruence. }
  rewrite (Get_reduces TString inst name "Ljava/lang/String;" o i w1
             Hh1 D1 eq_refl Hf1).
  destruct (field_access_state inst o w1 D1)
    as (_ & Pr & _ & _ & Fvr & Tr & _ & _).
  pose proof (field_access_heap o w1 _ _ H1) as Hsr.
  generalize dependent
    (JNI.DeleteLocalRef (S (length (refs w1)))
       (local_ref_to (JClass (JNI.class_of o)) w1).2).2.
  intros wr Pr Fvr Tr Hsr.
  destruct (getField_string_run inst (S i) (length (objs wp)) (c_str s) wr)
    as (w2 & E2).
  - by rewrite Fvr, Tr.
  - exact Hsr.
  - congruence.
  - exists w2. split; [reflexivity|]. by rewrite E2, c_str_idem.
Qed.

Lemma Set_then_Get_string_field_witness :
  exists w1 w2,
    Set_ 1 "title" "" (CString "hello") world_with_fields = (Ok tt, w1) /\
    Get TString 1 "title" "" w1 = (Ok (CString (c_str "hello")), w2).
Proof.
  apply (Set_then_Get_string_field 1 (JInstance Sample.Foo) "title" "hello" 1
           world_with_fields).
  - split; [reflexivity | simpl; lia].
  - reflexivity.
  - reflexivity.
  - reflexivity.
  - reflexivity.
Defined.

(** ** What a call returns *)

Lemma JNIParamConversor_simple (arg : cvalue) (d : JNIParamDestructor)
    (w : World) :
  simple arg = true ->
  JNIParamConversor arg (d, w) = (Ok (jvalue_of arg), (d, w)).
Proof.
  intros H. unfold JNIParamConversor.
  rewrite bind_unfold, lift_unfold.
  destruct arg; try discriminate H; reflexivity.
Qed.

Lemma convert_params_simple (v : list cvalue) (d : JNIParamDestructor)
    (w : World) :
  forallb simple v = true ->
  convert_params v (d, w) = (Ok (map jvalue_of v), (d, w)).
Proof.
  induction v as [|arg v IH]; [reflexivity|]. simpl.
  intros [Ha Hv]%andb_true_iff.
  rewrite bind_unfold, (JNIParamConversor_simple arg d w Ha).
  rewrite bind_unfold, (IH Hv). reflexivity.
Qed.

Lemma delete_params_nulls (n : nat) (w : World) :
  delete_params (replicate n NULL) w = (Ok tt, w).
Proof. induction n as [|n IH]; [reflexivity|]. simpl. exact IH. Qed.

Lemma unwind_ret {S A} (body : M S A) (s : S) :
  unwind body (ret tt) s = body s.
Proof. unfold unwind, ret. by destruct (body s) as [[a|e|r] s']. Qed.

Lemma getMethodInfo_class_found (cls : jobject) (c name sig : string)
    (mid : jmethodID) (w : World) :
  pending w = None -> JNI.class_name w cls = Some c ->
  JNI.lookup_method w false c (c_str name) sig = mid -> mid <> MNull ->
  Tools.getMethodInfo_class cls name sig w =
    (Ok {| classId := cls; methodId := mid; weak_ := true |},
     (emit (EvGetMethodID c (c_str name) sig) w).2).
Proof.
  intros Hp Hc Hl Hn.
  unfold Tools.getMethodInfo_class, Tools.getMethodInfo_class_rec.
  rewrite bind_unfold, (checkException_none w Hp), GetMethodID_then, Hc.
  cbn [default]. change (id c) with c.
  assert (Hp1 : pending (emit (EvGetMethodID c (c_str name) sig) w).2 = None)
    by exact Hp.
  assert (Hc1 : JNI.class_name (emit (EvGetMethodID c (c_str name) sig) w).2 cls
                = Some c) by exact Hc.
  assert (Hl1 : JNI.lookup_method (emit (EvGetMethodID c (c_str name) sig) w).2
                  false c (c_str name) sig = mid) by exact Hl.
  generalize dependent (emit (EvGetMethodID c (c_str name) sig) w).2.
  intros w1 Hp1 Hc1 Hl1.
  rewrite bind_unfold. unfold JNI.get_method. rewrite Hc1, Hl1.
  destruct mid; [done|..];
    rewrite bind_unfold, (checkException_none w1 Hp1); reflexivity.
Qed.

(** A call with simple arguments, once the method is found: the runtime
    is asked for the method, the method is invoked on the converted
    arguments, and the teardown drains what is pending. *)
Lemma Call_simple_run (T : ctype) (inst cls : jobject)
    (c name signature : string) (v : list cvalue) (mid : jmethodID)
    (w : World) :
  healthy w -> pending w = None -> JNI.class_name w cls = Some c ->
  JNI.lookup_method w false c (c_str name)
    (if empty signature then getJNISignature T (map type_of v)
     else c_str signature) = mid ->
  mid <> MNull ->
  forallb simple v = true ->
  Call T inst cls name signature v w =
    unwind (JNICaller.callInstance T inst mid (map jvalue_of v))
      Tools.clearException
      (emit (EvGetMethodID c (c_str name)
               (if empty signature then getJNISignature T (map type_of v)
                else c_str signature)) w).2.
Proof.
  intros Hh Hp Hc Hl Hn Hs. unfold Call. attach. cbv zeta.
  rewrite bind_unfold, (getMethodInfo_class_found cls c name _ mid w Hp Hc Hl Hn).
  unfold with_methodInfo, Tools.JNIMethodInfo_destructor.
  cbn [weak_ methodId]. rewrite unwind_ret.
  generalize (emit (EvGetMethodID c (c_str name)
                (if empty signature then getJNISignature T (map type_of v)
                 else c_str signature)) w).2.
  intros w1. unfold with_paramDestructor.
  rewrite bind_unfold, (convert_params_simple v _ w1 Hs), lift_unfold.
  unfold JNIParamDestructor_destructor, JNIParamDestructor_new.
  cbn [jniParams fst snd].
  unfold unwind.
  destruct (JNICaller.callInstance T inst mid (map jvalue_of v) w1)
    as [[a|e|r] w2]; cbn [fst snd]; try reflexivity;
    by rewrite bind_unfold, delete_params_nulls.
Qed.



(** X23. A failure that the target of a [Call] raises is not thrown to
    the native caller when the arguments are primitives or proxies and the
    return type is [void], a primitive, a string, a byte vector, an object
    vector or a proxy: the call returns (nothing, zero, the empty value, a
    proxy for null), and the teardown has logged the message of the
    failure. Nothing is pending afterwards when the message getter of the
    failure returned; when the getter raised, the empty text is logged and
    what it raised is still pending when the call is back. *)
Theorem Call_drains_the_failure_of_its_target (T : ctype)
    (inst cls : jobject) (c name signature : string) (v : list cvalue)
    (i : nat) (m : method) (t : throwable) (r : cvalue) (w : World) :
  healthy w -> pending w = None -> JNI.class_name w cls = Some c ->
  JNI.lookup_method w false c (c_str name)
    (if empty signature then getJNISignature T (map type_of v)
     else c_str signature) = MUser i ->
  methods w !! i = Some m ->
  forallb simple v = true ->
  drained_result T = Some r ->
  m_body m (map jvalue_of v) = Raises t ->
  exists w' evs,
    Call T inst cls name signature v w = (Ok r, w') /\
    pending w' = raised_by_getMessage t /\
    trace w' = trace w ++ evs /\ In (EvLog (c_str (message_text t))) evs.
Proof.
  intros Hh Hp Hc Hl Hm Hs HT Hb.
  rewrite (Call_simple_run T inst cls c name signature v (MUser i) w
             Hh Hp Hc Hl) by done.
  set (ev := EvGetMethodID c (c_str name) _).
  assert (Hrun : forall w1, methods w1 = methods w ->
            JNI.run_method inst (MUser i) (map jvalue_of v) w1 =
              (Ok RetVoid, set_pending w1 (Some t))).
  { intros w1 H1. unfold JNI.run_method. by rewrite H1, Hm, Hb. }
  assert (Hcall : JNICaller.callInstance T inst (MUser i) (map jvalue_of v)
                    (emit ev w).2 =
            (Ok r, set_pending (emit ev w).2 (Some t))).
  { unfold JNICaller.callInstance, JNICaller.call.
    destruct T; try discriminate HT; injection HT as <-; cbn [caller_of];
      unfold JNI.CallVoidMethod, JNI.CallPrimitiveMethod, JNI.CallObjectMethod;
      rewrite !bind_unfold, Hrun by reflexivity; reflexivity. }
  unfold unwind. rewrite Hcall.
  assert (Hh2 : healthy (set_pending (emit ev w).2 (Some t))) by exact Hh.
  destruct (clearException_pending _ t Hh2 eq_refl)
    as (w' & evs & E & P & _ & _ & Tr & Hin).
  rewrite E. exists w', (ev :: evs).
  split; [reflexivity|]. split; [exact P|]. split.
  - rewrite Tr. simpl. by rewrite <- app_assoc.
  - by right.
Qed.

Lemma Call_drains_the_failure_of_its_target_witness :
  exists w' evs,
    Call TVoid 1 2 "fail" "" [] world_with_adder = (Ok CVoid, w') /\
    pending w' = raised_by_getMessage (Throwable (Some "boom")) /\
    trace w' = trace world_with_adder ++ evs /\
    In (EvLog (c_str (message_text (Throwable (Some "boom"))))) evs.
Proof.
  apply (Call_drains_the_failure_of_its_target TVoid 1 2
           Sample.Foo "fail" "" [] 1
           {| m_class := Sample.Foo; m_name := "fail"; m_sig := "()V";
              m_static := false;
              m_body := fun _ => Raises (Throwable (Some "boom")) |}
           (Throwable (Some "boom")) CVoid world_with_adder).
  - split; [reflexivity | simpl; lia].
  - reflexivity.
  - reflexivity.
  - reflexivity.
  - reflexivity.
  - reflexivity.
  - reflexivity.
  - reflexivity.
Defined.

(** When the message getter of the failure raises in turn, the call still
    returns, and comes back with the second failure pending. *)
Example Call_returns_with_the_second_failure_pending :
  let r := Call TVoid 1 2 "failTwice" "" [] world_with_lister in
  r.1 = Ok CVoid /\ pending r.2 = Some (Throwable (Some "inner")).
Proof. vm_compute. split; reflexivity. Qed.

(** X24. When the return type is a string vector and the arguments are
    primitives or proxies, the failure that the target of a [Call] raised
    is thrown to the native caller: the conversion of the result checks,
    and the call throws a [JNIException] with the message of the failure
    (the empty text when the failure has no message or its message getter
    raised). Nothing is pending afterwards, unless the message getter
    raised a failure whose own message getter raises too: the teardown
    drains what the first getter raised. *)
Theorem Call_throws_the_failure_of_a_string_vector_target
    (inst cls : jobject) (c name signature : string) (v : list cvalue)
    (i : nat) (m : method) (t : throwable) (w : World) :
  healthy w -> pending w = None -> JNI.class_name w cls = Some c ->
  JNI.lookup_method w false c (c_str name)
    (if empty signature then getJNISignature TVecString (map type_of v)
     else c_str signature) = MUser i ->
  methods w !! i = Some m ->
  forallb simple v = true ->
  m_body m (map jvalue_of v) = Raises t ->
  exists w',
    Call TVecString inst cls name signature v w =
      (Throw {| message := c_str (message_text t) |}, w') /\
    pending w' = match raised_by_getMessage t with
                 | Some c => raised_by_getMessage c
                 | None => None
                 end.
Proof.
  intros Hh Hp Hc Hl Hm Hs Hb.
  rewrite (Call_simple_run TVecString inst cls c name signature v (MUser i) w
             Hh Hp Hc Hl) by done.
  set (ev := EvGetMethodID c (c_str name) _).
  assert (Hrun : JNI.run_method inst (MUser i) (map jvalue_of v) (emit ev w).2 =
              (Ok RetVoid, set_pending (emit ev w).2 (Some t))).
  { unfold JNI.run_method. cbn [methods emit set_trace snd]. by rewrite Hm, Hb. }
  assert (Hh2 : healthy (set_pending (emit ev w).2 (Some t)))
    by exact Hh.
  destruct (checkException_pending _ t Hh2 eq_refl)
    as (w' & E & P & V & A).
  assert (Hh' : healthy w').
  { destruct Hh2 as [? ?]. split; congruence. }
  assert (Hcall : JNICaller.callInstance TVecString inst (MUser i)
                    (map jvalue_of v) (emit ev w).2 =
            (Throw {| message := c_str (message_text t) |}, w')).
  { unfold JNICaller.callInstance, JNICaller.call. cbn [caller_of].
    unfold JNI.CallObjectMethod. rewrite !bind_unfold, Hrun.
    unfold ret at 1. cbv iota beta.
    unfold JNICaller.convert_and_delete, JNIToCPPConversor_convert,
      Tools.toVectorString.
    rewrite !bind_unfold. unfold NULL. cbv iota beta.
    unfold ret at 1. cbv iota beta.
    by rewrite bind_unfold, E. }
  unfold unwind. rewrite Hcall.
  destruct (raised_by_getMessage t) as [c0|] eqn:Hr.
  - destruct (clearException_pending w' c0 Hh' P)
      as (w'' & evs & E' & P' & _).
    rewrite E'. by exists w''.
  - destruct (clearException_spec w' Hh') as (w'' & E' & Hsame & _).
    rewrite E', (Hsame P). by exists w'.
Qed.

Lemma Call_throws_the_failure_of_a_string_vector_target_witness :
  exists w',
    Call TVecString 1 2 "fail" "()V" [] world_with_adder =
      (Throw {| message := c_str (message_text (Throwable (Some "boom"))) |},
       w') /\
    pending w' = match raised_by_getMessage (Throwable (Some "boom")) with
                 | Some c => raised_by_getMessage c
                 | None => None
                 end.
Proof.
  apply (Call_throws_the_failure_of_a_string_vector_target 1 2
           Sample.Foo "fail" "()V" [] 1
           {| m_class := Sample.Foo; m_name := "fail"; m_sig := "()V";
              m_static := false;
              m_body := fun _ => Raises (Throwable (Some "boom")) |}
           (Throwable (Some "boom")) world_with_adder).
  - split; [reflexivity | simpl; lia].
  - reflexivity.
  - reflexivity.
  - reflexivity.
  - reflexivity.
  - reflexivity.
  - reflexivity.
Defined.

(** When the message getter of the failure raises in turn, the call throws
    a [JNIException] with an empty message, and the teardown drains the
    second failure. *)
Example Call_throws_an_empty_message_for_a_raising_getter :
  let r := Call TVecString 1 2 "failTwice" "()V" [] world_with_lister in
  r.1 = Throw {| message := "" |} /\ pending r.2 = None.
Proof. vm_compute. split; reflexivity. Qed.





(** X26. [GetStatic] of a static field of primitive type that the class
    declares, and that was not written since, returns the value the
    program gives it, and deletes the class reference it made for the
    lookup. *)
Theorem GetStatic_reads_the_declared_value (T : ctype)
    (className propertyName signature : string) (i : nat) (f : field)
    (z : Z) (w : World) :
  healthy w ->
  JNI.class_exists w (c_str className) = true ->
  JNI.find_index
    (JNI.is_field true (c_str className) (c_str propertyName)
       (field_signature T signature)) (fields w) 0 = Some i ->
  fields w !! i = Some f -> f_init f = RetPrim z ->
  JNI.written (fieldvals w) 0 (S i) = None ->
  caller_of T = CallerPrimitive ->
  exists w',
    GetStatic T className propertyName signature w =
      (Ok (primitive_result T z), w') /\
    trace w' =
      trace w ++ [EvNewLocalRef (S (length (refs w)));
                  EvDeleteLocalRef (S (length (refs w)))].
Proof.
  intros Hh Hex Hf Hfi Hz Hw HT.
  unfold GetStatic. cbv zeta. attach.
  rewrite bind_unfold. unfold JNI.FindClass at 1. rewrite Hex.
  rewrite local_ref_to_eq.
  assert (T1 : trace (local_ref_to (JClass (c_str className)) w).2 =
               trace w ++ [EvNewLocalRef (S (length (refs w)))]) by reflexivity.
  assert (Hc1 : JNI.class_name (local_ref_to (JClass (c_str className)) w).2
                  (S (length (refs w))) = Some (c_str className)).
  { unfold JNI.class_name. by rewrite deref_local_ref_to. }
  assert (F1 : fields (local_ref_to (JClass (c_str className)) w).2 = fields w)
    by reflexivity.
  assert (V1 : fieldvals (local_ref_to (JClass (c_str className)) w).2 =
               fieldvals w) by reflexivity.
  generalize dependent (local_ref_to (JClass (c_str className)) w).2.
  intros w1 T1 Hc1 F1 V1.
  rewrite bind_unfold. unfold JNI.GetStaticFieldID, JNI.get_field_id.
  rewrite Hc1, F1, Hf.
  rewrite bind_unfold. unfold JNICaller.getStaticField. rewrite HT.
  unfold JNI.GetStaticPrimitiveField. rewrite !bind_unfold.
  unfold JNI.read_field. rewrite V1, Hw, F1, Hfi. cbn [fmap option_fmap option_map].
  rewrite Hz. unfold ret at 1. cbv iota beta. unfold ret at 1. cbv iota beta.
  rewrite bind_unfold, DeleteLocalRef_eq. cbv iota beta.
  exists (JNI.DeleteLocalRef (S (length (refs w))) w1).2.
  split; [reflexivity|].
  rewrite DeleteLocalRef_trace, T1. by rewrite <- app_assoc.
Qed.

Lemma GetStatic_reads_the_declared_value_witness :
  exists w',
    GetStatic TInt32 Sample.Foo "LIMIT" "" world_with_fields =
      (Ok (primitive_result TInt32 42), w') /\
    trace w' =
      trace world_with_fields ++
      [EvNewLocalRef (S (length (refs world_with_fields)));
       EvDeleteLocalRef (S (length (refs world_with_fields)))].
Proof.
  apply (GetStatic_reads_the_declared_value TInt32 Sample.Foo "LIMIT" "" 2
           {| f_class := Sample.Foo; f_name := "LIMIT"; f_sig := "I";
              f_static := true; f_init := RetPrim 42 |} 42 world_with_fields).
  - split; [reflexivity | simpl; lia].
  - reflexivity.
  - reflexivity.
  - reflexivity.
  - reflexivity.
  - reflexivity.
  - reflexivity.
Defined.

(* ================================================================== *)
(** ** The references made for the elements of a string vector         *)
(* ================================================================== *)












(** The same call leaves two more live local references in the frame of
    the caller each time it is made: the references 5 and 6 after the
    first call, 9 and 10 after the second. *)
Example string_vector_argument_leaks_on_every_call :
  let call := Call TVoid 1 2 "setNames" "" [CVecString ["a"; "b"]] in
  let w1 := (call world_with_lister).2 in
  let w2 := (call w1).2 in
  filter (fun h => local_live w1 h) (seq 3 (length (refs w1) - 2)) = [5; 6] /\
  filter (fun h => local_live w2 h) (seq 3 (length (refs w2) - 2)) =
    [5; 6; 9; 10].
Proof. vm_compute. split; reflexivity. Qed.

